(** * Orientation-driven clock widget: a shallow embedding of [src/index.tsx]

    The page is one [DOMContentLoaded] closure holding four panels (alarm,
    timer, stopwatch, weather), a view router driven by the screen
    orientation, and the handlers registered on the panels' controls.

    Conventions of the embedding.

    - JavaScript numbers that the program uses as integers (millisecond
      instants and durations, second counts, handles, lap numbers) are [Z];
      [NaN] is [None] in [Js.Num].  The embedding is exact as long as the
      values stay below [2^53] in magnitude, where doubles are exact too.
    - [Math.floor (a / b)] on integers is [Z.div]; the [%] operator is
      [Z.rem] (the sign follows the dividend).
    - The closure's [let] variables and the DOM elements it holds are the
      fields of one [World] record; every handler is a function
      [World -> World].  What a handler reads from the platform (the clock,
      the orientation type) is an argument of the handler.
    - [window.setTimeout] / [window.setInterval] are modelled by an explicit
      table of pending callbacks with fresh handles, so that a variable
      holding a stale handle is told apart from a callback that is pending.
    - The wall-clock line ([updateCurrentTime]) only writes
      locale-formatted text and shares no variable with the panels; it is
      left out.
    - Instants are milliseconds since the epoch, as [Date.getTime] gives
      them.  [Date.setHours] works on the wall clock of the host's time
      zone, which is part of the platform ([Js.Zone]): the offset of local
      time may change from one instant to another, so a local day need not
      be 24 hours long.
    - A statement that writes through a [null] element reference, or reads
      through a missing part of a response body, throws.  The alarm, timer
      and stopwatch handlers are attached only when all their elements
      exist; the weather panel checks nothing but the panel itself, so its
      functions are modelled with their throws ([Outcome]). *)

From Stdlib Require Import ZArith QArith Qround List String Ascii Bool Lia.
From Stdlib Require Import DecimalString DecimalZ.
Import ListNotations.
Local Open Scope string_scope.
Local Open Scope Z_scope.

(* ===================================================================== *)
(** ** The JavaScript primitives the program calls                       *)
(* ===================================================================== *)

Module Js.

(** A number that may be [NaN]. *)
Definition Num := option Z.

(** [x || 0] on a number: [NaN] and [0] are falsy. *)
Definition or0 (x : Num) : Z :=
  match x with
  | Some z => if z =? 0 then 0 else z
  | None => 0
  end.

(** [n.toString()] for an integer [n]. *)
Definition toString (n : Z) : string :=
  NilZero.string_of_int (Z.to_int n).

#[global] Arguments toString : simpl never.

(** [count] characters of [pad] repeated, starting inside [cur]. *)
Fixpoint fill (count : nat) (cur pad : string) : string :=
  match count with
  | O => ""
  | S k =>
      match cur with
      | String c rest => String c (fill k rest pad)
      | EmptyString =>
          match pad with
          | String c rest => String c (fill k rest pad)
          | EmptyString => ""
          end
      end
  end.

(** [s.padStart(targetLength, padString)]. *)
Definition padStart (s : string) (targetLength : nat) (padString : string)
  : string :=
  if (targetLength <=? String.length s)%nat then s
  else fill (targetLength - String.length s) padString padString ++ s.

#[global] Arguments padStart : simpl never.

(** [s.split(sep)] for a one-character separator: never empty. *)
Fixpoint split (sep : ascii) (s : string) : list string :=
  match s with
  | EmptyString => [""]
  | String c rest =>
      if Ascii.eqb c sep then "" :: split sep rest
      else match split sep rest with
           | h :: t => String c h :: t
           | [] => [String c ""]
           end
  end.

(** The white space [parseInt] skips (the ASCII part of it). *)
Definition isWhiteSpace (c : ascii) : bool :=
  let n := nat_of_ascii c in
  ((9 <=? n) && (n <=? 13) || (n =? 32))%nat.

Fixpoint trimStart (s : string) : string :=
  match s with
  | String c rest => if isWhiteSpace c then trimStart rest else s
  | EmptyString => s
  end.

Definition digitValue (c : ascii) : option Z :=
  let n := nat_of_ascii c in
  if ((48 <=? n) && (n <=? 57))%nat then Some (Z.of_nat n - 48) else None.

(** The value of the longest prefix of decimal digits, given the value
    [acc] of the digits read so far ([None] when there are none). *)
Fixpoint digitsPrefix (acc : option Z) (s : string) : option Z :=
  match s with
  | String c rest =>
      match digitValue c with
      | Some d =>
          digitsPrefix
            (Some (10 * match acc with Some a => a | None => 0 end + d)) rest
      | None => acc
      end
  | EmptyString => acc
  end.

(** [parseInt(s, 10)]. *)
Definition parseInt (s : string) : Num :=
  match trimStart s with
  | String "-" rest => option_map Z.opp (digitsPrefix None rest)
  | String "+" rest => digitsPrefix None rest
  | t => digitsPrefix None t
  end.

(** [parseInt(x, 10)] where [x] may be [undefined] (a missing array
    element): [undefined] is converted to the string ["undefined"]. *)
Definition parseIntArg (x : option string) : Num :=
  match x with
  | Some s => parseInt s
  | None => parseInt "undefined"
  end.

(** ** [Date] and the host's time zone *)

Definition msPerDay : Z := 24 * 60 * 60 * 1000.

(** The largest time value of a [Date]. *)
Definition maxTime : Z := 8640000000000000.

(** The host's time zone, as [Date] consults it.  [offsetAt t] is the
    offset of local time from UTC in force at the instant [t]
    (LocalTZA(t, true)); [offsetOf tl] is the offset the host takes for the
    wall-clock time [tl] (LocalTZA(tl, false)): where a wall-clock time
    occurs twice or not at all, the host decides. *)
Record Zone : Type := {
  offsetAt : Z -> Z;
  offsetOf : Z -> Z
}.

(** LocalTime(t) and UTC(tl). *)
Definition localTime (z : Zone) (t : Z) : Z := t + offsetAt z t.
Definition utc (z : Zone) (tl : Z) : Z := tl - offsetOf z tl.

(** Day(t), the number of the day [t] falls in. *)
Definition day (t : Z) : Z := t / msPerDay.

(** MakeTime(h, m, 0, 0) and MakeDate(day, time). *)
Definition makeTime (h m : Z) : Z := h * 3600000 + m * 60000.
Definition makeDate (d time : Z) : Z := d * msPerDay + time.

(** TimeClip: a time value out of range makes the date invalid. *)
Definition timeClip (t : Z) : Num :=
  if Z.abs t <=? maxTime then Some t else None.

(** [d.setHours(h, m, 0, 0); d.getTime()] for a valid date [d]: the hour
    and the minute replace those of the wall-clock time of [d], on the same
    local day (hours and minutes out of range carry over), and the result
    is read back as an instant.  The date becomes invalid when an argument
    is [NaN] or the result is out of range. *)
Definition setHours (z : Zone) (d : Z) (h m : Num) : Num :=
  match h, m with
  | Some h', Some m' =>
      timeClip (utc z (makeDate (day (localTime z d)) (makeTime h' m')))
  | _, _ => None
  end.

(** [a - b], [a + b] and [a < 0] on numbers; a comparison with [NaN] is
    false. *)
Definition sub (a b : Num) : Num :=
  match a, b with Some x, Some y => Some (x - y) | _, _ => None end.
Definition add (a b : Num) : Num :=
  match a, b with Some x, Some y => Some (x + y) | _, _ => None end.
Definition ltZero (a : Num) : bool :=
  match a with Some x => x <? 0 | None => false end.

(** [Math.round] of a rational. *)
Definition round (q : Q) : Z := Qfloor (q + (1 # 2))%Q.

End Js.

(* ===================================================================== *)
(** ** The document: elements, pending callbacks, closure variables      *)
(* ===================================================================== *)

(** [type ViewKey = keyof typeof views]: the keys of the [views] object, in
    the order [Object.keys] lists them. *)
Inductive ViewKey : Type := alarm | timer | stopwatch | weather.

Scheme Equality for ViewKey.

(** The elements the closure looks up, named as the closure names them.
    [view k] is [views[k]], the element whose id is the key itself
    ([document.getElementById('alarm')] is [view alarm], [weatherView] is
    [view weather]); [themeColorMeta] is
    [document.querySelector('meta[name="theme-color"]')]. *)
Inductive ElemId : Type :=
| view (k : ViewKey)
| themeColorMeta
| alarmTimeInput | setAlarmBtn | clearAlarmBtn
| alarmStatusEl | alarmSound
| timerDisplay | minutesInput | secondsInput
| startTimerBtn | pauseTimerBtn | resetTimerBtn | timerSound
| stopwatchDisplay | stopwatchMillisecondsEl | primaryBtn | secondaryBtn
| lapsList
| weatherStatusEl | weatherCardEl | weatherCityEl | weatherIconEl
| weatherTempEl | weatherDescEl.

Scheme Equality for ElemId.

Abbreviation weatherView := (view weather).

Module Dom.

(** Text the program writes into an element.  The two strings produced by
    the platform's formatting are kept symbolic: the locale rendering of an
    instant, and the computed background colour of a panel. *)
Inductive Text : Type :=
| Lit (s : string)
| AlarmSetFor (alarmDateTime : Js.Num)
| BackgroundColorOf (k : ViewKey) (classes : list string).

Definition Text_eqb (a b : Text) : bool :=
  match a, b with
  | Lit x, Lit y => String.eqb x y
  | AlarmSetFor (Some x), AlarmSetFor (Some y) => x =? y
  | AlarmSetFor None, AlarmSetFor None => true
  | BackgroundColorOf k c, BackgroundColorOf k' c' =>
      ViewKey_beq k k'
      && (if list_eq_dec string_dec c c' then true else false)
  | _, _ => false
  end.

(** The properties of an element that the program reads or writes.  The
    media properties are meaningful on the two [audio] elements,
    [children] holds the [innerHTML] of each [li] of the lap list. *)
Record Element : Type := {
  classList : list string;
  attributes : list (string * Text);
  textContent : Text;
  value : string;
  disabled : bool;
  paused : bool;
  currentTime : Z;
  loop : bool;
  children : list string
}.

(** *** [classList] *)

Definition contains (c : string) (l : list string) : bool :=
  existsb (String.eqb c) l.
Definition add (c : string) (l : list string) : list string :=
  if contains c l then l else (l ++ [c])%list.
Definition remove (c : string) (l : list string) : list string :=
  filter (fun x => negb (String.eqb c x)) l.

#[global] Arguments contains : simpl never.
#[global] Arguments add : simpl never.
#[global] Arguments remove : simpl never.

(** *** Property writes *)

Definition classList_add (c : string) (e : Element) : Element :=
  {| classList := add c (classList e); attributes := attributes e;
     textContent := textContent e; value := value e;
     disabled := disabled e; paused := paused e;
     currentTime := currentTime e; loop := loop e;
     children := children e |}.

Definition classList_remove (c : string) (e : Element) : Element :=
  {| classList := remove c (classList e); attributes := attributes e;
     textContent := textContent e; value := value e;
     disabled := disabled e; paused := paused e;
     currentTime := currentTime e; loop := loop e;
     children := children e |}.

Fixpoint setAssoc (name : string) (v : Text) (l : list (string * Text))
  : list (string * Text) :=
  match l with
  | [] => [(name, v)]
  | (n, x) :: rest =>
      if String.eqb n name then (n, v) :: rest
      else (n, x) :: setAssoc name v rest
  end.

Fixpoint getAssoc (name : string) (l : list (string * Text))
  : option Text :=
  match l with
  | [] => None
  | (n, x) :: rest => if String.eqb n name then Some x else getAssoc name rest
  end.

Definition getAttribute (name : string) (e : Element) : option Text :=
  getAssoc name (attributes e).

Definition setAttribute (name : string) (v : Text) (e : Element)
  : Element :=
  {| classList := classList e;
     attributes := setAssoc name v (attributes e);
     textContent := textContent e; value := value e;
     disabled := disabled e; paused := paused e;
     currentTime := currentTime e; loop := loop e;
     children := children e |}.

Definition set_textContent (t : Text) (e : Element) : Element :=
  {| classList := classList e; attributes := attributes e;
     textContent := t; value := value e;
     disabled := disabled e; paused := paused e;
     currentTime := currentTime e; loop := loop e;
     children := children e |}.

Definition set_value (v : string) (e : Element) : Element :=
  {| classList := classList e; attributes := attributes e;
     textContent := textContent e; value := v;
     disabled := disabled e; paused := paused e;
     currentTime := currentTime e; loop := loop e;
     children := children e |}.

Definition set_disabled (b : bool) (e : Element) : Element :=
  {| classList := classList e; attributes := attributes e;
     textContent := textContent e; value := value e;
     disabled := b; paused := paused e;
     currentTime := currentTime e; loop := loop e;
     children := children e |}.

Definition set_paused (b : bool) (e : Element) : Element :=
  {| classList := classList e; attributes := attributes e;
     textContent := textContent e; value := value e;
     disabled := disabled e; paused := b;
     currentTime := currentTime e; loop := loop e;
     children := children e |}.

Definition set_currentTime (t : Z) (e : Element) : Element :=
  {| classList := classList e; attributes := attributes e;
     textContent := textContent e; value := value e;
     disabled := disabled e; paused := paused e;
     currentTime := t; loop := loop e;
     children := children e |}.

Definition set_loop (b : bool) (e : Element) : Element :=
  {| classList := classList e; attributes := attributes e;
     textContent := textContent e; value := value e;
     disabled := disabled e; paused := paused e;
     currentTime := currentTime e; loop := b;
     children := children e |}.

Definition set_children (c : list string) (e : Element) : Element :=
  {| classList := classList e; attributes := attributes e;
     textContent := textContent e; value := value e;
     disabled := disabled e; paused := paused e;
     currentTime := currentTime e; loop := loop e;
     children := c |}.

(** [audio.pause()]. *)
Definition pause (e : Element) : Element := set_paused true e.

(** [audio.play()]: playback starts when the host allows it; otherwise
    the returned promise rejects, which the program logs and drops. *)
Definition play (allowed : bool) (e : Element) : Element :=
  if allowed then set_paused false e else e.

End Dom.

(** *** Pending callbacks *)

(** The functions the program hands to [setTimeout] and [setInterval]. *)
Inductive Callback : Type :=
| cb_triggerAlarm
| cb_expireClearedMessage      (* the arrow function of [clearAlarm] *)
| cb_tick
| cb_updateStopwatchDisplay.

Record Pending : Type := {
  handle : Z;
  callback : Callback;
  delay : Js.Num;         (* the delay argument as the program passed it *)
  repeating : bool        (* [setInterval] rather than [setTimeout] *)
}.

Record Sched : Type := {
  nextHandle : Z;         (* handles are handed out in increasing order *)
  pendings : list Pending
}.

Module Timers.

Definition register (cb : Callback) (d : Js.Num) (rep : bool) (s : Sched)
  : Z * Sched :=
  (nextHandle s,
   {| nextHandle := nextHandle s + 1;
      pendings := (pendings s ++
                   [{| handle := nextHandle s; callback := cb;
                       delay := d; repeating := rep |}])%list |}).

(** [clearTimeout(h)] and [clearInterval(h)]; [undefined] or a handle that
    is not pending cancels nothing. *)
Definition clear (h : option Z) (s : Sched) : Sched :=
  match h with
  | Some id =>
      {| nextHandle := nextHandle s;
         pendings := filter (fun p => negb (handle p =? id)) (pendings s) |}
  | None => s
  end.

Definition find (id : Z) (s : Sched) : option Pending :=
  List.find (fun p => handle p =? id) (pendings s).

Definition isPending (id : Z) (s : Sched) : bool :=
  existsb (fun p => handle p =? id) (pendings s).

(** The callbacks of a given function that are still pending. *)
Definition pendingOf (cb : Callback) (s : Sched) : list Pending :=
  filter (fun p => match callback p, cb with
                   | cb_triggerAlarm, cb_triggerAlarm
                   | cb_expireClearedMessage, cb_expireClearedMessage
                   | cb_tick, cb_tick
                   | cb_updateStopwatchDisplay, cb_updateStopwatchDisplay =>
                       true
                   | _, _ => false
                   end) (pendings s).

End Timers.

(** *** The closure's variables and the platform *)

Record Vars : Type := {
  alarmTimeoutId : option Z;
  timerIntervalId : option Z;
  secondsRemaining : Z;
  isPaused : bool;
  stopwatchIntervalId : option Z;
  startTime : Z;
  elapsedTime : Z;
  isRunning : bool;
  lapCounter : Z
}.

(** What a statement that throws a [TypeError] failed on: a property of a
    [null] element reference that is written or read, or a property read
    through a part of a response body that is [undefined] or [null]. *)
Inductive Fault : Type :=
| NullElement (id : ElemId) (property : string)
| MissingPart (path : string).

(** What the host is: its time zone, and the message its engine gives to a
    [TypeError]. *)
Record Host : Type := {
  zone : Js.Zone;
  typeErrorMessage : Fault -> string
}.

(** What the page asks of the host, and what the host lets it do. *)
Record Platform : Type := {
  host : Host;
  autoplayAllowed : bool;        (* whether [audio.play()] may start *)
  geolocationSupported : bool;   (* ['geolocation' in navigator] *)
  geoRequests : nat;             (* [getCurrentPosition] calls made so far *)
  geoPending : nat;              (* of which not yet answered *)
  fetches : list (Q * Q);        (* weather requests issued: (lat, lon) *)
  fetchPending : nat             (* of which not yet answered *)
}.

Record World : Type := {
  dom : ElemId -> option Dom.Element;
  sched : Sched;
  platform : Platform;
  vars : Vars
}.

Module St.

Definition with_dom (f : (ElemId -> option Dom.Element) ->
                         ElemId -> option Dom.Element) (w : World) : World :=
  {| dom := f (dom w); sched := sched w; platform := platform w;
     vars := vars w |}.
Definition with_sched (s : Sched) (w : World) : World :=
  {| dom := dom w; sched := s; platform := platform w; vars := vars w |}.
Definition with_platform (p : Platform) (w : World) : World :=
  {| dom := dom w; sched := sched w; platform := p; vars := vars w |}.
Definition with_vars (v : Vars) (w : World) : World :=
  {| dom := dom w; sched := sched w; platform := platform w; vars := v |}.

(** A write through a reference to an element: [el.prop = x], or
    [el?.method()] when the reference may be [null].  Nothing happens when
    the element does not exist.  The unguarded writes of the alarm, timer
    and stopwatch handlers are never reached in that case, since each of
    these panels attaches its listeners only when all its elements exist
    (see [wired] in each module and [Loop.click]); the unguarded writes of
    the weather panel go through [Try.writing]. *)
Definition update (id : ElemId) (f : Dom.Element -> Dom.Element)
           (w : World) : World :=
  with_dom (fun d k => if ElemId_beq k id then option_map f (d k) else d k)
           w.

Definition present (id : ElemId) (w : World) : bool :=
  match dom w id with Some _ => true | None => false end.

(** Assignments to the closure's variables. *)
Definition set_alarmTimeoutId (x : option Z) (w : World) : World :=
  with_vars
    {| alarmTimeoutId := x;
       timerIntervalId := timerIntervalId (vars w);
       secondsRemaining := secondsRemaining (vars w);
       isPaused := isPaused (vars w);
       stopwatchIntervalId := stopwatchIntervalId (vars w);
       startTime := startTime (vars w);
       elapsedTime := elapsedTime (vars w);
       isRunning := isRunning (vars w);
       lapCounter := lapCounter (vars w) |} w.

Definition set_timerIntervalId (x : option Z) (w : World) : World :=
  with_vars
    {| alarmTimeoutId := alarmTimeoutId (vars w);
       timerIntervalId := x;
       secondsRemaining := secondsRemaining (vars w);
       isPaused := isPaused (vars w);
       stopwatchIntervalId := stopwatchIntervalId (vars w);
       startTime := startTime (vars w);
       elapsedTime := elapsedTime (vars w);
       isRunning := isRunning (vars w);
       lapCounter := lapCounter (vars w) |} w.

Definition set_secondsRemaining (x : Z) (w : World) : World :=
  with_vars
    {| alarmTimeoutId := alarmTimeoutId (vars w);
       timerIntervalId := timerIntervalId (vars w);
       secondsRemaining := x;
       isPaused := isPaused (vars w);
       stopwatchIntervalId := stopwatchIntervalId (vars w);
       startTime := startTime (vars w);
       elapsedTime := elapsedTime (vars w);
       isRunning := isRunning (vars w);
       lapCounter := lapCounter (vars w) |} w.

Definition set_isPaused (x : bool) (w : World) : World :=
  with_vars
    {| alarmTimeoutId := alarmTimeoutId (vars w);
       timerIntervalId := timerIntervalId (vars w);
       secondsRemaining := secondsRemaining (vars w);
       isPaused := x;
       stopwatchIntervalId := stopwatchIntervalId (vars w);
       startTime := startTime (vars w);
       elapsedTime := elapsedTime (vars w);
       isRunning := isRunning (vars w);
       lapCounter := lapCounter (vars w) |} w.

Definition set_stopwatchIntervalId (x : option Z) (w : World) : World :=
  with_vars
    {| alarmTimeoutId := alarmTimeoutId (vars w);
       timerIntervalId := timerIntervalId (vars w);
       secondsRemaining := secondsRemaining (vars w);
       isPaused := isPaused (vars w);
       stopwatchIntervalId := x;
       startTime := startTime (vars w);
       elapsedTime := elapsedTime (vars w);
       isRunning := isRunning (vars w);
       lapCounter := lapCounter (vars w) |} w.

Definition set_startTime (x : Z) (w : World) : World :=
  with_vars
    {| alarmTimeoutId := alarmTimeoutId (vars w);
       timerIntervalId := timerIntervalId (vars w);
       secondsRemaining := secondsRemaining (vars w);
       isPaused := isPaused (vars w);
       stopwatchIntervalId := stopwatchIntervalId (vars w);
       startTime := x;
       elapsedTime := elapsedTime (vars w);
       isRunning := isRunning (vars w);
       lapCounter := lapCounter (vars w) |} w.

Definition set_elapsedTime (x : Z) (w : World) : World :=
  with_vars
    {| alarmTimeoutId := alarmTimeoutId (vars w);
       timerIntervalId := timerIntervalId (vars w);
       secondsRemaining := secondsRemaining (vars w);
       isPaused := isPaused (vars w);
       stopwatchIntervalId := stopwatchIntervalId (vars w);
       startTime := startTime (vars w);
       elapsedTime := x;
       isRunning := isRunning (vars w);
       lapCounter := lapCounter (vars w) |} w.

Definition set_isRunning (x : bool) (w : World) : World :=
  with_vars
    {| alarmTimeoutId := alarmTimeoutId (vars w);
       timerIntervalId := timerIntervalId (vars w);
       secondsRemaining := secondsRemaining (vars w);
       isPaused := isPaused (vars w);
       stopwatchIntervalId := stopwatchIntervalId (vars w);
       startTime := startTime (vars w);
       elapsedTime := elapsedTime (vars w);
       isRunning := x;
       lapCounter := lapCounter (vars w) |} w.

Definition set_lapCounter (x : Z) (w : World) : World :=
  with_vars
    {| alarmTimeoutId := alarmTimeoutId (vars w);
       timerIntervalId := timerIntervalId (vars w);
       secondsRemaining := secondsRemaining (vars w);
       isPaused := isPaused (vars w);
       stopwatchIntervalId := stopwatchIntervalId (vars w);
       startTime := startTime (vars w);
       elapsedTime := elapsedTime (vars w);
       isRunning := isRunning (vars w);
       lapCounter := x |} w.

(** [window.setTimeout(cb, d)] and [window.setInterval(cb, d)]: the new
    handle and the world with the callback pending. *)
Definition setTimeout (cb : Callback) (d : Js.Num) (w : World)
  : Z * World :=
  let (id, s) := Timers.register cb d false (sched w) in
  (id, with_sched s w).
Definition setInterval (cb : Callback) (d : Js.Num) (w : World)
  : Z * World :=
  let (id, s) := Timers.register cb d true (sched w) in
  (id, with_sched s w).
Definition clearTimer (h : option Z) (w : World) : World :=
  with_sched (Timers.clear h (sched w)) w.

(** The truth value of a handle variable in [if (id)]: [undefined] and [0]
    are falsy. *)
Definition truthy (h : option Z) : bool :=
  match h with Some id => negb (id =? 0) | None => false end.

End St.

(** *** Statements that may throw *)

(** How a run of statements ends: it completes, or one of them throws and
    the statements after it are not run.  Either way the writes made so far
    stay. *)
Inductive Outcome : Type :=
| Completed (w : World)
| Thrown (fault : Fault) (w : World).

Module Try.

(** The page as the run leaves it. *)
Definition worldOf (o : Outcome) : World :=
  match o with
  | Completed w => w
  | Thrown _ w => w
  end.

(** [el.prop = x; next] (or [el.classList.add(c); next]) for a reference
    that may be [null]: the statement throws when it is. *)
Definition writing (id : ElemId) (property : string)
           (f : Dom.Element -> Dom.Element) (next : World -> Outcome)
           (w : World) : Outcome :=
  match dom w id with
  | Some _ => next (St.update id f w)
  | None => Thrown (NullElement id property) w
  end.

(** [const x = part.prop; next] where [part] may be missing. *)
Definition reading {A : Type} (part : option A) (path : string)
           (next : A -> World -> Outcome) (w : World) : Outcome :=
  match part with
  | Some x => next x w
  | None => Thrown (MissingPart path) w
  end.

End Try.

(* ===================================================================== *)
(** ** View router ([updateVisibleView], [handleOrientationChange])     *)
(* ===================================================================== *)

Module Router.

(** [Object.keys(views)]. *)
Definition keys : list ViewKey := [alarm; timer; stopwatch; weather].

(** Hides all views and shows the one specified by the key. *)
Definition updateVisibleView (activeViewKey : option ViewKey) (w : World)
  : World :=
  let w :=
    fold_left
      (fun w key => St.update (view key) (Dom.classList_add "hidden") w)
      keys w in
  match activeViewKey with
  | Some key =>
      match dom w (view key) with
      | Some _ =>
          let w :=
            St.update (view key) (Dom.classList_remove "hidden") w in
          let themeColor :=
            match dom w (view key) with
            | Some e => Dom.BackgroundColorOf key (Dom.classList e)
            | None => Dom.Lit ""
            end in
          St.update themeColorMeta
                    (Dom.setAttribute "content" themeColor) w
      | None => w
      end
  | None => w
  end.

(** [orientation] is the value of [screen.orientation.type] when the
    handler runs. *)
Definition handleOrientationChange (orientation : string) (w : World)
  : World :=
  if String.eqb orientation "portrait-primary" then
    updateVisibleView (Some alarm) w
  else if String.eqb orientation "portrait-secondary" then
    updateVisibleView (Some timer) w
  else if String.eqb orientation "landscape-secondary" then
    updateVisibleView (Some stopwatch) w
  else if String.eqb orientation "landscape-primary" then
    updateVisibleView (Some weather) w
  else
    updateVisibleView (Some alarm) w.

(** A panel is shown when it exists and does not carry the [hidden]
    class. *)
Definition visible (k : ViewKey) (w : World) : bool :=
  match dom w (view k) with
  | Some e => negb (Dom.contains "hidden" (Dom.classList e))
  | None => false
  end.

Definition visiblePanels (w : World) : list ViewKey :=
  filter (fun k => visible k w) keys.

End Router.

(* ===================================================================== *)
(** ** Alarm ([triggerAlarm], [setAlarm], [clearAlarm])                  *)
(* ===================================================================== *)

Module Alarm.

Definition triggerAlarm (w : World) : World :=
  match dom w alarmSound, dom w alarmStatusEl, dom w clearAlarmBtn with
  | Some _, Some _, Some _ =>
      let w := St.update alarmSound (Dom.set_loop true) w in
      let w :=
        St.update alarmSound (Dom.play (autoplayAllowed (platform w))) w in
      let w :=
        St.update alarmStatusEl (Dom.set_textContent (Dom.Lit "Wake up!"))
                  w in
      let w := St.update (view alarm) (Dom.classList_add "alarming") w in
      St.update clearAlarmBtn (Dom.set_textContent (Dom.Lit "Stop Alarm"))
                w
  | _, _, _ => w
  end.

(** [const [hours, minutes] = timeValue.split(':')] followed by the two
    [parseInt] calls. *)
Definition parseTimeValue (timeValue : string) : Js.Num * Js.Num :=
  let parts := Js.split ":" timeValue in
  (Js.parseIntArg (nth_error parts 0), Js.parseIntArg (nth_error parts 1)).

(** The delay computed from the two clock readings of [setAlarm]:
    [now] is the first [new Date()], [alarmTime0] the second one, before
    [setHours] is applied to it in the host's time zone [z]. *)
Definition timeToAlarm (z : Js.Zone) (now alarmTime0 : Z)
           (timeValue : string) : Js.Num :=
  let (hours, minutes) := parseTimeValue timeValue in
  let alarmTime := Js.setHours z alarmTime0 hours minutes in
  let timeToAlarm := Js.sub alarmTime (Some now) in
  if Js.ltZero timeToAlarm then Js.add timeToAlarm (Some Js.msPerDay)
  else timeToAlarm.

#[global] Arguments timeToAlarm : simpl never.

Definition setAlarm (now alarmTime0 : Z) (w : World) : World :=
  match dom w alarmTimeInput, dom w alarmStatusEl with
  | Some input, Some _ =>
      let timeValue := Dom.value input in
      if String.eqb timeValue "" then
        St.update alarmStatusEl
          (Dom.set_textContent (Dom.Lit "Please select a valid time.")) w
      else
        let timeToAlarm :=
          timeToAlarm (zone (host (platform w))) now alarmTime0 timeValue in
        let alarmDateTime := Js.add (Some now) timeToAlarm in
        let (id, w) := St.setTimeout cb_triggerAlarm timeToAlarm w in
        let w := St.set_alarmTimeoutId (Some id) w in
        let w :=
          St.update alarmStatusEl
            (Dom.set_textContent (Dom.AlarmSetFor alarmDateTime)) w in
        let w := St.update setAlarmBtn (Dom.set_disabled true) w in
        let w := St.update clearAlarmBtn (Dom.set_disabled false) w in
        St.update alarmTimeInput (Dom.set_disabled true) w
  | _, _ => w
  end.

Definition clearAlarm (w : World) : World :=
  match dom w alarmSound, dom w alarmStatusEl, dom w setAlarmBtn,
        dom w clearAlarmBtn, dom w alarmTimeInput with
  | Some _, Some _, Some _, Some _, Some _ =>
      let w :=
        if St.truthy (alarmTimeoutId (vars w)) then
          let w := St.clearTimer (alarmTimeoutId (vars w)) w in
          St.set_alarmTimeoutId None w
        else w in
      let w := St.update alarmSound Dom.pause w in
      let w := St.update alarmSound (Dom.set_currentTime 0) w in
      let w := St.update alarmSound (Dom.set_loop false) w in
      let w :=
        St.update alarmStatusEl
          (Dom.set_textContent (Dom.Lit "Alarm cleared.")) w in
      let (_, w) := St.setTimeout cb_expireClearedMessage (Some 2000) w in
      let w := St.update setAlarmBtn (Dom.set_disabled false) w in
      let w := St.update clearAlarmBtn (Dom.set_disabled true) w in
      let w :=
        St.update clearAlarmBtn
          (Dom.set_textContent (Dom.Lit "Clear Alarm")) w in
      let w := St.update alarmTimeInput (Dom.set_disabled false) w in
      let w := St.update alarmTimeInput (Dom.set_value "") w in
      St.update (view alarm) (Dom.classList_remove "alarming") w
  | _, _, _, _, _ => w
  end.

(** The arrow function [clearAlarm] schedules: the confirmation message
    clears itself unless something else was written meanwhile. *)
Definition expireClearedMessage (w : World) : World :=
  match dom w alarmStatusEl with
  | Some e =>
      if Dom.Text_eqb (Dom.textContent e) (Dom.Lit "Alarm cleared.") then
        St.update alarmStatusEl (Dom.set_textContent (Dom.Lit "")) w
      else w
  | None => w
  end.

(** The listeners are attached only when the five elements exist. *)
Definition wired (w : World) : bool :=
  St.present setAlarmBtn w && St.present clearAlarmBtn w
  && St.present alarmTimeInput w && St.present alarmStatusEl w
  && St.present alarmSound w.

End Alarm.

(* ===================================================================== *)
(** ** Countdown timer ([startTimer], [pauseTimer], [resetTimer], [tick]) *)
(* ===================================================================== *)

Module Timer.

(** [input.value]; the handlers run only when the input exists. *)
Definition valueOf (id : ElemId) (w : World) : string :=
  match dom w id with Some e => Dom.value e | None => "" end.

Definition updateTimerDisplay (w : World) : World :=
  let minutes := secondsRemaining (vars w) / 60 in
  let seconds := Z.rem (secondsRemaining (vars w)) 60 in
  St.update timerDisplay
    (Dom.set_textContent
       (Dom.Lit (Js.padStart (Js.toString minutes) 2 "0" ++ ":" ++
                 Js.padStart (Js.toString seconds) 2 "0"))) w.

(** [minutes * 60 + seconds] as [startTimer] computes it from the two
    input fields. *)
Definition totalSeconds (minutesValue secondsValue : string) : Z :=
  let minutes := Js.or0 (Js.parseInt minutesValue) in
  let seconds := Js.or0 (Js.parseInt secondsValue) in
  (minutes * 60) + seconds.

Definition startTimer (w : World) : World :=
  let totalSeconds :=
    totalSeconds (valueOf minutesInput w) (valueOf secondsInput w) in
  if totalSeconds <=? 0 then w
  else
    let w := St.set_secondsRemaining totalSeconds w in
    let w := updateTimerDisplay w in
    let (id, w) := St.setInterval cb_tick (Some 1000) w in
    let w := St.set_timerIntervalId (Some id) w in
    let w := St.set_isPaused false w in
    let w := St.update startTimerBtn (Dom.set_disabled true) w in
    let w := St.update pauseTimerBtn (Dom.set_disabled false) w in
    let w :=
      St.update pauseTimerBtn (Dom.set_textContent (Dom.Lit "Pause")) w in
    let w := St.update resetTimerBtn (Dom.set_disabled false) w in
    let w := St.update minutesInput (Dom.set_disabled true) w in
    St.update secondsInput (Dom.set_disabled true) w.

Definition pauseTimer (w : World) : World :=
  if isPaused (vars w) then
    (* Resume *)
    let (id, w) := St.setInterval cb_tick (Some 1000) w in
    let w := St.set_timerIntervalId (Some id) w in
    let w := St.set_isPaused false w in
    St.update pauseTimerBtn (Dom.set_textContent (Dom.Lit "Pause")) w
  else
    (* Pause *)
    let w := St.clearTimer (timerIntervalId (vars w)) w in
    let w := St.set_isPaused true w in
    St.update pauseTimerBtn (Dom.set_textContent (Dom.Lit "Resume")) w.

Definition resetTimer (w : World) : World :=
  let w := St.clearTimer (timerIntervalId (vars w)) w in
  let w := St.set_timerIntervalId None w in
  let w := St.set_secondsRemaining 0 w in
  let w := St.set_isPaused false w in
  let w := updateTimerDisplay w in
  let w := St.update timerSound Dom.pause w in
  let w := St.update timerSound (Dom.set_currentTime 0) w in
  let w := St.update (view timer) (Dom.classList_remove "timer-finished") w in
  let w := St.update startTimerBtn (Dom.set_disabled false) w in
  let w := St.update pauseTimerBtn (Dom.set_disabled true) w in
  let w :=
    St.update pauseTimerBtn (Dom.set_textContent (Dom.Lit "Pause")) w in
  let w := St.update resetTimerBtn (Dom.set_disabled true) w in
  let w := St.update minutesInput (Dom.set_disabled false) w in
  let w := St.update secondsInput (Dom.set_disabled false) w in
  let w := St.update minutesInput (Dom.set_value "") w in
  St.update secondsInput (Dom.set_value "") w.

Definition tick (w : World) : World :=
  let w := St.set_secondsRemaining (secondsRemaining (vars w) - 1) w in
  let w := updateTimerDisplay w in
  if secondsRemaining (vars w) <=? 0 then
    let w := St.clearTimer (timerIntervalId (vars w)) w in
    let w := St.update timerSound (Dom.set_loop true) w in
    let w :=
      St.update timerSound (Dom.play (autoplayAllowed (platform w))) w in
    St.update (view timer) (Dom.classList_add "timer-finished") w
  else w.

(** The listeners are attached only when the seven elements exist. *)
Definition wired (w : World) : bool :=
  St.present timerDisplay w && St.present minutesInput w
  && St.present secondsInput w && St.present startTimerBtn w
  && St.present pauseTimerBtn w && St.present resetTimerBtn w
  && St.present timerSound w.

(** Whether the periodic tick is pending. *)
Definition ticking (w : World) : bool :=
  match Timers.pendingOf cb_tick (sched w) with
  | [] => false
  | _ :: _ => true
  end.

(** The "finished" visual flag of the panel. *)
Definition finishedFlag (w : World) : bool :=
  match dom w (view timer) with
  | Some e => Dom.contains "timer-finished" (Dom.classList e)
  | None => false
  end.

End Timer.

(* ===================================================================== *)
(** ** Stopwatch ([formatTime], the two click handlers)                  *)
(* ===================================================================== *)

Module Stopwatch.

Record Formatted : Type := {
  hours : string;
  minutes : string;
  seconds : string;
  milliseconds : string
}.

Definition formatTime (timeInMs : Z) : Formatted :=
  let totalSeconds := timeInMs / 1000 in
  let milliseconds :=
    Js.padStart (Js.toString (Z.rem timeInMs 1000 / 10)) 2 "0" in
  let seconds := Js.padStart (Js.toString (Z.rem totalSeconds 60)) 2 "0" in
  let minutes :=
    Js.padStart (Js.toString (Z.rem (totalSeconds / 60) 60)) 2 "0" in
  let hours := Js.padStart (Js.toString (totalSeconds / 3600)) 2 "0" in
  {| hours := hours; minutes := minutes; seconds := seconds;
     milliseconds := milliseconds |}.

(** [currentTime] is the value of [Date.now()] when the display is
    refreshed.  The text node of the display is the element's
    [textContent]; the centiseconds go to the inner span when it exists. *)
Definition updateStopwatchDisplay (currentTime : Z) (w : World) : World :=
  let currentElapsedTime :=
    elapsedTime (vars w)
    + (if isRunning (vars w) then currentTime - startTime (vars w) else 0) in
  let formatted := formatTime currentElapsedTime in
  let w :=
    St.update stopwatchDisplay
      (Dom.set_textContent
         (Dom.Lit (hours formatted ++ ":" ++ minutes formatted ++ ":" ++
                   seconds formatted))) w in
  St.update stopwatchMillisecondsEl
    (Dom.set_textContent (Dom.Lit ("." ++ milliseconds formatted))) w.

Definition handlePrimaryClick (now : Z) (w : World) : World :=
  let w := St.set_isRunning (negb (isRunning (vars w))) w in
  if isRunning (vars w) then
    (* Start *)
    let w := St.set_startTime now w in
    let (id, w) := St.setInterval cb_updateStopwatchDisplay (Some 10) w in
    let w := St.set_stopwatchIntervalId (Some id) w in
    let w := St.update primaryBtn (Dom.set_textContent (Dom.Lit "Stop")) w in
    let w := St.update primaryBtn (Dom.classList_add "running") w in
    let w :=
      St.update secondaryBtn (Dom.set_textContent (Dom.Lit "Lap")) w in
    St.update secondaryBtn (Dom.set_disabled false) w
  else
    (* Stop *)
    let w := St.clearTimer (stopwatchIntervalId (vars w)) w in
    let w :=
      St.set_elapsedTime (elapsedTime (vars w) + (now - startTime (vars w)))
                         w in
    let w :=
      St.update primaryBtn (Dom.set_textContent (Dom.Lit "Start")) w in
    let w := St.update primaryBtn (Dom.classList_remove "running") w in
    St.update secondaryBtn (Dom.set_textContent (Dom.Lit "Reset")) w.

(** The [innerHTML] of the [li] a lap adds. *)
Definition lapHtml (lapCounter : Z) (formatted : Formatted) : string :=
  "<span>Lap " ++ Js.toString lapCounter ++ "</span><span>" ++
  hours formatted ++ ":" ++ minutes formatted ++ ":" ++
  seconds formatted ++ "." ++ milliseconds formatted ++ "</span>".

Definition handleSecondaryClick (now : Z) (w : World) : World :=
  if isRunning (vars w) then
    (* Lap *)
    let lapTime := elapsedTime (vars w) + (now - startTime (vars w)) in
    let formatted := formatTime lapTime in
    let li := lapHtml (lapCounter (vars w)) formatted in
    let w :=
      St.update lapsList
        (fun e => Dom.set_children (li :: Dom.children e) e) w in
    St.set_lapCounter (lapCounter (vars w) + 1) w
  else
    (* Reset *)
    let w := St.set_elapsedTime 0 w in
    let w := St.set_startTime 0 w in
    let w := St.set_lapCounter 1 w in
    let w := St.update lapsList (Dom.set_children []) w in
    let w := updateStopwatchDisplay now w in
    St.update secondaryBtn (Dom.set_disabled true) w.

(** The listeners are attached only when the four elements exist. *)
Definition wired (w : World) : bool :=
  St.present stopwatchDisplay w && St.present primaryBtn w
  && St.present secondaryBtn w && St.present lapsList w.

End Stopwatch.

(* ===================================================================== *)
(** ** Weather ([getWeather], [fetchWeather], the observer callback)    *)
(* ===================================================================== *)

Module Weather.

(** The part of the response body the page shows. *)
Record Data : Type := {
  name : string;
  temp : Q;
  description : string;
  icon : string
}.

(** A body that lacks a part [updateWeatherUI] reads through: [weather]
    or its first entry, [main], or everything (the body is [null]). *)
Inductive Lacking : Type :=
| NoWeather (name : string) (temp : Q)
| NoMain (name : string)
| NoBody.

(** How the request of [fetchWeather] settles: with an [ok] response whose
    body has the documented shape, with an [ok] response whose body lacks a
    part, with a response that is not [ok], or with the rejection of the
    request or of the reading of its body (an [Error] with that
    message). *)
Inductive Response : Type :=
| Ok (data : Data)
| OkLacking (lacking : Lacking)
| NotOk (status : Z)
| Rejected (message : string).

(** The [data] handed to [updateWeatherUI]. *)
Inductive Body : Type :=
| Whole (data : Data)
| Lacks (lacking : Lacking).

(** [data.name], [data.main.temp] and [data.weather[0]] (its description
    and icon); [None] where the read throws. *)
Definition nameOf (data : Body) : option string :=
  match data with
  | Whole d => Some (name d)
  | Lacks (NoWeather n _) | Lacks (NoMain n) => Some n
  | Lacks NoBody => None
  end.

Definition tempOf (data : Body) : option Q :=
  match data with
  | Whole d => Some (temp d)
  | Lacks (NoWeather _ t) => Some t
  | Lacks (NoMain _) | Lacks NoBody => None
  end.

Definition firstWeatherOf (data : Body) : option (string * string) :=
  match data with
  | Whole d => Some (description d, icon d)
  | Lacks _ => None
  end.

Definition degreesC : string :=
  String (ascii_of_nat 194) (String (ascii_of_nat 176) "C").

(** Each assignment evaluates its right-hand side, then writes through the
    element reference. *)
Definition updateWeatherUI (data : Body) (w : World) : Outcome :=
  Try.reading (nameOf data) "name" (fun name =>
  Try.writing weatherCityEl "textContent"
    (Dom.set_textContent (Dom.Lit name)) (
  Try.reading (tempOf data) "main.temp" (fun temp =>
  Try.writing weatherTempEl "textContent"
    (Dom.set_textContent
       (Dom.Lit (Js.toString (Js.round temp) ++ degreesC))) (
  Try.reading (firstWeatherOf data) "weather[0].description" (fun first =>
  Try.writing weatherDescEl "textContent"
    (Dom.set_textContent (Dom.Lit (fst first))) (
  Try.writing weatherIconEl "src"
    (Dom.setAttribute "src"
       (Dom.Lit ("https://openweathermap.org/img/wn/" ++ snd first ++
                 "@2x.png"))) (
  Try.writing weatherIconEl "alt"
    (Dom.setAttribute "alt" (Dom.Lit (fst first))) (
  Try.writing weatherStatusEl "classList" (Dom.classList_add "hidden") (
  Try.writing weatherCardEl "classList" (Dom.classList_remove "hidden")
    Completed))))))))) w.

(** The outbound request: one more entry in the log, one more answer
    awaited. *)
Definition fetch (lat lon : Q) (w : World) : World :=
  St.with_platform
    {| host := host (platform w);
       autoplayAllowed := autoplayAllowed (platform w);
       geolocationSupported := geolocationSupported (platform w);
       geoRequests := geoRequests (platform w);
       geoPending := geoPending (platform w);
       fetches := (fetches (platform w) ++ [(lat, lon)])%list;
       fetchPending := S (fetchPending (platform w)) |} w.

(** [navigator.geolocation.getCurrentPosition(success, error)]. *)
Definition getCurrentPosition (w : World) : World :=
  St.with_platform
    {| host := host (platform w);
       autoplayAllowed := autoplayAllowed (platform w);
       geolocationSupported := geolocationSupported (platform w);
       geoRequests := S (geoRequests (platform w));
       geoPending := S (geoPending (platform w));
       fetches := fetches (platform w);
       fetchPending := fetchPending (platform w) |} w.

(** [fetchWeather] up to its first [await]: the page as the three writes
    and the request leave it.  A write that throws rejects the promise the
    function returns, which nobody awaits; the request is then not made. *)
Definition fetchWeather (lat lon : Q) (w : World) : World :=
  Try.worldOf
    (Try.writing weatherStatusEl "textContent"
       (Dom.set_textContent (Dom.Lit "Loading weather...")) (
     Try.writing weatherStatusEl "classList"
       (Dom.classList_remove "hidden") (
     Try.writing weatherCardEl "classList" (Dom.classList_add "hidden") (
     fun w => Completed (fetch lat lon w)))) w).

(** The [catch] clause of [fetchWeather], for an [Error] with the given
    message. *)
Definition catchClause (message : string) (w : World) : World :=
  St.update weatherStatusEl
    (Dom.set_textContent (Dom.Lit ("Error: " ++ message ++ "."))) w.

(** The rest of the [try] body once the body of the response is read: the
    card is filled in and the panel marked, unless [updateWeatherUI]
    throws, which takes the [catch] clause with the engine's message. *)
Definition render (data : Body) (w : World) : World :=
  match updateWeatherUI data w with
  | Completed w =>
      St.update weatherView
        (Dom.setAttribute "data-loaded" (Dom.Lit "true")) w
  | Thrown fault w =>
      catchClause (typeErrorMessage (host (platform w)) fault) w
  end.

(** [fetchWeather] from the point where the request has settled. *)
Definition fetchWeatherSettled (r : Response) (w : World) : World :=
  match r with
  | Ok data => render (Whole data) w
  | OkLacking lacking => render (Lacks lacking) w
  | NotOk status =>
      catchClause
        ("Weather data not available (HTTP " ++ Js.toString status ++ ")") w
  | Rejected message => catchClause message w
  end.

(** [weatherView.getAttribute('data-loaded') === 'true']. *)
Definition loaded (w : World) : bool :=
  match dom w weatherView with
  | Some e =>
      match Dom.getAttribute "data-loaded" e with
      | Some t => Dom.Text_eqb t (Dom.Lit "true")
      | None => false
      end
  | None => false
  end.

Definition getWeather (w : World) : Outcome :=
  if negb (St.present weatherView w) || loaded w then
    Completed w (* Don't fetch if already loaded *)
  else if geolocationSupported (platform w) then
    Try.writing weatherStatusEl "textContent"
      (Dom.set_textContent (Dom.Lit "Requesting location...")) (
    fun w => Completed (getCurrentPosition w)) w
  else
    Try.writing weatherStatusEl "textContent"
      (Dom.set_textContent
         (Dom.Lit "Geolocation is not supported by your browser."))
      Completed w.

(** The two callbacks handed to [getCurrentPosition]. *)
Definition onPosition (latitude longitude : Q) (w : World) : World :=
  fetchWeather latitude longitude w.

Definition onPositionError (message : string) (w : World) : World :=
  St.update weatherStatusEl
    (Dom.set_textContent
       (Dom.Lit ("Error: " ++ message ++
                 ". Please enable location services."))) w.

(** The [IntersectionObserver] callback; [entries] holds the
    [isIntersecting] flag of each entry.  [forEach] stops at the first
    call that throws. *)
Fixpoint observerCallback (entries : list bool) (w : World) : Outcome :=
  match entries with
  | [] => Completed w
  | isIntersecting :: rest =>
      if isIntersecting then
        match getWeather w with
        | Completed w => observerCallback rest w
        | Thrown fault w => Thrown fault w
        end
      else observerCallback rest w
  end.

(** The elements [updateWeatherUI] writes through all exist. *)
Definition cardComplete (w : World) : bool :=
  St.present weatherCityEl w && St.present weatherTempEl w
  && St.present weatherDescEl w && St.present weatherIconEl w
  && St.present weatherStatusEl w && St.present weatherCardEl w.

End Weather.

(* ===================================================================== *)
(** ** The event loop                                                    *)
(* ===================================================================== *)

(** What the host can deliver to the page. *)
Inductive Event : Type :=
| Click (target : ElemId)
| OrientationChange (orientation : string)
| TimerFires (h : Z)
| Intersection (entries : list bool)
| Position (latitude longitude : Q)
| PositionError (message : string)
| FetchSettled (r : Weather.Response).

Module Loop.

(** A click reaches a listener only when the target exists and is not
    disabled. *)
Definition clickable (id : ElemId) (w : World) : bool :=
  match dom w id with
  | Some e => negb (Dom.disabled e)
  | None => false
  end.

(** [now] and [later] are the two successive clock readings the turn may
    take. *)
Definition click (now later : Z) (target : ElemId) (w : World) : World :=
  if negb (clickable target w) then w
  else
    match target with
    | setAlarmBtn =>
        if Alarm.wired w then Alarm.setAlarm now later w else w
    | clearAlarmBtn => if Alarm.wired w then Alarm.clearAlarm w else w
    | startTimerBtn => if Timer.wired w then Timer.startTimer w else w
    | pauseTimerBtn => if Timer.wired w then Timer.pauseTimer w else w
    | resetTimerBtn => if Timer.wired w then Timer.resetTimer w else w
    | primaryBtn =>
        if Stopwatch.wired w then Stopwatch.handlePrimaryClick now w else w
    | secondaryBtn =>
        if Stopwatch.wired w then Stopwatch.handleSecondaryClick now w
        else w
    | _ => w
    end.

Definition run (now : Z) (cb : Callback) (w : World) : World :=
  match cb with
  | cb_triggerAlarm => Alarm.triggerAlarm w
  | cb_expireClearedMessage => Alarm.expireClearedMessage w
  | cb_tick => Timer.tick w
  | cb_updateStopwatchDisplay => Stopwatch.updateStopwatchDisplay now w
  end.

(** A pending callback fires; a one-shot is dropped from the table before
    it runs, a handle that is not pending fires nothing. *)
Definition fire (now : Z) (h : Z) (w : World) : World :=
  match Timers.find h (sched w) with
  | Some p =>
      let w := if repeating p then w else St.clearTimer (Some h) w in
      run now (callback p) w
  | None => w
  end.

Definition answerGeo (w : World) : World :=
  St.with_platform
    {| host := host (platform w);
       autoplayAllowed := autoplayAllowed (platform w);
       geolocationSupported := geolocationSupported (platform w);
       geoRequests := geoRequests (platform w);
       geoPending := pred (geoPending (platform w));
       fetches := fetches (platform w);
       fetchPending := fetchPending (platform w) |} w.

Definition answerFetch (w : World) : World :=
  St.with_platform
    {| host := host (platform w);
       autoplayAllowed := autoplayAllowed (platform w);
       geolocationSupported := geolocationSupported (platform w);
       geoRequests := geoRequests (platform w);
       geoPending := geoPending (platform w);
       fetches := fetches (platform w);
       fetchPending := pred (fetchPending (platform w)) |} w.

(** One turn of the event loop.  An answer is delivered only to a request
    that is awaiting one; the observer exists only when [weatherView]
    does. *)
Definition dispatch (now later : Z) (e : Event) (w : World) : World :=
  match e with
  | Click target => click now later target w
  | OrientationChange orientation =>
      Router.handleOrientationChange orientation w
  | TimerFires h => fire now h w
  | Intersection entries =>
      if St.present weatherView w then
        Try.worldOf (Weather.observerCallback entries w)
      else w
  | Position latitude longitude =>
      match geoPending (platform w) with
      | O => w
      | S _ => Weather.onPosition latitude longitude (answerGeo w)
      end
  | PositionError message =>
      match geoPending (platform w) with
      | O => w
      | S _ => Weather.onPositionError message (answerGeo w)
      end
  | FetchSettled r =>
      match fetchPending (platform w) with
      | O => w
      | S _ => Weather.fetchWeatherSettled r (answerFetch w)
      end
  end.

(** A run of the page: the events in order, each with its clock
    reading. *)
Definition runEvents (es : list (Z * Event)) (w : World) : World :=
  fold_left (fun (w : World) (te : Z * Event) =>
               dispatch (fst te) (fst te) (snd te) w) es w.

End Loop.


(* ===================================================================== *)
(** ** The behaviour the specification describes, in its own words       *)
(* ===================================================================== *)

Module Spec.

(** The mapping table of the view router. *)
Definition panelFor (orientation : string) : ViewKey :=
  if String.eqb orientation "portrait-primary" then alarm
  else if String.eqb orientation "portrait-secondary" then timer
  else if String.eqb orientation "landscape-secondary" then stopwatch
  else if String.eqb orientation "landscape-primary" then weather
  else alarm.

(** A number written in decimal and zero-padded to two digits. *)
Definition twoDigits (n : Z) : string :=
  if n <? 10 then "0" ++ Js.toString n else Js.toString n.

(** The four fields of a formatted duration of [ms] milliseconds. *)
Definition formatted (ms : Z) : Stopwatch.Formatted :=
  let totalSeconds := ms / 1000 in
  {| Stopwatch.hours := twoDigits (totalSeconds / 3600);
     Stopwatch.minutes := twoDigits ((totalSeconds / 60) mod 60);
     Stopwatch.seconds := twoDigits (totalSeconds mod 60);
     Stopwatch.milliseconds := twoDigits ((ms mod 1000) / 10) |}.


End Spec.

(* ===================================================================== *)
(** ** A concrete page                                                   *)
(* ===================================================================== *)

Module Sample.

Definition blank : Dom.Element :=
  {| Dom.classList := []; Dom.attributes := []; Dom.textContent := Dom.Lit "";
     Dom.value := ""; Dom.disabled := false; Dom.paused := true;
     Dom.currentTime := 0; Dom.loop := false; Dom.children := [] |}.

(** A zone whose offset never changes: [offset] milliseconds ahead of
    UTC. *)
Definition fixedZone (offset : Z) : Js.Zone :=
  {| Js.offsetAt := fun _ => offset; Js.offsetOf := fun _ => offset |}.


(** How one engine words its [TypeError]s. *)
Definition engineMessage (fault : Fault) : string :=
  match fault with
  | NullElement _ property =>
      "Cannot access property '" ++ property ++ "' of null"
  | MissingPart path => "Cannot read '" ++ path ++ "' of undefined"
  end.

(** A page as it may load (the markup is not among the sources): every
    element exists, the controls that have nothing to act on yet are
    disabled, nothing is pending, and the closure's variables hold their
    initial values.  The host keeps UTC. *)
Definition page : World :=
  {| dom := fun id =>
       match id with
       | clearAlarmBtn | pauseTimerBtn | resetTimerBtn | secondaryBtn =>
           Some (Dom.set_disabled true blank)
       | _ => Some blank
       end;
     sched := {| nextHandle := 1; pendings := [] |};
     platform := {| host := {| zone := fixedZone 0;
                               typeErrorMessage := engineMessage |};
                    autoplayAllowed := true; geolocationSupported := true;
                    geoRequests := 0; geoPending := 0;
                    fetches := []; fetchPending := 0 |};
     vars := {| alarmTimeoutId := None; timerIntervalId := None;
                secondsRemaining := 0; isPaused := false;
                stopwatchIntervalId := None; startTime := 0;
                elapsedTime := 0; isRunning := false; lapCounter := 1 |} |}.

(** The same page after the user has typed into an input. *)
Definition typed (id : ElemId) (text : string) (w : World) : World :=
  St.update id (Dom.set_value text) w.

(** The page with "1" and "30" typed into the timer's fields. *)
Definition page130 : World :=
  typed minutesInput "1" (typed secondsInput "30" page).

(** The page after one full alarm cycle (set for 07:30 at 07:00, rung,
    stopped, confirmation message expired), with a new time typed in: the
    alarm is Idle again. *)
Definition idleAgain : World :=
  typed alarmTimeInput "06:45"
    (Loop.runEvents
       [(25200000, Click setAlarmBtn); (27000000, TimerFires 1);
        (27005000, Click clearAlarmBtn); (27007000, TimerFires 2)]
       (typed alarmTimeInput "07:30" page)).

(** The same cycle stopped while the alarm is armed, and while it rings. *)
Definition armed : World :=
  Loop.runEvents [(25200000, Click setAlarmBtn)]
                 (typed alarmTimeInput "07:30" page).

Definition ringing : World :=
  Loop.runEvents [(27000000, TimerFires 1)] armed.

(** The timer after [resetTimer] (Idle), and after a 90-second countdown
    has run to its end (Finished). *)
Definition timerIdle : World := Timer.resetTimer page.

Definition timerFinished : World :=
  Nat.iter 90 (Loop.fire 0 1) (Timer.startTimer page130).


(** The page with "07:30" typed into the alarm's time input. *)
Definition page0730 : World := typed alarmTimeInput "07:30" page.


(** The same page without one of its elements. *)
Definition without (id : ElemId) (w : World) : World :=
  St.with_dom (fun d k => if ElemId_beq k id then None else d k) w.

End Sample.


(* ===================================================================== *)
(** ** States and inputs the properties speak about                      *)
(* ===================================================================== *)

(** A time-of-day input the alarm can be set from: not empty, and its two
    fields parse to an hour and a minute of the day. *)
Definition timeOfDay (timeValue : string) (h m : Z) : Prop :=
  timeValue <> ""
  /\ Alarm.parseTimeValue timeValue = (Some h, Some m)
  /\ 0 <= h < 24 /\ 0 <= m < 60.





(** Below one hundred the padded text has exactly two characters, and they
    read back as the number. *)
Definition twoDigitsExact (k : nat) : bool :=
  (String.length (Spec.twoDigits (Z.of_nat k)) =? 2)%nat
  && match Js.parseInt (Spec.twoDigits (Z.of_nat k)) with
     | Some v => v =? Z.of_nat k
     | None => false
     end.

(** Handles are handed out in increasing order, so every pending handle is
    below the next one. *)
Definition freshHandles (s : Sched) : Prop :=
  Forall (fun p => handle p < nextHandle s) (pendings s).

(** The table entry of the periodic tick. *)
Definition tickEntry (h : Z) : Pending :=
  {| handle := h; callback := cb_tick; delay := Some 1000;
     repeating := true |}.


(** The terminal sub-state of the countdown: nothing remains, the periodic
    tick is cancelled, the tone loops and the panel carries the flag. *)
Definition finished (h : Z) (w : World) : Prop :=
  secondsRemaining (vars w) = 0
  /\ Timers.isPending h (sched w) = false
  /\ Timer.finishedFlag w = true
  /\ option_map Dom.loop (dom w timerSound) = Some true.

(** Below ten, padding the decimal text to two places is prefixing one
    zero. *)
Definition padsLikeTwoDigits (k : nat) : bool :=
  String.eqb (Js.padStart (Js.toString (Z.of_nat k)) 2 "0")
             (Spec.twoDigits (Z.of_nat k)).

(** What a given event does to the stopwatch's secondary control, in the
    state it arrives in: the click records a lap while the stopwatch runs
    and resets it while stopped; a click that does not reach the handler,
    and any other event, is not a use of the control. *)
Inductive SecondaryUse : Type := Lap | Reset | NotSecondary.

Definition secondaryUse (e : Event) (w : World) : SecondaryUse :=
  match e with
  | Click secondaryBtn =>
      if Loop.clickable secondaryBtn w && Stopwatch.wired w then
        if isRunning (vars w) then Lap else Reset
      else NotSecondary
  | _ => NotSecondary
  end.

(** The laps and the resets of a run of the page. *)
Fixpoint tally (es : list (Z * Event)) (w : World) : nat * nat :=
  match es with
  | [] => (O, O)
  | (t, e) :: es' =>
      let (laps, resets) := tally es' (Loop.dispatch t t e w) in
      match secondaryUse e w with
      | Lap => (S laps, resets)
      | Reset => (laps, S resets)
      | NotSecondary => (laps, resets)
      end
  end.

(** The alarm as an observer of the panel sees it: the handle variable,
    the pending [triggerAlarm] callbacks, and the six elements with all
    their properties (audio position and loop flag, enablement, labels,
    input value, the [alarming] class, the status text). *)
Definition alarmState (w : World) :=
  (alarmTimeoutId (vars w),
   Timers.pendingOf cb_triggerAlarm (sched w),
   (dom w alarmSound, dom w setAlarmBtn, dom w clearAlarmBtn),
   (dom w alarmTimeInput, dom w (view alarm), dom w alarmStatusEl)).

(** The one-shot the handle variable refers to is the only [triggerAlarm]
    that can be pending, and handles are never 0. *)
Definition oneShotTracked (w : World) : Prop :=
  alarmTimeoutId (vars w) <> Some 0
  /\ Forall (fun p => alarmTimeoutId (vars w) = Some (handle p))
            (Timers.pendingOf cb_triggerAlarm (sched w)).

(** The "alarming" visual flag of the alarm panel. *)
Definition alarmingFlag (w : World) : bool :=
  match dom w (view alarm) with
  | Some e => Dom.contains "alarming" (Dom.classList e)
  | None => false
  end.

(** The Idle defaults of the alarm panel: nothing pending, the tone at
    rest, "set" and the input enabled, "clear" disabled under its default
    label, no [alarming] flag. *)
Definition alarmIdle (w : World) : Prop :=
  alarmTimeoutId (vars w) = None
  /\ Timers.pendingOf cb_triggerAlarm (sched w) = []
  /\ option_map (fun e => (Dom.paused e, Dom.currentTime e, Dom.loop e))
                (dom w alarmSound) = Some (true, 0, false)
  /\ option_map Dom.disabled (dom w setAlarmBtn) = Some false
  /\ option_map (fun e => (Dom.disabled e, Dom.textContent e))
                (dom w clearAlarmBtn) = Some (true, Dom.Lit "Clear Alarm")
  /\ option_map Dom.disabled (dom w alarmTimeInput) = Some false
  /\ alarmingFlag w = false.

(** The writes [clearAlarm] makes to each element. *)
Definition clearWrites (k : ElemId) (e : Dom.Element) : Dom.Element :=
  match k with
  | alarmSound => Dom.set_loop false (Dom.set_currentTime 0 (Dom.pause e))
  | alarmStatusEl => Dom.set_textContent (Dom.Lit "Alarm cleared.") e
  | setAlarmBtn => Dom.set_disabled false e
  | clearAlarmBtn =>
      Dom.set_textContent (Dom.Lit "Clear Alarm") (Dom.set_disabled true e)
  | alarmTimeInput => Dom.set_value "" (Dom.set_disabled false e)
  | view alarm => Dom.classList_remove "alarming" e
  | _ => e
  end.

(** The countdown is running on the periodic tick [h]. *)
Definition running (h : Z) (w : World) : Prop :=
  isPaused (vars w) = false
  /\ timerIntervalId (vars w) = Some h
  /\ Timers.find h (sched w) = Some (tickEntry h).

(** The label of the pause control. *)
Definition pauseLabel (w : World) : option Dom.Text :=
  option_map Dom.textContent (dom w pauseTimerBtn).


(** The number a sequence of decimal digits denotes when read after a
    prefix worth [acc]. *)
Fixpoint uintValue (d : Decimal.uint) (acc : Z) : Z :=
  match d with
  | Decimal.Nil => acc
  | Decimal.D0 l => uintValue l (10 * acc)
  | Decimal.D1 l => uintValue l (10 * acc + 1)
  | Decimal.D2 l => uintValue l (10 * acc + 2)
  | Decimal.D3 l => uintValue l (10 * acc + 3)
  | Decimal.D4 l => uintValue l (10 * acc + 4)
  | Decimal.D5 l => uintValue l (10 * acc + 5)
  | Decimal.D6 l => uintValue l (10 * acc + 6)
  | Decimal.D7 l => uintValue l (10 * acc + 7)
  | Decimal.D8 l => uintValue l (10 * acc + 8)
  | Decimal.D9 l => uintValue l (10 * acc + 9)
  end.

(** The text an [input type="time"] holds for hour [h] and minute [m]:
    ["HH:MM"], possibly followed by a colon and seconds. *)
Definition timeInputValue (h m : Z) : string :=
  Spec.twoDigits h ++ ":" ++ Spec.twoDigits m.

(** No colon occurs in the text. *)
Fixpoint noColon (s : string) : bool :=
  match s with
  | EmptyString => true
  | String c rest => negb (Ascii.eqb c ":") && noColon rest
  end.

Definition twoDigitsNoColon (k : nat) : bool :=
  noColon (Spec.twoDigits (Z.of_nat k)).

(** Two states of an element that differ at most in whether the class
    list contains [hidden] (and in the order of the classes): every other
    property is the same, and so is the membership of every other class. *)
Definition sameButHidden (before after : option Dom.Element) : Prop :=
  match before, after with
  | Some x, Some y =>
      Dom.attributes y = Dom.attributes x
      /\ Dom.textContent y = Dom.textContent x
      /\ Dom.value y = Dom.value x
      /\ Dom.disabled y = Dom.disabled x
      /\ Dom.paused y = Dom.paused x
      /\ Dom.currentTime y = Dom.currentTime x
      /\ Dom.loop y = Dom.loop x
      /\ Dom.children y = Dom.children x
      /\ forall c, c <> "hidden" ->
           Dom.contains c (Dom.classList y) = Dom.contains c (Dom.classList x)
  | None, None => True
  | _, _ => False
  end.

(** The table entry of the alarm's one-shot with delay [d]. *)
Definition alarmEntry (h : Z) (d : Js.Num) : Pending :=
  {| handle := h; callback := cb_triggerAlarm; delay := d;
     repeating := false |}.

(** The text of an element, when it exists. *)
Definition textOf (id : ElemId) (w : World) : option Dom.Text :=
  option_map Dom.textContent (dom w id).

(** Whether an element is disabled, when it exists. *)
Definition disabledOf (id : ElemId) (w : World) : option bool :=
  option_map Dom.disabled (dom w id).

(** The table entry of the stopwatch's display refresh. *)
Definition refreshEntry (h : Z) : Pending :=
  {| handle := h; callback := cb_updateStopwatchDisplay; delay := Some 10;
     repeating := true |}.

(** The recorded laps, newest first. *)
Definition lapsOf (w : World) : list string :=
  match dom w lapsList with
  | Some e => Dom.children e
  | None => []
  end.

(** A sequence of clicks on the secondary control, at the given instants. *)
Definition secondaryClicks (ts : list Z) (w : World) : World :=
  fold_left (fun (w : World) (t : Z) => Stopwatch.handleSecondaryClick t w)
            ts w.

(** An element is shown when it exists and does not carry the [hidden]
    class. *)
Definition shown (id : ElemId) (w : World) : bool :=
  match dom w id with
  | Some e => negb (Dom.contains "hidden" (Dom.classList e))
  | None => false
  end.

(** The bookkeeping of the weather requests: every weather request was
    issued on an answered position request, and no more answers are awaited
    than requests were made. *)
Definition accounted (w : World) : Prop :=
  (List.length (fetches (platform w)) + geoPending (platform w)
   <= geoRequests (platform w))%nat
  /\ (fetchPending (platform w) <= List.length (fetches (platform w)))%nat.

(** What one turn of the event loop preserves of the request bookkeeping. *)
Definition keepsAccount (w w' : World) : Prop :=
  (accounted w -> accounted w')
  /\ geolocationSupported (platform w') = geolocationSupported (platform w)
  /\ (geolocationSupported (platform w) = false ->
      geoRequests (platform w') = geoRequests (platform w))
  /\ (geoRequests (platform w) <= geoRequests (platform w'))%nat
  /\ (List.length (fetches (platform w))
      <= List.length (fetches (platform w')))%nat.

(** Whether a table entry is a callback of the given function. *)
Definition isCallback (cb : Callback) (p : Pending) : bool :=
  match callback p, cb with
  | cb_triggerAlarm, cb_triggerAlarm
  | cb_expireClearedMessage, cb_expireClearedMessage
  | cb_tick, cb_tick
  | cb_updateStopwatchDisplay, cb_updateStopwatchDisplay => true
  | _, _ => false
  end.

(** A list of pending callbacks that has only lost entries: an empty one
    stays empty and a single entry stays or goes. *)
Definition shrunk (before after : list Pending) : Prop :=
  (before = [] -> after = [])
  /\ (forall p, before = [p] -> after = [p] \/ after = []).

(** At most one alarm is armed: either no [triggerAlarm] is pending, or
    exactly one is, the handle variable refers to it, and the set control
    cannot be clicked.  Handles are positive. *)
Definition oneAlarm (w : World) : Prop :=
  0 < nextHandle (sched w)
  /\ (Timers.pendingOf cb_triggerAlarm (sched w) = []
      \/ exists p,
           Timers.pendingOf cb_triggerAlarm (sched w) = [p]
           /\ alarmTimeoutId (vars w) = Some (handle p)
           /\ handle p <> 0
           /\ Loop.clickable setAlarmBtn w = false).

(** The entries [clearTimeout(h)] leaves in the table. *)
Definition keeps (h : option Z) (p : Pending) : bool :=
  match h with
  | Some id => negb (handle p =? id)
  | None => true
  end.

(** At most one countdown is ticking: either no [tick] is pending, or
    exactly one is, the handle variable refers to it, the timer is not
    paused and the start control cannot be clicked.  While the start
    control can be clicked the pause control cannot, and the timer is not
    paused. *)
Definition oneTick (w : World) : Prop :=
  (Timers.pendingOf cb_tick (sched w) = []
   \/ exists p,
        Timers.pendingOf cb_tick (sched w) = [p]
        /\ timerIntervalId (vars w) = Some (handle p)
        /\ isPaused (vars w) = false
        /\ Loop.clickable startTimerBtn w = false)
  /\ (Loop.clickable startTimerBtn w = true ->
      isPaused (vars w) = false
      /\ Loop.clickable pauseTimerBtn w = false).

(** At most one display refresh is pending: either none is, or exactly
    one is, the handle variable refers to it and the stopwatch is
    running. *)
Definition oneRefresh (w : World) : Prop :=
  Timers.pendingOf cb_updateStopwatchDisplay (sched w) = []
  \/ exists p,
       Timers.pendingOf cb_updateStopwatchDisplay (sched w) = [p]
       /\ stopwatchIntervalId (vars w) = Some (handle p)
       /\ isRunning (vars w) = true.

(** The weather handlers leave the pending callbacks, the variables and
    the controls of the other panels alone. *)
Definition weatherLeaves (w w' : World) : Prop :=
  sched w' = sched w /\ vars w' = vars w
  /\ dom w' setAlarmBtn = dom w setAlarmBtn
  /\ dom w' startTimerBtn = dom w startTimerBtn
  /\ dom w' pauseTimerBtn = dom w pauseTimerBtn.

(* ===================================================================== *)
(** ** Theme toggle ([applyTheme], [toggleTheme], the start-up choice)    *)
(* ===================================================================== *)

Module Theme.

(** What the theme logic reads and writes beside the page: the class list
    of [document.body], the ['theme'] item of [localStorage] ([None] for
    [null]), and whether [window.matchMedia] exists and reports a dark
    colour scheme. *)
Record Shell : Type := {
  bodyClassList : list string;
  savedTheme : option string;
  prefersDark : bool;
  page : World
}.

Section Style.

(** [getComputedStyle(document.body).getPropertyValue('--bg-color').trim()]
    for a body with the given classes: the style sheet is the host's. *)
Variable bgColor : list string -> string.

Definition applyTheme (theme : string) (s : Shell) : Shell :=
  let classes :=
    if String.eqb theme "dark" then Dom.add "dark-mode" (bodyClassList s)
    else Dom.remove "dark-mode" (bodyClassList s) in
  let newBgColor := bgColor classes in
  {| bodyClassList := classes;
     savedTheme := savedTheme s;
     prefersDark := prefersDark s;
     page := St.update themeColorMeta
               (Dom.setAttribute "content" (Dom.Lit newBgColor))
               (page s) |}.

(** [localStorage.setItem('theme', x)]. *)
Definition setItem (x : string) (s : Shell) : Shell :=
  {| bodyClassList := bodyClassList s; savedTheme := Some x;
     prefersDark := prefersDark s; page := page s |}.

Definition toggleTheme (s : Shell) : Shell :=
  let currentTheme :=
    if Dom.contains "dark-mode" (bodyClassList s) then "dark"
    else "light" in
  let newTheme := if String.eqb currentTheme "dark" then "light"
                  else "dark" in
  applyTheme newTheme (setItem newTheme s).

(** The choice made when the document has loaded; an empty saved string
    is falsy. *)
Definition startup (s : Shell) : Shell :=
  match savedTheme s with
  | Some saved =>
      if negb (String.eqb saved "") then applyTheme saved s
      else if prefersDark s then applyTheme "dark" s
      else applyTheme "light" s
  | None =>
      if prefersDark s then applyTheme "dark" s
      else applyTheme "light" s
  end.

End Style.

(** Whether the body carries the dark theme. *)
Definition dark (s : Shell) : bool :=
  Dom.contains "dark-mode" (bodyClassList s).

(** The document loaded again: the markup's classes are back on the body
    and the page is the one the markup describes, the stored item and the
    host's preference are whatever they are by then. *)
Definition reloaded (markup : list string) (stored : option string)
           (preference : bool) (fresh : World) : Shell :=
  {| bodyClassList := markup; savedTheme := stored;
     prefersDark := preference; page := fresh |}.

(** The [content] attribute of the theme-colour meta element. *)
Definition metaContent (s : Shell) : option (option Dom.Text) :=
  option_map (Dom.getAttribute "content") (dom (page s) themeColorMeta).

End Theme.

(** ** Whose callback a handle names *)

(** A handle variable holds nothing or a handle that was given out. *)
Definition known (h : option Z) (s : Sched) : Prop :=
  match h with
  | Some id => id < nextHandle s
  | None => True
  end.

(** Whatever is pending under the handle a variable holds is a callback
    of [cb]. *)
Definition ownHandle (cb : Callback) (h : option Z) (s : Sched) : Prop :=
  forall p, In p (pendings s) -> h = Some (handle p) -> callback p = cb.

(** Handles are given out once, and each of the three handle variables
    names, if anything, a callback of its own panel. *)
Definition handlesOwned (w : World) : Prop :=
  NoDup (map handle (pendings (sched w)))
  /\ freshHandles (sched w)
  /\ known (alarmTimeoutId (vars w)) (sched w)
  /\ known (timerIntervalId (vars w)) (sched w)
  /\ known (stopwatchIntervalId (vars w)) (sched w)
  /\ ownHandle cb_triggerAlarm (alarmTimeoutId (vars w)) (sched w)
  /\ ownHandle cb_tick (timerIntervalId (vars w)) (sched w)
  /\ ownHandle cb_updateStopwatchDisplay (stopwatchIntervalId (vars w))
               (sched w).

(** The callbacks an event may register or cancel: those of the panel of
    the control that is clicked, and the function of the callback that
    fires. *)
Definition mayChange (e : Event) (w : World) (cb : Callback) : bool :=
  match e with
  | Click setAlarmBtn =>
      match cb with cb_triggerAlarm => true | _ => false end
  | Click clearAlarmBtn =>
      match cb with
      | cb_triggerAlarm | cb_expireClearedMessage => true
      | _ => false
      end
  | Click startTimerBtn | Click pauseTimerBtn | Click resetTimerBtn =>
      match cb with cb_tick => true | _ => false end
  | Click primaryBtn =>
      match cb with cb_updateStopwatchDisplay => true | _ => false end
  | TimerFires h =>
      match Timers.find h (sched w) with
      | Some p => isCallback cb p
      | None => false
      end
  | _ => false
  end.



(* ===================================================================== *)
(** * Properties                                                         *)
(* ===================================================================== *)

(** ** Class lists and element writes *)

Lemma contains_add (c : string) (l : list string) :
  Dom.contains c (Dom.add c l) = true.
Proof.
  unfold Dom.add. destruct (Dom.contains c l) eqn:E; [exact E|].
  unfold Dom.contains. rewrite existsb_app. simpl.
  rewrite String.eqb_refl. now rewrite orb_true_r.
Qed.

Lemma contains_remove (c : string) (l : list string) :
  Dom.contains c (Dom.remove c l) = false.
Proof.
  unfold Dom.contains, Dom.remove.
  induction l as [|x l IH]; simpl; [reflexivity|].
  destruct (String.eqb c x) eqn:E; simpl; [exact IH|].
  now rewrite E.
Qed.

Lemma remove_remove (c : string) (l : list string) :
  Dom.remove c (Dom.remove c l) = Dom.remove c l.
Proof.
  unfold Dom.remove.
  induction l as [|x l IH]; simpl; [reflexivity|].
  destruct (String.eqb c x) eqn:E; simpl; [exact IH|].
  rewrite E. simpl. now rewrite IH.
Qed.

(** Reading an element after a write through [St.update]. *)
Lemma dom_update (id k : ElemId) (f : Dom.Element -> Dom.Element) (w : World) :
  dom (St.update id f w) k =
  if ElemId_beq k id then option_map f (dom w k) else dom w k.
Proof. reflexivity. Qed.

Lemma ElemId_beq_refl (k : ElemId) : ElemId_beq k k = true.
Proof. destruct k as [v| | | | | | | | | | | | | | | | | | | | | | | |];
  [destruct v|..]; reflexivity. Qed.

(** ** View router *)

Lemma updateVisibleView_visible (k k' : ViewKey) (w : World) :
  (forall v, St.present (view v) w = true) ->
  Router.visible k' (Router.updateVisibleView (Some k) w) = ViewKey_beq k' k.
Proof.
  intros Hall.
  pose proof (Hall alarm) as Ha. pose proof (Hall timer) as Ht.
  pose proof (Hall stopwatch) as Hs. pose proof (Hall weather) as Hw.
  unfold St.present in Ha, Ht, Hs, Hw.
  destruct w as [d s p v]. cbn in Ha, Ht, Hs, Hw.
  destruct (d (view alarm)) as [ea|] eqn:Ea; [|discriminate].
  destruct (d (view timer)) as [et|] eqn:Et; [|discriminate].
  destruct (d (view stopwatch)) as [es|] eqn:Es; [|discriminate].
  destruct (d (view weather)) as [ew|] eqn:Ew; [|discriminate].
  unfold Router.visible, Router.updateVisibleView.
  destruct k, k'; cbn; rewrite ?Ea, ?Et, ?Es, ?Ew; cbn;
    rewrite ?Ea, ?Et, ?Es, ?Ew; cbn;
    rewrite ?contains_remove, ?contains_add; reflexivity.
Qed.

(** C1.  Whatever the orientation reading, and provided the four panels
    exist in the document, routing leaves exactly one panel without the
    [hidden] class: the one the mapping table gives (portrait-primary to
    alarm, portrait-secondary to timer, landscape-secondary to stopwatch,
    landscape-primary to weather, anything else to alarm); the other three
    are hidden. *)
Theorem routing_shows_exactly_the_mapped_panel
  (orientation : string) (w : World)
  (Hpanels : forall v, St.present (view v) w = true) :
  let w' := Router.handleOrientationChange orientation w in
  Router.visiblePanels w' = [Spec.panelFor orientation]
  /\ (forall k, Router.visible k w' = ViewKey_beq k (Spec.panelFor orientation))
  /\ Spec.panelFor "portrait-primary" = alarm
  /\ Spec.panelFor "portrait-secondary" = timer
  /\ Spec.panelFor "landscape-secondary" = stopwatch
  /\ Spec.panelFor "landscape-primary" = weather
  /\ (orientation <> "portrait-primary" ->
      orientation <> "portrait-secondary" ->
      orientation <> "landscape-secondary" ->
      orientation <> "landscape-primary" ->
      Spec.panelFor orientation = alarm).
Proof.
  assert (Hvis : forall k,
             Router.visible k (Router.handleOrientationChange orientation w)
             = ViewKey_beq k (Spec.panelFor orientation)).
  { intro k. unfold Router.handleOrientationChange, Spec.panelFor.
    repeat match goal with
           | |- context [String.eqb orientation ?s] =>
               destruct (String.eqb orientation s)
           end; apply updateVisibleView_visible; exact Hpanels. }
  cbv zeta. split; [|split; [exact Hvis|]].
  - unfold Router.visiblePanels, Router.keys. cbn [filter].
    rewrite !Hvis. destruct (Spec.panelFor orientation); reflexivity.
  - repeat split; try reflexivity.
    intros H1 H2 H3 H4. unfold Spec.panelFor.
    apply String.eqb_neq in H1, H2, H3, H4. now rewrite H1, H2, H3, H4.
Qed.

Lemma routing_shows_exactly_the_mapped_panel_witness :
  (forall v, St.present (view v) Sample.page = true)
  /\ Router.visiblePanels
       (Router.handleOrientationChange "landscape-secondary" Sample.page)
     = [stopwatch].
Proof.
  split.
  - intros []; reflexivity.
  - apply (routing_shows_exactly_the_mapped_panel
             "landscape-secondary" Sample.page).
    intros []; reflexivity.
Defined.

(** ** Decimal text and two-digit padding *)

Lemma toString_length_ge2 (n : Z) :
  10 <= n -> (2 <= String.length (Js.toString n))%nat.
Proof.
  intro Hn. unfold Js.toString.
  pose proof (DecimalZ.of_to n) as Hrt.
  destruct (Z.to_int n) as [u|u] eqn:E.
  - cbn [Z.of_int] in Hrt. cbn [NilZero.string_of_int].
    destruct u as [|u|u|u|u|u|u|u|u|u|u];
      try (exfalso; cbn in Hrt; lia);
      destruct u; try (exfalso; cbn in Hrt; lia); cbn; lia.
  - destruct n; cbn in E; try discriminate. lia.
Qed.

(** A boolean property checked on every number below a bound holds for
    each of them. *)
Lemma checked_below (P : nat -> bool) (bound : nat) (n : Z) :
  forallb P (seq 0 bound) = true ->
  0 <= n < Z.of_nat bound -> P (Z.to_nat n) = true.
Proof.
  intros Hall Hn. rewrite forallb_forall in Hall.
  apply Hall. apply in_seq. lia.
Qed.

Lemma twoDigits_exact (n : Z) :
  0 <= n < 100 ->
  String.length (Spec.twoDigits n) = 2%nat
  /\ Js.parseInt (Spec.twoDigits n) = Some n.
Proof.
  intro H.
  assert (Hn : twoDigitsExact (Z.to_nat n) = true)
    by (apply (checked_below twoDigitsExact 100);
        [vm_compute; reflexivity|lia]).
  unfold twoDigitsExact in Hn. rewrite Z2Nat.id in Hn by lia.
  apply andb_true_iff in Hn. destruct Hn as [Hlen Hval].
  apply Nat.eqb_eq in Hlen. split; [exact Hlen|].
  destruct (Js.parseInt (Spec.twoDigits n)) as [v|]; [|discriminate].
  apply Z.eqb_eq in Hval. now subst.
Qed.

Lemma padStart_small (n : Z) :
  0 <= n < 10 -> Js.padStart (Js.toString n) 2 "0" = Spec.twoDigits n.
Proof.
  intro H.
  assert (Hn : padsLikeTwoDigits (Z.to_nat n) = true)
    by (apply (checked_below padsLikeTwoDigits 10);
        [vm_compute; reflexivity|lia]).
  unfold padsLikeTwoDigits in Hn. rewrite Z2Nat.id in Hn by lia.
  now apply String.eqb_eq in Hn.
Qed.

Lemma padStart_twoDigits (n : Z) :
  0 <= n -> Js.padStart (Js.toString n) 2 "0" = Spec.twoDigits n.
Proof.
  intro H. destruct (Z.lt_ge_cases n 10) as [Hlt|Hge].
  - apply padStart_small. lia.
  - unfold Spec.twoDigits, Js.padStart.
    pose proof (toString_length_ge2 n Hge) as Hl.
    apply Nat.leb_le in Hl. rewrite Hl.
    apply Z.ltb_ge in Hge. now rewrite Hge.
Qed.

Lemma twoDigits_length_ge2 (n : Z) :
  0 <= n -> (2 <= String.length (Spec.twoDigits n))%nat.
Proof.
  intro H. destruct (Z.lt_ge_cases n 10) as [Hlt|Hge].
  - destruct (twoDigits_exact n) as [Hlen _]; lia.
  - unfold Spec.twoDigits. pose proof (toString_length_ge2 n Hge).
    apply Z.ltb_ge in Hge. now rewrite Hge.
Qed.

(** ** Stopwatch formatting *)

(** C5.  For a duration of [ms >= 0] milliseconds, [formatTime] yields
    hours = floor(totalSeconds/3600) with no cap at 24, minutes =
    floor(totalSeconds/60) mod 60, seconds = totalSeconds mod 60 and
    centiseconds = floor((ms mod 1000)/10), each written in decimal and
    zero-padded to two digits: minutes, seconds and centiseconds are exactly
    two characters, hours at least two.  3,661,234 ms gives "01", "01",
    "01", "23" (1234 ms truncates to 23 centiseconds), and 25 hours gives
    hours "25". *)
Theorem formatTime_fields (ms : Z) (Hms : 0 <= ms) :
  Stopwatch.formatTime ms = Spec.formatted ms
  /\ (2 <= String.length (Stopwatch.hours (Stopwatch.formatTime ms)))%nat
  /\ String.length (Stopwatch.minutes (Stopwatch.formatTime ms)) = 2%nat
  /\ String.length (Stopwatch.seconds (Stopwatch.formatTime ms)) = 2%nat
  /\ String.length (Stopwatch.milliseconds (Stopwatch.formatTime ms)) = 2%nat
  /\ Stopwatch.formatTime 3661234 =
     {| Stopwatch.hours := "01"; Stopwatch.minutes := "01";
        Stopwatch.seconds := "01"; Stopwatch.milliseconds := "23" |}
  /\ Stopwatch.hours (Stopwatch.formatTime (25 * 3600000)) = "25"
  /\ Stopwatch.hours (Stopwatch.formatTime (100 * 3600000)) = "100".
Proof.
  assert (Heq : Stopwatch.formatTime ms = Spec.formatted ms).
  { unfold Stopwatch.formatTime, Spec.formatted. cbv zeta.
    assert (H1 : 0 <= ms / 1000) by (apply Z.div_pos; lia).
    assert (H2 : 0 <= ms / 1000 / 60) by (apply Z.div_pos; lia).
    rewrite !Z.rem_mod_nonneg by lia.
    rewrite !padStart_twoDigits; try reflexivity.
    - apply Z.div_pos; [apply Z.mod_pos_bound|]; lia.
    - apply Z.mod_pos_bound; lia.
    - apply Z.mod_pos_bound; lia.
    - apply Z.div_pos; lia. }
  split; [exact Heq|]. rewrite Heq. unfold Spec.formatted. cbv zeta.
  cbn [Stopwatch.hours Stopwatch.minutes Stopwatch.seconds
       Stopwatch.milliseconds].
  assert (Hm : 0 <= (ms / 1000 / 60) mod 60 < 100)
    by (pose proof (Z.mod_pos_bound (ms / 1000 / 60) 60); lia).
  assert (Hs : 0 <= (ms / 1000) mod 60 < 100)
    by (pose proof (Z.mod_pos_bound (ms / 1000) 60); lia).
  assert (Hc : 0 <= ms mod 1000 / 10 < 100).
  { pose proof (Z.mod_pos_bound ms 1000).
    split; [apply Z.div_pos; lia|apply Z.div_lt_upper_bound; lia]. }
  repeat split.
  - apply twoDigits_length_ge2. apply Z.div_pos; [apply Z.div_pos|]; lia.
  - apply (twoDigits_exact _ Hm).
  - apply (twoDigits_exact _ Hs).
  - apply (twoDigits_exact _ Hc).
Qed.

Lemma formatTime_fields_witness :
  0 <= 5025670
  /\ Stopwatch.formatTime 5025670 = Spec.formatted 5025670.
Proof.
  split; [lia|].
  apply (formatTime_fields 5025670). lia.
Defined.

(** ** Alarm: the delay [setAlarm] schedules *)



Lemma setAlarm_pending (now alarmTime0 : Z) (w : World)
      (input status : Dom.Element) :
  dom w alarmTimeInput = Some input ->
  dom w alarmStatusEl = Some status ->
  Dom.value input <> "" ->
  pendings (sched (Alarm.setAlarm now alarmTime0 w)) =
    (pendings (sched w) ++
     [{| handle := nextHandle (sched w); callback := cb_triggerAlarm;
         delay := Alarm.timeToAlarm (zone (host (platform w)))
                    now alarmTime0 (Dom.value input);
         repeating := false |}])%list
  /\ alarmTimeoutId (vars (Alarm.setAlarm now alarmTime0 w))
     = Some (nextHandle (sched w)).
Proof.
  intros Hi Hs Hv. unfold Alarm.setAlarm. rewrite Hi, Hs.
  apply String.eqb_neq in Hv. rewrite Hv. split; reflexivity.
Qed.

Lemma setAlarm_rejects_empty (now alarmTime0 : Z) (w : World)
      (input status : Dom.Element) :
  dom w alarmTimeInput = Some input ->
  dom w alarmStatusEl = Some status ->
  Dom.value input = "" ->
  Alarm.setAlarm now alarmTime0 w =
  St.update alarmStatusEl
    (Dom.set_textContent (Dom.Lit "Please select a valid time.")) w.
Proof.
  intros Hi Hs Hv. unfold Alarm.setAlarm. rewrite Hi, Hs, Hv.
  reflexivity.
Qed.







(** ** Pending callbacks *)

Lemma find_registered (cb : Callback) (d : Js.Num) (rep : bool) (s : Sched) :
  freshHandles s ->
  Timers.find (nextHandle s) (snd (Timers.register cb d rep s)) =
  Some {| handle := nextHandle s; callback := cb; delay := d;
          repeating := rep |}.
Proof.
  unfold freshHandles, Timers.find, Timers.register. cbn [snd pendings].
  generalize (nextHandle s) as n. intros n Hf.
  induction Hf as [|p l Hp _ IH]; cbn.
  - now rewrite Z.eqb_refl.
  - assert (E : (handle p =? n) = false) by (apply Z.eqb_neq; lia).
    now rewrite E.
Qed.

Lemma isPending_clear (h : Z) (s : Sched) :
  Timers.isPending h (Timers.clear (Some h) s) = false.
Proof.
  unfold Timers.isPending, Timers.clear. cbn [pendings].
  induction (pendings s) as [|p l IH]; cbn; [reflexivity|].
  destruct (handle p =? h) eqn:E; cbn; [exact IH|].
  now rewrite E.
Qed.


(** ** Countdown timer *)

Lemma startTimer_noop (w : World) :
  Timer.totalSeconds (Timer.valueOf minutesInput w)
                     (Timer.valueOf secondsInput w) <= 0 ->
  Timer.startTimer w = w.
Proof.
  intro H. unfold Timer.startTimer. apply Z.leb_le in H. now rewrite H.
Qed.




Lemma present_update (id k : ElemId) (f : Dom.Element -> Dom.Element)
      (w : World) :
  St.present k (St.update id f w) = St.present k w.
Proof.
  unfold St.present. rewrite dom_update.
  destruct (ElemId_beq k id); [|reflexivity].
  now destruct (dom w k).
Qed.

(** Presence of an element is decided by case analysis on the writes a
    handler makes. *)
Ltac solve_present :=
  unfold St.present; cbn;
  repeat match goal with
         | |- context [ElemId_beq ?a ?b] => destruct (ElemId_beq a b)
         end;
  repeat match goal with
         | |- context [dom ?w ?k] => destruct (dom w k)
         end;
  reflexivity.










(** ** Weather: the sticky [data-loaded] flag *)

Ltac open_handlers :=
  unfold Loop.dispatch, Loop.click, Loop.fire, Loop.run,
    Loop.answerGeo, Loop.answerFetch,
    Router.handleOrientationChange, Router.updateVisibleView,
    Alarm.setAlarm, Alarm.clearAlarm, Alarm.triggerAlarm,
    Alarm.expireClearedMessage,
    Timer.startTimer, Timer.pauseTimer, Timer.resetTimer, Timer.tick,
    Timer.updateTimerDisplay,
    Stopwatch.handlePrimaryClick, Stopwatch.handleSecondaryClick,
    Stopwatch.updateStopwatchDisplay,
    Weather.getWeather, Weather.onPosition,
    Weather.onPositionError, Weather.fetchWeather,
    Weather.fetchWeatherSettled, Weather.render, Weather.catchClause,
    Weather.updateWeatherUI, Weather.getCurrentPosition, Weather.fetch,
    Try.writing, Try.reading in *.

Lemma getWeather_loaded (w : World) :
  Weather.loaded w = true -> Weather.getWeather w = Completed w.
Proof.
  intro H. unfold Weather.getWeather. rewrite H.
  now rewrite orb_true_r.
Qed.

(** A call of [getWeather] that throws has changed nothing. *)
Lemma getWeather_thrown (w w' : World) (fault : Fault) :
  Weather.getWeather w = Thrown fault w' -> w' = w.
Proof.
  unfold Weather.getWeather, Try.writing.
  destruct (negb _ || _); [discriminate|].
  destruct (geolocationSupported _), (dom w weatherStatusEl);
    intro H; try discriminate; congruence.
Qed.

(** [forEach] stops at the first call that throws; the calls it skips
    would have thrown too and changed nothing, so the page it leaves is the
    one every call, made in turn, leaves. *)
Lemma observerCallback_as_fold (entries : list bool) (w : World) :
  Try.worldOf (Weather.observerCallback entries w)
  = fold_left (fun (w : World) (isIntersecting : bool) =>
                 if isIntersecting then Try.worldOf (Weather.getWeather w)
                 else w) entries w.
Proof.
  revert w.
  induction entries as [|b entries IH]; intro w; cbn [fold_left];
    [reflexivity|].
  cbn [Weather.observerCallback]. destruct b; [|apply IH].
  destruct (Weather.getWeather w) as [w'|fault w'] eqn:E;
    cbn [Try.worldOf]; [apply IH|].
  pose proof (getWeather_thrown _ _ _ E) as ->.
  clear IH. induction entries as [|b entries IH]; cbn [fold_left];
    [reflexivity|].
  destruct b; [rewrite E; cbn [Try.worldOf]|]; exact IH.
Qed.

(** What every call of [getWeather] keeps, the observer callback keeps. *)
Lemma observerCallback_keeps (R : World -> World -> Prop) :
  (forall w, R w w) ->
  (forall w1 w2 w3, R w1 w2 -> R w2 w3 -> R w1 w3) ->
  (forall w, R w (Try.worldOf (Weather.getWeather w))) ->
  forall entries w, R w (Try.worldOf (Weather.observerCallback entries w)).
Proof.
  intros Hrefl Htrans Hstep entries w. rewrite observerCallback_as_fold.
  revert w. induction entries as [|b entries IH]; intro w; cbn [fold_left];
    [apply Hrefl|].
  destruct b; [|apply IH].
  exact (Htrans _ _ _ (Hstep w) (IH _)).
Qed.

Lemma observerCallback_loaded (entries : list bool) (w : World) :
  Weather.loaded w = true ->
  Try.worldOf (Weather.observerCallback entries w) = w.
Proof.
  intro H. rewrite observerCallback_as_fold.
  induction entries as [|b entries IH]; cbn [fold_left]; [reflexivity|].
  destruct b; [rewrite getWeather_loaded by exact H|]; exact IH.
Qed.

Lemma loaded_irrelevant (w w' : World) :
  option_map Dom.attributes (dom w' weatherView)
  = option_map Dom.attributes (dom w weatherView) ->
  Weather.loaded w' = Weather.loaded w.
Proof.
  unfold Weather.loaded, Dom.getAttribute. intro H.
  destruct (dom w' weatherView), (dom w weatherView); cbn in H;
    try discriminate; [|reflexivity].
  assert (Hinj : forall x y : list (string * Dom.Text),
             Some x = Some y -> x = y) by (intros; congruence).
  apply Hinj in H. now rewrite H.
Qed.

Ltac keep_attributes :=
  apply loaded_irrelevant; cbn;
  repeat match goal with
         | |- context [match ?d weatherView with _ => _ end] =>
             destruct (d weatherView)
         | |- context [option_map _ (?d weatherView)] =>
             destruct (d weatherView)
         end;
  reflexivity.

Ltac by_cases_on_handler :=
  open_handlers; cbv zeta;
  repeat match goal with
         | |- context [Weather.Lacks ?l] => is_var l; destruct l
         end;
  cbn [Weather.nameOf Weather.tempOf Weather.firstWeatherOf];
  repeat match goal with
         | |- context [if ?c then _ else _] => destruct c eqn:?
         | |- context [match dom ?w ?k with _ => _ end] =>
             destruct (dom w k) eqn:?
         | |- context [match Timers.find ?h ?s with _ => _ end] =>
             destruct (Timers.find h s) as [[? [] ? ?]|] eqn:?
         | |- context [match geoPending ?p with _ => _ end] =>
             destruct (geoPending p) eqn:?
         | |- context [match fetchPending ?p with _ => _ end] =>
             destruct (fetchPending p) eqn:?
         | _ => progress cbv beta iota
         end;
  try reflexivity.

Lemma getWeather_keeps_loaded (w : World) :
  Weather.loaded (Try.worldOf (Weather.getWeather w)) = Weather.loaded w.
Proof.
  by_cases_on_handler; cbn [Try.worldOf]; try reflexivity;
    destruct w as [d s p v]; keep_attributes.
Qed.

Lemma observerCallback_keeps_loaded (entries : list bool) (w : World) :
  Weather.loaded (Try.worldOf (Weather.observerCallback entries w))
  = Weather.loaded w.
Proof.
  apply (observerCallback_keeps
           (fun w w' => Weather.loaded w' = Weather.loaded w));
    [reflexivity|intros; congruence|apply getWeather_keeps_loaded].
Qed.

(** Only an answer that is rendered changes the flag. *)
Lemma dispatch_loaded (now later : Z) (e : Event) (w : World) :
  (forall data, e <> FetchSettled (Weather.Ok data)) ->
  Weather.loaded (Loop.dispatch now later e w) = Weather.loaded w.
Proof.
  intro Hne.
  destruct e as [target|orientation|h|entries|lat lon|msg|r].
  - unfold Loop.dispatch, Loop.click.
    destruct (negb (Loop.clickable target w)); [reflexivity|].
    destruct target; try reflexivity.
    all: match goal with |- context [if ?c then _ else _] => destruct c end;
      try reflexivity.
    all: by_cases_on_handler; destruct w as [d s p v]; keep_attributes.
  - by_cases_on_handler; destruct w as [d s p v]; keep_attributes.
  - by_cases_on_handler; destruct w as [d s p v]; keep_attributes.
  - unfold Loop.dispatch. destruct (St.present weatherView w);
      [apply observerCallback_keeps_loaded|reflexivity].
  - by_cases_on_handler; cbn [Try.worldOf]; try reflexivity;
      destruct w as [d s p v]; keep_attributes.
  - by_cases_on_handler; destruct w as [d s p v]; keep_attributes.
  - destruct r as [data|lacking|status|msg]; [now destruct (Hne data)| | |].
    + by_cases_on_handler; destruct w as [d s p v]; keep_attributes.
    + by_cases_on_handler; destruct w as [d s p v]; keep_attributes.
    + by_cases_on_handler; destruct w as [d s p v]; keep_attributes.
Qed.

Lemma setAssoc_getAssoc (name : string) (v : Dom.Text)
      (l : list (string * Dom.Text)) :
  Dom.getAssoc name (Dom.setAssoc name v l) = Some v.
Proof.
  induction l as [|[n x] l IH]; cbn.
  - now rewrite String.eqb_refl.
  - destruct (String.eqb n name) eqn:E; cbn; rewrite E; [reflexivity|].
    exact IH.
Qed.

(** Marking the panel sets the flag. *)
Lemma marked_loaded (w : World) :
  St.present weatherView w = true ->
  Weather.loaded
    (St.update weatherView
       (Dom.setAttribute "data-loaded" (Dom.Lit "true")) w) = true.
Proof.
  unfold St.present, Weather.loaded. intro H. cbn.
  destruct (dom w weatherView) as [e|]; [|discriminate]. cbn.
  unfold Dom.getAttribute. cbn. now rewrite setAssoc_getAssoc.
Qed.

(** [updateWeatherUI] writes into the card and the status line only. *)
Lemma updateWeatherUI_keeps_loaded (data : Weather.Body) (w : World) :
  Weather.loaded (Try.worldOf (Weather.updateWeatherUI data w))
  = Weather.loaded w.
Proof.
  destruct data as [data|lacking];
    by_cases_on_handler; cbn [Try.worldOf]; try reflexivity;
    destruct w as [d s p v]; keep_attributes.
Qed.

Lemma updateWeatherUI_keeps_view (data : Weather.Body) (w : World) :
  St.present weatherView (Try.worldOf (Weather.updateWeatherUI data w))
  = St.present weatherView w.
Proof.
  destruct data as [data|lacking];
    by_cases_on_handler; cbn [Try.worldOf]; try reflexivity;
    unfold St.present; cbn; now destruct (dom w weatherView).
Qed.

(** With all its elements on the page and a body of the documented shape,
    [updateWeatherUI] completes; a body that lacks a part makes it
    throw, and so does a missing element. *)
Lemma updateWeatherUI_completes (data : Weather.Data) (w : World) :
  Weather.cardComplete w = true ->
  exists w', Weather.updateWeatherUI (Weather.Whole data) w = Completed w'.
Proof.
  unfold Weather.cardComplete, St.present. intro H.
  unfold Weather.updateWeatherUI, Try.reading, Try.writing.
  cbn [Weather.nameOf Weather.tempOf Weather.firstWeatherOf].
  cbn.
  destruct (dom w weatherCityEl); [|discriminate].
  destruct (dom w weatherTempEl); [|discriminate].
  destruct (dom w weatherDescEl); [|discriminate].
  destruct (dom w weatherIconEl); [|discriminate].
  destruct (dom w weatherStatusEl); [|discriminate].
  destruct (dom w weatherCardEl); [|discriminate].
  cbn. eexists. reflexivity.
Qed.

Lemma updateWeatherUI_throws (data : Weather.Body) (w : World) :
  match data with
  | Weather.Whole _ => Weather.cardComplete w = false
  | Weather.Lacks _ => True
  end ->
  exists fault w', Weather.updateWeatherUI data w = Thrown fault w'.
Proof.
  unfold Weather.cardComplete, St.present. intro H.
  unfold Weather.updateWeatherUI, Try.reading, Try.writing.
  destruct data as [data|[n t|n|]];
    cbn [Weather.nameOf Weather.tempOf Weather.firstWeatherOf]; cbn.
  all: destruct (dom w weatherCityEl); [|eexists; eexists; reflexivity].
  all: destruct (dom w weatherTempEl); [|eexists; eexists; reflexivity].
  all: try (eexists; eexists; reflexivity).
  all: destruct (dom w weatherDescEl); [|eexists; eexists; reflexivity].
  all: destruct (dom w weatherIconEl); [|eexists; eexists; reflexivity].
  all: destruct (dom w weatherStatusEl); [|eexists; eexists; reflexivity].
  all: destruct (dom w weatherCardEl); [|eexists; eexists; reflexivity].
  all: discriminate.
Qed.

Lemma catchClause_keeps_loaded (message : string) (w : World) :
  Weather.loaded (Weather.catchClause message w) = Weather.loaded w.
Proof.
  unfold Weather.catchClause. destruct w as [d s p v]. keep_attributes.
Qed.

Lemma success_loads (data : Weather.Data) (w : World) :
  St.present weatherView w = true ->
  Weather.cardComplete w = true ->
  Weather.loaded (Weather.fetchWeatherSettled (Weather.Ok data) w) = true.
Proof.
  intros Hv Hc. unfold Weather.fetchWeatherSettled, Weather.render.
  destruct (updateWeatherUI_completes data w Hc) as [w' E].
  pose proof (updateWeatherUI_keeps_view (Weather.Whole data) w) as Hv'.
  rewrite E in *. cbn [Try.worldOf] in Hv'.
  apply marked_loaded. now rewrite Hv'.
Qed.

(** An answer that cannot be rendered leaves the flag as it was. *)
Lemma render_thrown_keeps_loaded (data : Weather.Body) (w : World) :
  match data with
  | Weather.Whole _ => Weather.cardComplete w = false
  | Weather.Lacks _ => True
  end ->
  Weather.loaded (Weather.render data w) = Weather.loaded w.
Proof.
  intro H. unfold Weather.render.
  destruct (updateWeatherUI_throws data w H) as (fault & w' & E).
  pose proof (updateWeatherUI_keeps_loaded data w) as Hl.
  rewrite E in *. cbn [Try.worldOf] in Hl.
  now rewrite catchClause_keeps_loaded.
Qed.

Lemma loaded_present (w : World) :
  Weather.loaded w = true -> St.present weatherView w = true.
Proof.
  unfold Weather.loaded, St.present.
  now destruct (dom w weatherView).
Qed.

(** Rendered or not, an answer leaves a flag that is set as it is. *)
Lemma render_keeps_loaded (data : Weather.Body) (w : World) :
  Weather.loaded w = true -> Weather.loaded (Weather.render data w) = true.
Proof.
  intro H. unfold Weather.render.
  pose proof (updateWeatherUI_keeps_loaded data w) as Hl.
  destruct (Weather.updateWeatherUI data w) as [w'|fault w'];
    cbn [Try.worldOf] in Hl.
  - apply marked_loaded, loaded_present. congruence.
  - rewrite catchClause_keeps_loaded. congruence.
Qed.

Lemma dispatch_keeps_loaded (now later : Z) (e : Event) (w : World) :
  Weather.loaded w = true ->
  Weather.loaded (Loop.dispatch now later e w) = true.
Proof.
  intro H.
  destruct e
    as [target|orientation|h|entries|lat lon|msg|[data|lacking|status|msg]];
    try (rewrite dispatch_loaded; [exact H|discriminate]).
  unfold Loop.dispatch.
  destruct (fetchPending (platform w)); [exact H|].
  apply render_keeps_loaded. exact H.
Qed.

(** Once the flag is set no event makes the page ask for the position
    again, and with no position request in flight none makes it fetch
    again. *)
Lemma dispatch_requests_when_loaded (now later : Z) (e : Event) (w : World) :
  Weather.loaded w = true ->
  geoRequests (platform (Loop.dispatch now later e w))
  = geoRequests (platform w)
  /\ (geoPending (platform w) = O ->
      geoPending (platform (Loop.dispatch now later e w)) = O
      /\ fetches (platform (Loop.dispatch now later e w))
         = fetches (platform w)).
Proof.
  intro H.
  destruct e as [target|orientation|h|entries|lat lon|msg|r].
  - unfold Loop.dispatch, Loop.click.
    destruct (negb (Loop.clickable target w)); [now split|].
    destruct target; try (now split).
    all: match goal with |- context [if ?c then _ else _] => destruct c end;
      try (now split).
    all: by_cases_on_handler; now split.
  - by_cases_on_handler; now split.
  - by_cases_on_handler; now split.
  - unfold Loop.dispatch. destruct (St.present weatherView w);
      [rewrite observerCallback_loaded by exact H|]; now split.
  - unfold Loop.dispatch.
    destruct (geoPending (platform w)) eqn:E; [now split|].
    by_cases_on_handler; cbn [Try.worldOf]; (split; [reflexivity|]);
      discriminate.
  - unfold Loop.dispatch.
    destruct (geoPending (platform w)) eqn:E; [now split|].
    split; [reflexivity|discriminate].
  - unfold Loop.dispatch.
    destruct (fetchPending (platform w)); [now split|].
    destruct r; by_cases_on_handler; now split.
Qed.

Lemma run_when_loaded (es : list (Z * Event)) (w : World) :
  Weather.loaded w = true ->
  Weather.loaded (Loop.runEvents es w) = true
  /\ geoRequests (platform (Loop.runEvents es w)) = geoRequests (platform w)
  /\ (geoPending (platform w) = O ->
      fetches (platform (Loop.runEvents es w)) = fetches (platform w)).
Proof.
  unfold Loop.runEvents. revert w.
  induction es as [|[t e] es IH]; intros w H; cbn [fold_left fst snd];
    [now repeat split|].
  pose proof (dispatch_keeps_loaded t t e w H) as H1.
  destruct (dispatch_requests_when_loaded t t e w H) as [Hg Hf].
  destruct (IH _ H1) as (IH1 & IH2 & IH3).
  split; [exact IH1|]. split; [now rewrite IH2|].
  intro Hp. destruct (Hf Hp) as [Hp' Hf'].
  now rewrite IH3.
Qed.

Lemma getWeather_asks (w : World) :
  St.present weatherView w = true ->
  St.present weatherStatusEl w = true ->
  Weather.loaded w = false ->
  geolocationSupported (platform w) = true ->
  geoRequests (platform (Try.worldOf (Weather.getWeather w)))
  = S (geoRequests (platform w)).
Proof.
  intros Hp Hs Hl Hg. unfold Weather.getWeather, Try.writing.
  rewrite Hp, Hl, Hg. unfold St.present in Hs.
  destruct (dom w weatherStatusEl); [reflexivity|discriminate].
Qed.

(** C4 as stated fails: after the sequence has completed with a failure
    the panel becoming visible again starts it again.  A refused position
    is followed by a second position request, and a failed weather request
    by a second position request and a second weather request. *)
Lemma weather_asks_again_after_a_failure :
  let denied :=
    Loop.runEvents [(0, Intersection [true]);
                    (1, PositionError "User denied Geolocation")]
                   Sample.page in
  let failed :=
    Loop.runEvents [(0, Intersection [true]);
                    (1, Position (52 # 1) (13 # 1));
                    (2, FetchSettled (Weather.NotOk 500))]
                   Sample.page in
  (geoRequests (platform denied) = 1%nat
   /\ geoPending (platform denied) = 0%nat
   /\ geoRequests
        (platform (Loop.runEvents [(3, Intersection [true])] denied))
      = 2%nat)
  /\ (List.length (fetches (platform failed)) = 1%nat
      /\ fetchPending (platform failed) = 0%nat
      /\ let again :=
           Loop.runEvents [(3, Intersection [true]);
                           (4, Position (52 # 1) (13 # 1))] failed in
         geoRequests (platform again) = 2%nat
         /\ List.length (fetches (platform again)) = 2%nat).
Proof. vm_compute. repeat split. Qed.

(** C4, amended.  The weather fetch sequence is not repeated once it has
    completed with a rendered success: an [ok] answer of the documented
    shape, rendered on a page that has every element of the card, sets the
    [data-loaded] flag, no event ever unsets it, and while it is set a
    visibility notification changes nothing, so no run of the page issues
    another position request, nor (with no position request in flight)
    another weather request.  A refused position, a failed weather request
    or an answer that cannot be rendered leaves the flag unset, and the
    next visibility notification asks for the position again. *)
Theorem weather_sequence_repeats_until_loaded (w : World) :
  (St.present weatherView w = true ->
   Weather.cardComplete w = true ->
   forall data,
     Weather.loaded (Weather.fetchWeatherSettled (Weather.Ok data) w) = true)
  /\ (Weather.loaded w = true ->
      (forall now later entries,
          Loop.dispatch now later (Intersection entries) w = w)
      /\ (forall es,
             Weather.loaded (Loop.runEvents es w) = true
             /\ geoRequests (platform (Loop.runEvents es w))
                = geoRequests (platform w))
      /\ (geoPending (platform w) = O ->
          forall es,
            fetches (platform (Loop.runEvents es w)) = fetches (platform w)))
  /\ (Weather.loaded w = false ->
      (forall message,
          Weather.loaded (Weather.onPositionError message w) = false)
      /\ (forall status,
             Weather.loaded
               (Weather.fetchWeatherSettled (Weather.NotOk status) w) = false)
      /\ (forall message,
             Weather.loaded
               (Weather.fetchWeatherSettled (Weather.Rejected message) w)
             = false)
      /\ (forall lacking,
             Weather.loaded
               (Weather.fetchWeatherSettled (Weather.OkLacking lacking) w)
             = false)
      /\ (Weather.cardComplete w = false ->
          forall data,
            Weather.loaded
              (Weather.fetchWeatherSettled (Weather.Ok data) w) = false)
      /\ (St.present weatherView w = true ->
          St.present weatherStatusEl w = true ->
          geolocationSupported (platform w) = true ->
          forall now later,
            geoRequests
              (platform (Loop.dispatch now later (Intersection [true]) w))
            = S (geoRequests (platform w)))).
Proof.
  split; [intros Hp Hc data; now apply success_loads|].
  split.
  - intro H. split; [|split].
    + intros now later entries. unfold Loop.dispatch.
      destruct (St.present weatherView w);
        [now apply observerCallback_loaded|reflexivity].
    + intro es. destruct (run_when_loaded es w H) as (H1 & H2 & _).
      now split.
    + intros Hp es. destruct (run_when_loaded es w H) as (_ & _ & H3).
      now apply H3.
  - intro H. split; [|split; [|split; [|split; [|split]]]].
    + intro message. rewrite <- H.
      unfold Weather.onPositionError. destruct w as [d s p v].
      keep_attributes.
    + intro status. rewrite <- H.
      apply catchClause_keeps_loaded.
    + intro message. rewrite <- H.
      apply catchClause_keeps_loaded.
    + intro lacking. rewrite <- H.
      exact (render_thrown_keeps_loaded (Weather.Lacks lacking) w I).
    + intros Hc data. rewrite <- H.
      exact (render_thrown_keeps_loaded (Weather.Whole data) w Hc).
    + intros Hp Hs Hg now later. unfold Loop.dispatch. rewrite Hp.
      cbn [Weather.observerCallback].
      pose proof (getWeather_asks w Hp Hs H Hg) as Ha.
      destruct (Weather.getWeather w); exact Ha.
Qed.

Lemma weather_sequence_repeats_until_loaded_witness :
  let w := Loop.runEvents [(0, Intersection [true]);
                           (1, Position (52 # 1) (13 # 1));
                           (2, FetchSettled
                                 (Weather.Ok
                                    {| Weather.name := "Berlin";
                                       Weather.temp := 37 # 2;
                                       Weather.description := "clear sky";
                                       Weather.icon := "01d" |}))]
                          Sample.page in
  Weather.loaded w = true
  /\ forall es,
       geoRequests (platform (Loop.runEvents es w)) = 1%nat.
Proof.
  intro w.
  assert (Hl : Weather.loaded w = true) by (vm_compute; reflexivity).
  split; [exact Hl|].
  destruct (weather_sequence_repeats_until_loaded w) as (_ & H & _).
  destruct (H Hl) as (_ & Hrun & _).
  intro es. destruct (Hrun es) as [_ Hg]. exact Hg.
Defined.

(** ** Stopwatch: the lap counter *)

Lemma dispatch_lapCounter (now later : Z) (e : Event) (w : World) :
  lapCounter (vars (Loop.dispatch now later e w)) =
  match secondaryUse e w with
  | Lap => lapCounter (vars w) + 1
  | Reset => 1
  | NotSecondary => lapCounter (vars w)
  end.
Proof.
  destruct e as [target|orientation|h|entries|lat lon|msg|r].
  - unfold Loop.dispatch, Loop.click, secondaryUse.
    destruct target; cbn [negb].
    all: destruct (Loop.clickable _ w); cbn [negb andb]; try reflexivity.
    all: match goal with |- context [if ?c then _ else _] => destruct c end;
      try reflexivity.
    all: by_cases_on_handler.
  - unfold secondaryUse. by_cases_on_handler.
  - unfold secondaryUse. by_cases_on_handler.
  - unfold secondaryUse, Loop.dispatch.
    destruct (St.present weatherView w); [|reflexivity].
    apply (observerCallback_keeps
             (fun w w' => lapCounter (vars w') = lapCounter (vars w)));
      [reflexivity|intros; congruence|].
    intro w0. by_cases_on_handler.
  - unfold secondaryUse. by_cases_on_handler.
  - unfold secondaryUse. by_cases_on_handler.
  - unfold secondaryUse. destruct r; by_cases_on_handler.
Qed.

Lemma run_lapCounter (es : list (Z * Event)) (w : World) :
  snd (tally es w) = O ->
  lapCounter (vars (Loop.runEvents es w)) =
  lapCounter (vars w) + Z.of_nat (fst (tally es w)).
Proof.
  unfold Loop.runEvents. revert w.
  induction es as [|[t e] es IH]; intros w; cbn [fold_left tally fst snd].
  - intros _. cbn. lia.
  - specialize (IH (Loop.dispatch t t e w)).
    pose proof (dispatch_lapCounter t t e w) as Hstep.
    destruct (tally es (Loop.dispatch t t e w)) as [laps resets].
    destruct (secondaryUse e w); cbn [fst snd] in *; intro Hr;
      try discriminate; rewrite IH by exact Hr; rewrite Hstep; lia.
Qed.

(** C9.  The lap counter goes up by one on each lap (a click on the
    secondary control while running), goes back to 1 on a reset (the same
    click while stopped), and is left alone by every other event: starting
    and stopping in particular.  So over any run of the page without a
    reset the counter ends at its initial value plus the number of laps,
    however many times the stopwatch was stopped and restarted. *)
Theorem lap_counter_continues_until_reset
  (now later : Z) (e : Event) (w : World) :
  (secondaryUse e w = Lap ->
   lapCounter (vars (Loop.dispatch now later e w)) = lapCounter (vars w) + 1)
  /\ (secondaryUse e w = Reset ->
      lapCounter (vars (Loop.dispatch now later e w)) = 1)
  /\ (secondaryUse e w = NotSecondary ->
      lapCounter (vars (Loop.dispatch now later e w)) = lapCounter (vars w))
  /\ lapCounter (vars (Stopwatch.handlePrimaryClick now w))
     = lapCounter (vars w)
  /\ (lapCounter (vars (Loop.dispatch now later e w)) <> lapCounter (vars w)
      -> 0 < lapCounter (vars w) ->
      lapCounter (vars (Loop.dispatch now later e w)) = 1 ->
      secondaryUse e w = Reset)
  /\ (forall es,
        snd (tally es w) = O ->
        lapCounter (vars (Loop.runEvents es w)) =
        lapCounter (vars w) + Z.of_nat (fst (tally es w))).
Proof.
  pose proof (dispatch_lapCounter now later e w) as H.
  repeat split.
  - intro E. now rewrite E in H.
  - intro E. now rewrite E in H.
  - intro E. now rewrite E in H.
  - unfold Stopwatch.handlePrimaryClick. cbv zeta. cbn.
    now destruct (negb (isRunning (vars w))).
  - intros Hch Hpos H1. destruct (secondaryUse e w); [lia|reflexivity|].
    now rewrite H in Hch.
  - intro es. apply run_lapCounter.
Qed.

(** Start, two laps, stop, start again, a third lap: the counter is at 4
    and the newest entry is "Lap 3". *)
Lemma lap_counter_continues_until_reset_witness :
  let es := [(1000, Click primaryBtn); (2000, Click secondaryBtn);
             (3000, Click secondaryBtn); (4000, Click primaryBtn);
             (9000, Click primaryBtn); (9500, Click secondaryBtn)] in
  tally es Sample.page = (3%nat, 0%nat)
  /\ lapCounter (vars (Loop.runEvents es Sample.page)) = 4
  /\ option_map (fun e => hd "" (Dom.children e))
       (dom (Loop.runEvents es Sample.page) lapsList)
     = Some "<span>Lap 3</span><span>00:00:03.50</span>".
Proof.
  intro es.
  assert (Ht : tally es Sample.page = (3%nat, 0%nat))
    by (vm_compute; reflexivity).
  split; [exact Ht|]. split.
  - destruct (lap_counter_continues_until_reset 0 0 (Click primaryBtn)
                Sample.page) as (_ & _ & _ & _ & _ & Hrun).
    rewrite (Hrun es); rewrite Ht; reflexivity.
  - vm_compute. reflexivity.
Defined.
(** ** Alarm: clearing *)


(** What [clearAlarm] leaves in the table of [triggerAlarm] callbacks. *)
Lemma clearAlarm_pending (w : World) :
  Alarm.wired w = true ->
  Timers.pendingOf cb_triggerAlarm (sched (Alarm.clearAlarm w)) =
  if St.truthy (alarmTimeoutId (vars w)) then
    Timers.pendingOf cb_triggerAlarm
      (Timers.clear (alarmTimeoutId (vars w)) (sched w))
  else Timers.pendingOf cb_triggerAlarm (sched w).
Proof.
  unfold Alarm.wired, St.present, Alarm.clearAlarm. intro Hw.
  destruct (dom w setAlarmBtn), (dom w clearAlarmBtn), (dom w alarmTimeInput),
    (dom w alarmStatusEl), (dom w alarmSound); try discriminate.
  cbv zeta.
  destruct (St.truthy (alarmTimeoutId (vars w))); cbn.
  - unfold Timers.pendingOf. cbn. rewrite filter_app. cbn.
    apply app_nil_r.
  - unfold Timers.pendingOf. cbn. rewrite filter_app. cbn.
    apply app_nil_r.
Qed.

Lemma clearAlarm_present (k : ElemId) (w : World) :
  St.present k (Alarm.clearAlarm w) = St.present k w.
Proof.
  unfold Alarm.clearAlarm.
  destruct (dom w alarmSound), (dom w alarmStatusEl), (dom w setAlarmBtn),
    (dom w clearAlarmBtn), (dom w alarmTimeInput); try reflexivity.
  cbv zeta. destruct (St.truthy (alarmTimeoutId (vars w))); solve_present.
Qed.

Lemma clearAlarm_wired (w : World) :
  Alarm.wired (Alarm.clearAlarm w) = Alarm.wired w.
Proof. unfold Alarm.wired. now rewrite !clearAlarm_present. Qed.

Lemma clearAlarm_unwired (w : World) :
  Alarm.wired w = false -> Alarm.clearAlarm w = w.
Proof.
  unfold Alarm.wired, St.present, Alarm.clearAlarm. intro Hw.
  destruct (dom w setAlarmBtn), (dom w clearAlarmBtn),
    (dom w alarmTimeInput), (dom w alarmStatusEl), (dom w alarmSound);
    try discriminate; reflexivity.
Qed.

Lemma clearAlarm_handle (w : World) :
  Alarm.wired w = true ->
  alarmTimeoutId (vars (Alarm.clearAlarm w)) =
  if St.truthy (alarmTimeoutId (vars w)) then None
  else alarmTimeoutId (vars w).
Proof.
  unfold Alarm.wired, St.present, Alarm.clearAlarm. intro Hw.
  destruct (dom w setAlarmBtn), (dom w clearAlarmBtn),
    (dom w alarmTimeInput), (dom w alarmStatusEl), (dom w alarmSound);
    try discriminate.
  cbv zeta. now destruct (St.truthy (alarmTimeoutId (vars w))).
Qed.

Lemma clearAlarm_dom (k : ElemId) (w : World) :
  Alarm.wired w = true ->
  dom (Alarm.clearAlarm w) k = option_map (clearWrites k) (dom w k).
Proof.
  unfold Alarm.wired, St.present, Alarm.clearAlarm. intro Hw.
  destruct (dom w setAlarmBtn), (dom w clearAlarmBtn),
    (dom w alarmTimeInput), (dom w alarmStatusEl), (dom w alarmSound);
    try discriminate.
  cbv zeta. destruct w as [d s p v].
  destruct (St.truthy _);
    destruct k as [[]| | | | | | | | | | | | | | | | | | | | | | | |]; cbn;
    destruct (d _) as [[]|]; reflexivity.
Qed.

Lemma clearWrites_twice (k : ElemId) (e : Dom.Element) :
  clearWrites k (clearWrites k e) = clearWrites k e.
Proof.
  destruct e.
  destruct k as [[]| | | | | | | | | | | | | | | | | | | | | | | |]; cbn;
    try reflexivity.
  unfold Dom.classList_remove. cbn. now rewrite remove_remove.
Qed.

Lemma clearAlarm_dom_twice (k : ElemId) (w : World) :
  dom (Alarm.clearAlarm (Alarm.clearAlarm w)) k = dom (Alarm.clearAlarm w) k.
Proof.
  destruct (Alarm.wired w) eqn:Hw.
  - rewrite clearAlarm_dom by now rewrite clearAlarm_wired.
    rewrite clearAlarm_dom by exact Hw.
    destruct (dom w k) as [e|]; [|reflexivity]. cbn.
    now rewrite clearWrites_twice.
  - now rewrite !(clearAlarm_unwired w Hw).
Qed.

(** C10.  Calling [clearAlarm] twice in succession leaves the alarm state
    (the handle variable, the pending [triggerAlarm] callbacks, the tone's
    playback state, position and loop flag, the enablement and labels of the
    controls, the input's value, the [alarming] flag, and the status text
    too) exactly as calling it once does, whatever the starting state. *)
Theorem clearAlarm_idempotent (w : World) :
  alarmState (Alarm.clearAlarm (Alarm.clearAlarm w))
  = alarmState (Alarm.clearAlarm w).
Proof.
  unfold alarmState. rewrite !clearAlarm_dom_twice.
  destruct (Alarm.wired w) eqn:Hw.
  - assert (Hw' : Alarm.wired (Alarm.clearAlarm w) = true)
      by now rewrite clearAlarm_wired.
    pose proof (clearAlarm_handle w Hw) as Hv.
    pose proof (clearAlarm_handle _ Hw') as Hv'.
    assert (Ht : St.truthy (alarmTimeoutId (vars (Alarm.clearAlarm w)))
                 = false).
    { rewrite Hv.
      destruct (St.truthy (alarmTimeoutId (vars w))) eqn:Et;
        [reflexivity|exact Et]. }
    rewrite Ht in Hv'.
    rewrite (clearAlarm_pending _ Hw'), Ht, Hv'. reflexivity.
  - now rewrite !(clearAlarm_unwired w Hw).
Qed.
Lemma pendingOf_clear_tracked (h : option Z) (s : Sched) :
  Forall (fun p => h = Some (handle p)) (Timers.pendingOf cb_triggerAlarm s) ->
  Timers.pendingOf cb_triggerAlarm (Timers.clear h s) = [].
Proof.
  unfold Timers.pendingOf, Timers.clear.
  destruct h as [id|]; cbn [pendings].
  - induction (pendings s) as [|p l IH]; cbn; [reflexivity|].
    destruct (callback p) eqn:Ec; cbn; intro Hf.
    + inversion Hf as [|? ? Hp Hl]; subst.
      assert (Hinj : forall x y : Z, Some x = Some y -> x = y)
        by (intros; congruence).
      apply Hinj in Hp. subst id. rewrite Z.eqb_refl. cbn. now apply IH.
    + destruct (negb _); cbn; rewrite ?Ec; now apply IH.
    + destruct (negb _); cbn; rewrite ?Ec; now apply IH.
    + destruct (negb _); cbn; rewrite ?Ec; now apply IH.
  - intro Hf. destruct (filter _ _) as [|p l]; [reflexivity|].
    inversion Hf; discriminate.
Qed.

(** C7 as stated fails: [clearAlarm] called when the alarm is already
    Idle is not a no-op.  After a full cycle, with a new time typed in, the
    panel is at its Idle defaults; the call then empties the input, shows
    "Alarm cleared." again and leaves one more callback pending. *)
Lemma clearAlarm_when_idle_is_not_a_noop :
  alarmIdle Sample.idleAgain
  /\ Alarm.clearAlarm Sample.idleAgain <> Sample.idleAgain
  /\ option_map Dom.value (dom Sample.idleAgain alarmTimeInput)
     = Some "06:45"
  /\ option_map Dom.value
       (dom (Alarm.clearAlarm Sample.idleAgain) alarmTimeInput) = Some ""
  /\ option_map Dom.textContent (dom Sample.idleAgain alarmStatusEl)
     = Some (Dom.Lit "")
  /\ option_map Dom.textContent
       (dom (Alarm.clearAlarm Sample.idleAgain) alarmStatusEl)
     = Some (Dom.Lit "Alarm cleared.")
  /\ List.length (pendings (sched (Alarm.clearAlarm Sample.idleAgain)))
     = S (List.length (pendings (sched Sample.idleAgain))).
Proof.
  split; [repeat split|].
  split; [|repeat split].
  intro E.
  apply (f_equal (fun w => option_map Dom.value (dom w alarmTimeInput))) in E.
  vm_compute in E. discriminate.
Qed.

(** C7, amended.  From any state in which the handle variable tracks the
    pending one-shot (Armed and Ringing in particular) [clearAlarm] cancels
    that one-shot, stops and rewinds the tone, and returns every control to
    its Idle default.  Called when already Idle it leaves those as they are
    but is not a no-op: it empties the time input, shows "Alarm cleared."
    and schedules that message's removal.  In Idle the clear control is
    disabled, so a click on it does not reach [clearAlarm]. *)
Theorem clearAlarm_returns_to_idle
  (w : World)
  (Hwired : Alarm.wired w = true)
  (Htracked : oneShotTracked w) :
  alarmIdle (Alarm.clearAlarm w)
  /\ option_map Dom.value (dom (Alarm.clearAlarm w) alarmTimeInput) = Some ""
  /\ option_map Dom.textContent (dom (Alarm.clearAlarm w) alarmStatusEl)
     = Some (Dom.Lit "Alarm cleared.")
  /\ (exists l h,
         pendings (sched (Alarm.clearAlarm w)) =
         (l ++ [{| handle := h; callback := cb_expireClearedMessage;
                   delay := Some 2000; repeating := false |}])%list)
  /\ (alarmIdle w ->
      forall now later, Loop.click now later clearAlarmBtn w = w).
Proof.
  destruct Htracked as [Hnz Hall].
  pose proof Hwired as Hp. unfold Alarm.wired, St.present in Hp.
  destruct (dom w setAlarmBtn) as [eset|] eqn:Eset; [|discriminate].
  destruct (dom w clearAlarmBtn) as [eclr|] eqn:Eclr; [|discriminate].
  destruct (dom w alarmTimeInput) as [einp|] eqn:Einp; [|discriminate].
  destruct (dom w alarmStatusEl) as [esta|] eqn:Esta; [|discriminate].
  destruct (dom w alarmSound) as [esnd|] eqn:Esnd; [|discriminate].
  clear Hp.
  split; [unfold alarmIdle; repeat split|repeat split].
  - rewrite (clearAlarm_handle w Hwired).
    destruct (alarmTimeoutId (vars w)) as [id|]; [|reflexivity].
    cbn. destruct (id =? 0) eqn:E0; [|reflexivity].
    apply Z.eqb_eq in E0. now subst.
  - rewrite (clearAlarm_pending w Hwired).
    destruct (St.truthy (alarmTimeoutId (vars w))) eqn:Et.
    + now apply pendingOf_clear_tracked.
    + destruct (Timers.pendingOf cb_triggerAlarm (sched w)) as [|p l];
        [reflexivity|].
      inversion Hall as [|? ? Hp _]; subst. rewrite Hp in Et. cbn in Et.
      rewrite Hp in Hnz. destruct (handle p =? 0) eqn:E0; [|discriminate].
      apply Z.eqb_eq in E0. now rewrite E0 in Hnz.
  - now rewrite (clearAlarm_dom _ w Hwired), Esnd.
  - now rewrite (clearAlarm_dom _ w Hwired), Eset.
  - now rewrite (clearAlarm_dom _ w Hwired), Eclr.
  - now rewrite (clearAlarm_dom _ w Hwired), Einp.
  - unfold alarmingFlag. rewrite (clearAlarm_dom _ w Hwired).
    destruct (dom w (view alarm)) as [e|]; [|reflexivity]. cbn.
    apply contains_remove.
  - now rewrite (clearAlarm_dom _ w Hwired), Einp.
  - now rewrite (clearAlarm_dom _ w Hwired), Esta.
  - unfold Alarm.clearAlarm. rewrite Eset, Eclr, Einp, Esta, Esnd.
    cbv zeta.
    destruct (St.truthy (alarmTimeoutId (vars w))); cbn;
      eexists; eexists; reflexivity.
  - intros (_ & _ & _ & _ & Hc & _) now later.
    unfold Loop.click, Loop.clickable. rewrite Eclr in *. cbn in Hc.
    assert (Hinj : forall x y : bool * Dom.Text, Some x = Some y -> x = y)
      by (intros; congruence).
    apply Hinj in Hc.
    assert (Hd : Dom.disabled eclr = true) by congruence.
    now rewrite Hd.
Qed.

Lemma clearAlarm_returns_to_idle_witness :
  alarmIdle (Alarm.clearAlarm Sample.armed)
  /\ alarmIdle (Alarm.clearAlarm Sample.ringing)
  /\ alarmingFlag Sample.ringing = true
  /\ Timers.pendingOf cb_triggerAlarm (sched Sample.armed) <> [].
Proof.
  split; [|split].
  - apply (clearAlarm_returns_to_idle Sample.armed).
    + reflexivity.
    + split; [discriminate|]. vm_compute. repeat constructor.
  - apply (clearAlarm_returns_to_idle Sample.ringing).
    + reflexivity.
    + split; [discriminate|]. vm_compute. constructor.
  - split; [reflexivity|discriminate].
Defined.
(** ** Countdown timer: pause and resume *)

Lemma not_pending_find (h : Z) (s : Sched) :
  Timers.isPending h s = false -> Timers.find h s = None.
Proof.
  unfold Timers.isPending, Timers.find.
  induction (pendings s) as [|p l IH]; cbn; [reflexivity|].
  destruct (handle p =? h); [discriminate|exact IH].
Qed.

Lemma clear_fresh (h : option Z) (s : Sched) :
  freshHandles s -> freshHandles (Timers.clear h s).
Proof.
  unfold freshHandles, Timers.clear. destruct h as [id|]; [|trivial].
  cbn. intro Hf. induction Hf as [|p l Hp _ IH]; cbn; [constructor|].
  destruct (negb _); [constructor; assumption|exact IH].
Qed.

Lemma pauseTimer_remaining (w : World) :
  secondsRemaining (vars (Timer.pauseTimer w)) = secondsRemaining (vars w).
Proof. unfold Timer.pauseTimer. now destruct (isPaused (vars w)). Qed.

Lemma pauseTimer_pauses (h : Z) (w : World) :
  running h w ->
  isPaused (vars (Timer.pauseTimer w)) = true
  /\ timerIntervalId (vars (Timer.pauseTimer w)) = Some h
  /\ sched (Timer.pauseTimer w) = Timers.clear (Some h) (sched w)
  /\ pauseLabel (Timer.pauseTimer w)
     = option_map (fun _ => Dom.Lit "Resume") (dom w pauseTimerBtn).
Proof.
  intros (Hp & Hid & _). unfold Timer.pauseTimer, pauseLabel.
  rewrite Hp, Hid. cbn.
  repeat split; try assumption. now destruct (dom w pauseTimerBtn).
Qed.

Lemma pauseTimer_resumes (w : World) :
  isPaused (vars w) = true -> freshHandles (sched w) ->
  running (nextHandle (sched w)) (Timer.pauseTimer w)
  /\ pauseLabel (Timer.pauseTimer w)
     = option_map (fun _ => Dom.Lit "Pause") (dom w pauseTimerBtn).
Proof.
  intros Hp Hf. unfold Timer.pauseTimer, pauseLabel, running.
  rewrite Hp. cbn. repeat split.
  - exact (find_registered cb_tick (Some 1000) true (sched w) Hf).
  - now destruct (dom w pauseTimerBtn).
Qed.

Lemma resetTimer_disables_pause (now later : Z) (w : World) :
  Loop.click now later pauseTimerBtn (Timer.resetTimer w)
  = Timer.resetTimer w.
Proof.
  unfold Loop.click.
  assert (E : Loop.clickable pauseTimerBtn (Timer.resetTimer w) = false).
  { unfold Loop.clickable, Timer.resetTimer, Timer.updateTimerDisplay.
    cbn. now destruct (dom w pauseTimerBtn). }
  now rewrite E.
Qed.

(** C6.  The code breaks the claim on a finished timer.  When the
    countdown ends [tick] cancels the interval but leaves the pause control
    enabled, where [resetTimer] disables it.  So on the page, after a
    90-second countdown has run out, a click on the control is not a no-op:
    it sets the paused flag and relabels the control "Resume"; a second
    click starts a new periodic tick, whose first firing takes remaining to
    -1 and the display to "-1:-1". *)
Lemma pause_click_on_a_finished_timer_is_not_a_noop :
  let finishedPage :=
    Nat.iter 90 (Loop.fire 0 1)
             (Loop.click 0 0 startTimerBtn Sample.page130) in
  finished 1 finishedPage
  /\ isPaused (vars finishedPage) = false
  /\ disabledOf pauseTimerBtn finishedPage = Some false
  /\ disabledOf pauseTimerBtn (Loop.click 0 0 resetTimerBtn finishedPage)
     = Some true
  /\ let clicked := Loop.click 0 0 pauseTimerBtn finishedPage in
     isPaused (vars clicked) = true
     /\ pauseLabel clicked = Some (Dom.Lit "Resume")
     /\ clicked <> finishedPage
     /\ let resumed := Loop.click 0 0 pauseTimerBtn clicked in
        Timer.ticking resumed = true
        /\ secondsRemaining (vars (Loop.fire 0 2 resumed)) = -1
        /\ textOf timerDisplay (Loop.fire 0 2 resumed)
           = Some (Dom.Lit "-1:-1").
Proof.
  cbv zeta. split; [repeat split|].
  split; [reflexivity|]. split; [reflexivity|]. split; [reflexivity|].
  split; [reflexivity|]. split; [reflexivity|]. split.
  - intro E. apply (f_equal (fun w => isPaused (vars w))) in E.
    vm_compute in E. discriminate.
  - split; [reflexivity|]. split; vm_compute; reflexivity.
Qed.

(** X25.  [pauseTimer] never touches remaining.  On a running countdown it
    cancels the periodic tick, so no tick can fire and remaining stays
    frozen, and relabels the control "Resume"; on a paused one it starts a
    new periodic tick and relabels the control "Pause"; so a pause followed
    by a resume leaves a running countdown with exactly the same remaining.
    After a reset (Idle) the pause control is disabled and a click on it
    does not reach the handler. *)
Theorem pauseTimer_toggles_the_tick (w : World) :
  secondsRemaining (vars (Timer.pauseTimer w)) = secondsRemaining (vars w)
  /\ (forall h, running h w ->
        isPaused (vars (Timer.pauseTimer w)) = true
        /\ Timers.isPending h (sched (Timer.pauseTimer w)) = false
        /\ (forall now,
              Loop.fire now h (Timer.pauseTimer w) = Timer.pauseTimer w)
        /\ pauseLabel (Timer.pauseTimer w)
           = option_map (fun _ => Dom.Lit "Resume") (dom w pauseTimerBtn))
  /\ (isPaused (vars w) = true -> freshHandles (sched w) ->
      running (nextHandle (sched w)) (Timer.pauseTimer w)
      /\ pauseLabel (Timer.pauseTimer w)
         = option_map (fun _ => Dom.Lit "Pause") (dom w pauseTimerBtn))
  /\ (forall h, running h w -> freshHandles (sched w) ->
        running (nextHandle (sched w)) (Timer.pauseTimer (Timer.pauseTimer w))
        /\ secondsRemaining (vars (Timer.pauseTimer (Timer.pauseTimer w)))
           = secondsRemaining (vars w))
  /\ (forall now later,
        Loop.click now later pauseTimerBtn (Timer.resetTimer w)
        = Timer.resetTimer w).
Proof.
  split; [apply pauseTimer_remaining|]. split; [|split; [|split]].
  - intros h Hr. destruct (pauseTimer_pauses h w Hr) as (Hp & _ & Hs & Hl).
    assert (Hn : Timers.isPending h (sched (Timer.pauseTimer w)) = false)
      by (rewrite Hs; apply isPending_clear).
    repeat split; try assumption.
    intro now. unfold Loop.fire. now rewrite (not_pending_find _ _ Hn).
  - apply pauseTimer_resumes.
  - intros h Hr Hf.
    destruct (pauseTimer_pauses h w Hr) as (Hp & _ & Hs & _).
    assert (Hf' : freshHandles (sched (Timer.pauseTimer w)))
      by (rewrite Hs; now apply clear_fresh).
    destruct (pauseTimer_resumes _ Hp Hf') as [Hrun _].
    rewrite Hs in Hrun. cbn [Timers.clear nextHandle] in Hrun.
    split; [exact Hrun|]. now rewrite !pauseTimer_remaining.
  - intros now later. apply resetTimer_disables_pause.
Qed.

Lemma pauseTimer_toggles_the_tick_witness :
  let w := Nat.iter 40 (Loop.fire 0 1) (Timer.startTimer Sample.page130) in
  running 1 w
  /\ running 2 (Timer.pauseTimer (Timer.pauseTimer w))
  /\ secondsRemaining (vars (Timer.pauseTimer (Timer.pauseTimer w))) = 50.
Proof.
  intro w.
  assert (Hr : running 1 w) by (repeat split).
  assert (Hf : freshHandles (sched w)).
  { unfold freshHandles. vm_compute. repeat constructor. }
  destruct (pauseTimer_toggles_the_tick w) as (_ & _ & _ & H & _).
  destruct (H 1 Hr Hf) as [H1 H2].
  split; [exact Hr|]. split; [exact H1|]. rewrite H2. reflexivity.
Defined.
(** ** Decimal text reads back *)

(** Evaluate [digitValue] on a literal character. *)
Ltac eval_digit :=
  match goal with
  | |- context [Js.digitValue ?c] =>
      let v := eval vm_compute in (Js.digitValue c) in
      change (Js.digitValue c) with v; cbv beta iota
  end.

Lemma digitsPrefix_uint (d : Decimal.uint) (acc : Z) :
  Js.digitsPrefix (Some acc) (NilEmpty.string_of_uint d)
  = Some (uintValue d acc).
Proof.
  revert acc. induction d; intro acc; cbn [NilEmpty.string_of_uint uintValue];
    [reflexivity|..];
    cbn [Js.digitsPrefix]; eval_digit; rewrite IHd; do 2 f_equal; lia.
Qed.

Lemma uintValue_pos (d : Decimal.uint) (a : positive) :
  uintValue d (Z.pos a) = Z.pos (Pos.of_uint_acc d a).
Proof.
  revert a. induction d; intro a; cbn [uintValue Pos.of_uint_acc];
    [reflexivity|..];
    match goal with
    | |- uintValue _ ?x = Z.pos (Pos.of_uint_acc _ ?y) =>
        replace x with (Z.pos y) by lia
    end; apply IHd.
Qed.

Lemma uintValue_zero (d : Decimal.uint) :
  uintValue d 0 = Z.of_N (Pos.of_uint d).
Proof.
  induction d; cbn [uintValue Pos.of_uint]; [reflexivity|exact IHd|..];
    cbn [Z.mul Z.add Z.of_N]; apply uintValue_pos.
Qed.

Lemma digitsPrefix_none_uint (d : Decimal.uint) :
  d <> Decimal.Nil ->
  Js.digitsPrefix None (NilEmpty.string_of_uint d)
  = Some (Z.of_N (Pos.of_uint d)).
Proof.
  intro Hd. rewrite <- uintValue_zero.
  destruct d; [now destruct Hd|..];
    cbn [NilEmpty.string_of_uint Js.digitsPrefix uintValue]; eval_digit;
    cbn [Z.mul Z.add]; apply digitsPrefix_uint.
Qed.

Lemma parseInt_uint (d : Decimal.uint) :
  d <> Decimal.Nil ->
  Js.parseInt (NilEmpty.string_of_uint d) = Some (Z.of_N (Pos.of_uint d)).
Proof.
  intro Hd. rewrite <- (digitsPrefix_none_uint d Hd).
  destruct d; [now destruct Hd|..]; reflexivity.
Qed.

Lemma string_of_uint_nonnil (d : Decimal.uint) :
  d <> Decimal.Nil ->
  NilZero.string_of_uint d = NilEmpty.string_of_uint d.
Proof. destruct d; [intro H; now destruct H|reflexivity..]. Qed.

(** [parseInt(n.toString(), 10)] is [n], for every integer. *)
Lemma parseInt_toString (n : Z) : Js.parseInt (Js.toString n) = Some n.
Proof.
  unfold Js.toString. destruct n as [|p|p]; [reflexivity|..];
    cbn [Z.to_int NilZero.string_of_int];
    pose proof (DecimalPos.Unsigned.to_uint_nonnil p) as Hn;
    rewrite (string_of_uint_nonnil _ Hn).
  - rewrite (parseInt_uint _ Hn). now rewrite DecimalPos.Unsigned.of_to.
  - change (Js.parseInt (String "-" (NilEmpty.string_of_uint (Pos.to_uint p))))
      with (option_map Z.opp
              (Js.digitsPrefix None (NilEmpty.string_of_uint (Pos.to_uint p)))).
    rewrite (digitsPrefix_none_uint _ Hn).
    now rewrite DecimalPos.Unsigned.of_to.
Qed.

Lemma parseInt_twoDigits (n : Z) :
  0 <= n -> Js.parseInt (Spec.twoDigits n) = Some n.
Proof.
  intro H. destruct (Z.lt_ge_cases n 100) as [Hlt|Hge].
  - now apply twoDigits_exact.
  - unfold Spec.twoDigits.
    assert (E : (n <? 10) = false) by (apply Z.ltb_ge; lia).
    rewrite E. apply parseInt_toString.
Qed.

(** ** Round trips between what the page shows and what it parses *)

Lemma formatTime_formatted (ms : Z) :
  0 <= ms -> Stopwatch.formatTime ms = Spec.formatted ms.
Proof.
  intro Hms. unfold Stopwatch.formatTime, Spec.formatted. cbv zeta.
  assert (H1 : 0 <= ms / 1000) by (apply Z.div_pos; lia).
  assert (H2 : 0 <= ms / 1000 / 60) by (apply Z.div_pos; lia).
  rewrite !Z.rem_mod_nonneg by lia.
  rewrite !padStart_twoDigits; try reflexivity.
  - apply Z.div_pos; [apply Z.mod_pos_bound|]; lia.
  - apply Z.mod_pos_bound; lia.
  - apply Z.mod_pos_bound; lia.
  - apply Z.div_pos; lia.
Qed.

(** X1.  The four fields of a formatted duration read back, with
    [parseInt], as hours, minutes below 60, seconds below 60 and
    centiseconds below 100 that add up to the duration rounded down to a
    multiple of 10 ms: nothing is lost but the last digit of the
    milliseconds, however many hours have elapsed. *)
Theorem formatTime_reads_back (ms : Z) (Hms : 0 <= ms) :
  exists h m s cs,
    Js.parseInt (Stopwatch.hours (Stopwatch.formatTime ms)) = Some h
    /\ Js.parseInt (Stopwatch.minutes (Stopwatch.formatTime ms)) = Some m
    /\ Js.parseInt (Stopwatch.seconds (Stopwatch.formatTime ms)) = Some s
    /\ Js.parseInt (Stopwatch.milliseconds (Stopwatch.formatTime ms)) = Some cs
    /\ 0 <= h /\ 0 <= m < 60 /\ 0 <= s < 60 /\ 0 <= cs < 100
    /\ h * 3600000 + m * 60000 + s * 1000 + cs * 10 = ms - ms mod 10.
Proof.
  rewrite (formatTime_formatted ms Hms). unfold Spec.formatted. cbv zeta.
  cbn [Stopwatch.hours Stopwatch.minutes Stopwatch.seconds
       Stopwatch.milliseconds].
  exists (ms / 1000 / 3600), ((ms / 1000 / 60) mod 60), ((ms / 1000) mod 60),
    (ms mod 1000 / 10).
  assert (A : 0 <= ms / 1000 / 3600 /\ 0 <= (ms / 1000 / 60) mod 60 < 60
              /\ 0 <= (ms / 1000) mod 60 < 60 /\ 0 <= ms mod 1000 / 10 < 100
              /\ ms / 1000 / 3600 * 3600000 + (ms / 1000 / 60) mod 60 * 60000
                 + (ms / 1000) mod 60 * 1000 + ms mod 1000 / 10 * 10
                 = ms - ms mod 10)
    by (Z.div_mod_to_equations; lia).
  destruct A as (Ah & Am & As & Ac & Asum).
  repeat split; try lia; apply parseInt_twoDigits; lia.
Qed.

Lemma formatTime_reads_back_witness :
  exists h m s cs,
    Js.parseInt (Stopwatch.hours (Stopwatch.formatTime 445025678)) = Some h
    /\ h * 3600000 + m * 60000 + s * 1000 + cs * 10 = 445025670.
Proof.
  destruct (formatTime_reads_back 445025678) as (h & m & s & cs & H);
    [lia|].
  exists h, m, s, cs. destruct H as (Hh & _ & _ & _ & _ & _ & _ & _ & Hsum).
  split; [exact Hh|]. rewrite Hsum. reflexivity.
Defined.

(** X2.  While the remaining time is not negative, the display written by
    [updateTimerDisplay] is "MM:SS" with at least two minute digits and
    exactly two second digits, and its two halves, read the way
    [startTimer] reads the input fields, give the remaining time back. *)
Theorem timer_display_reads_back
  (w : World)
  (Hr : 0 <= secondsRemaining (vars w))
  (Hd : St.present timerDisplay w = true) :
  exists mm ss,
    option_map Dom.textContent
      (dom (Timer.updateTimerDisplay w) timerDisplay)
    = Some (Dom.Lit (mm ++ ":" ++ ss))
    /\ Timer.totalSeconds mm ss = secondsRemaining (vars w)
    /\ (2 <= String.length mm)%nat /\ String.length ss = 2%nat.
Proof.
  unfold St.present in Hd.
  set (r := secondsRemaining (vars w)) in *.
  exists (Spec.twoDigits (r / 60)), (Spec.twoDigits (r mod 60)).
  assert (Hq : 0 <= r / 60) by (apply Z.div_pos; lia).
  assert (Hm : 0 <= r mod 60 < 60) by (apply Z.mod_pos_bound; lia).
  split; [|split; [|split]].
  - unfold Timer.updateTimerDisplay. fold r. rewrite dom_update. cbn.
    destruct (dom w timerDisplay); [|discriminate]. cbn.
    rewrite Z.rem_mod_nonneg by lia.
    now rewrite !padStart_twoDigits by lia.
  - unfold Timer.totalSeconds.
    rewrite !parseInt_twoDigits by lia. unfold Js.or0.
    destruct (r / 60 =? 0) eqn:E1; destruct (r mod 60 =? 0) eqn:E2;
      try apply Z.eqb_eq in E1; try apply Z.eqb_eq in E2;
      Z.div_mod_to_equations; lia.
  - now apply twoDigits_length_ge2.
  - apply twoDigits_exact. lia.
Qed.

Lemma timer_display_reads_back_witness :
  exists mm ss,
    option_map Dom.textContent
      (dom (Timer.updateTimerDisplay (Timer.startTimer Sample.page130))
           timerDisplay)
    = Some (Dom.Lit (mm ++ ":" ++ ss))
    /\ Timer.totalSeconds mm ss = 90.
Proof.
  destruct (timer_display_reads_back (Timer.startTimer Sample.page130))
    as (mm & ss & H1 & H2 & _).
  - vm_compute. discriminate.
  - reflexivity.
  - exists mm, ss. split; [exact H1|]. rewrite H2. reflexivity.
Defined.

Lemma split_never_empty (sep : ascii) (s : string) :
  Js.split sep s <> [].
Proof.
  induction s as [|c s IH]; cbn; [discriminate|].
  destruct (Ascii.eqb c sep); [discriminate|].
  destruct (Js.split sep s); [now destruct IH|discriminate].
Qed.

Lemma split_no_colon (a : string) :
  noColon a = true -> Js.split ":" a = [a].
Proof.
  induction a as [|c a IH]; cbn [noColon Js.split]; [reflexivity|].
  intro H. apply andb_true_iff in H. destruct H as [Hc Ha].
  apply negb_true_iff in Hc. rewrite Hc. now rewrite (IH Ha).
Qed.

Lemma split_at_colon (a s : string) :
  noColon a = true ->
  Js.split ":" (a ++ String ":" s) = a :: Js.split ":" s.
Proof.
  induction a as [|c a IH]; cbn [noColon Js.split String.append].
  - intros _. reflexivity.
  - intro H. apply andb_true_iff in H. destruct H as [Hc Ha].
    apply negb_true_iff in Hc. rewrite Hc. now rewrite (IH Ha).
Qed.

Lemma twoDigits_no_colon (n : Z) :
  0 <= n < 100 -> noColon (Spec.twoDigits n) = true.
Proof.
  intro H.
  assert (Hk : twoDigitsNoColon (Z.to_nat n) = true)
    by (apply (checked_below twoDigitsNoColon 100);
        [vm_compute; reflexivity|lia]).
  unfold twoDigitsNoColon in Hk. now rewrite Z2Nat.id in Hk by lia.
Qed.

Lemma append_assoc (a b c : string) : (a ++ b) ++ c = a ++ (b ++ c).
Proof. induction a as [|x a IH]; cbn; [reflexivity|now rewrite IH]. Qed.

Lemma parseTimeValue_fields (hh mm : string) (tail : list string) :
  noColon hh = true ->
  Js.split ":" mm = mm :: tail ->
  Alarm.parseTimeValue (hh ++ String ":" mm)
  = (Js.parseInt hh, Js.parseInt mm).
Proof.
  intros Hh Hm. unfold Alarm.parseTimeValue.
  rewrite (split_at_colon _ _ Hh), Hm. reflexivity.
Qed.

(** X3.  Whatever hour and minute of the day a time input holds, as
    "HH:MM" or followed by a colon and anything else (seconds),
    [setAlarm]'s [split] and [parseInt] read the hour and the minute back:
    every such value is a parseable time of day. *)
Theorem time_input_reads_back (h m : Z)
  (Hh : 0 <= h < 24) (Hm : 0 <= m < 60) :
  timeOfDay (timeInputValue h m) h m
  /\ (forall rest,
        timeOfDay (timeInputValue h m ++ String ":" rest) h m).
Proof.
  assert (Hnh : noColon (Spec.twoDigits h) = true)
    by (apply twoDigits_no_colon; lia).
  assert (Hnm : noColon (Spec.twoDigits m) = true)
    by (apply twoDigits_no_colon; lia).
  assert (Hlen : String.length (Spec.twoDigits h) = 2%nat)
    by (apply twoDigits_exact; lia).
  assert (Hne : forall t, Spec.twoDigits h ++ t <> "").
  { intros t E. destruct (Spec.twoDigits h); discriminate. }
  unfold timeInputValue.
  change (Spec.twoDigits h ++ ":" ++ Spec.twoDigits m)
    with (Spec.twoDigits h ++ String ":" (Spec.twoDigits m)).
  split; [|intro rest; rewrite append_assoc;
           change (String ":" (Spec.twoDigits m) ++ String ":" rest)
             with (String ":" (Spec.twoDigits m ++ String ":" rest))];
    unfold timeOfDay; (split; [apply Hne|]);
    (split; [|split; assumption]).
  - rewrite (parseTimeValue_fields _ _ [] Hnh (split_no_colon _ Hnm)).
    now rewrite !parseInt_twoDigits by lia.
  - unfold Alarm.parseTimeValue.
    rewrite (split_at_colon _ _ Hnh), (split_at_colon _ _ Hnm).
    cbn [nth_error Js.parseIntArg].
    now rewrite !parseInt_twoDigits by lia.
Qed.

Lemma time_input_reads_back_witness :
  timeOfDay "23:05" 23 5 /\ timeOfDay "23:05:59" 23 5.
Proof.
  destruct (time_input_reads_back 23 5) as [H1 H2]; [lia|lia|].
  split; [exact H1|exact (H2 "59")].
Defined.

(** ** View router: what routing leaves alone *)

Lemma contains_add_other (c c' : string) (l : list string) :
  c <> c' -> Dom.contains c (Dom.add c' l) = Dom.contains c l.
Proof.
  intro Hne. unfold Dom.add.
  destruct (Dom.contains c' l); [reflexivity|].
  unfold Dom.contains. rewrite existsb_app. cbn.
  apply String.eqb_neq in Hne. rewrite Hne. now rewrite !orb_false_r.
Qed.

Lemma contains_remove_other (c c' : string) (l : list string) :
  c <> c' -> Dom.contains c (Dom.remove c' l) = Dom.contains c l.
Proof.
  intro Hne. unfold Dom.contains, Dom.remove.
  induction l as [|x l IH]; cbn; [reflexivity|].
  destruct (String.eqb c' x) eqn:E; cbn; [|now rewrite IH].
  apply String.eqb_eq in E. subst x.
  apply String.eqb_neq in Hne. now rewrite Hne.
Qed.

(** The properties of an element other than its class list, and the classes
    other than [hidden]. *)
Lemma updateVisibleView_frame (key : option ViewKey) (w : World) :
  let w' := Router.updateVisibleView key w in
  sched w' = sched w /\ vars w' = vars w /\ platform w' = platform w
  /\ (forall id,
         match id with
         | view _ => sameButHidden (dom w id) (dom w' id)
         | themeColorMeta => St.present id w' = St.present id w
         | _ => dom w' id = dom w id
         end).
Proof.
  cbv zeta. unfold Router.updateVisibleView, Router.keys.
  destruct w as [d s p v]. cbn [fold_left].
  assert (Hsame : forall e f,
             (forall x, Dom.attributes (f x) = Dom.attributes x
                        /\ Dom.textContent (f x) = Dom.textContent x
                        /\ Dom.value (f x) = Dom.value x
                        /\ Dom.disabled (f x) = Dom.disabled x
                        /\ Dom.paused (f x) = Dom.paused x
                        /\ Dom.currentTime (f x) = Dom.currentTime x
                        /\ Dom.loop (f x) = Dom.loop x
                        /\ Dom.children (f x) = Dom.children x
                        /\ forall c, c <> "hidden" ->
                             Dom.contains c (Dom.classList (f x))
                             = Dom.contains c (Dom.classList x)) ->
             sameButHidden e (option_map f e)).
  { intros [e|] f Hf; cbn; [apply Hf|exact I]. }
  assert (Hadd : forall x,
             let y := Dom.classList_add "hidden" x in
             Dom.attributes y = Dom.attributes x
             /\ Dom.textContent y = Dom.textContent x
             /\ Dom.value y = Dom.value x
             /\ Dom.disabled y = Dom.disabled x
             /\ Dom.paused y = Dom.paused x
             /\ Dom.currentTime y = Dom.currentTime x
             /\ Dom.loop y = Dom.loop x
             /\ Dom.children y = Dom.children x
             /\ forall c, c <> "hidden" ->
                  Dom.contains c (Dom.classList y)
                  = Dom.contains c (Dom.classList x)).
  { intro x. cbn. repeat split. intros c Hc. now apply contains_add_other. }
  assert (Hrem : forall x,
             let y := Dom.classList_remove "hidden"
                        (Dom.classList_add "hidden" x) in
             Dom.attributes y = Dom.attributes x
             /\ Dom.textContent y = Dom.textContent x
             /\ Dom.value y = Dom.value x
             /\ Dom.disabled y = Dom.disabled x
             /\ Dom.paused y = Dom.paused x
             /\ Dom.currentTime y = Dom.currentTime x
             /\ Dom.loop y = Dom.loop x
             /\ Dom.children y = Dom.children x
             /\ forall c, c <> "hidden" ->
                  Dom.contains c (Dom.classList y)
                  = Dom.contains c (Dom.classList x)).
  { intro x. cbn. repeat split. intros c Hc.
    rewrite contains_remove_other by exact Hc.
    now apply contains_add_other. }
  destruct (d (view alarm)) as [ea|] eqn:Ea;
    destruct (d (view timer)) as [et|] eqn:Et;
    destruct (d (view stopwatch)) as [es|] eqn:Es;
    destruct (d (view weather)) as [ew|] eqn:Ew;
    destruct key as [[]|]; cbn; rewrite ?Ea, ?Et, ?Es, ?Ew; cbn;
    (split; [reflexivity|]); (split; [reflexivity|]);
    (split; [reflexivity|]);
    intros [[]| | | | | | | | | | | | | | | | | | | | | | | |]; cbn;
    rewrite ?Ea, ?Et, ?Es, ?Ew; cbn;
    try reflexivity; try exact I;
    try (apply Hadd); try (apply Hrem);
    try (unfold St.present; cbn; now destruct (d themeColorMeta)).
Qed.

(** X4.  Rotating the device changes nothing but which panels carry the
    [hidden] class and the theme-colour hint: the closure's variables, the
    pending callbacks and the platform state are untouched, every element
    other than the four panels and the theme-colour meta is untouched, each
    panel keeps all its properties and its other classes, so the "alarming"
    and "timer-finished" flags and the weather panel's loaded flag survive,
    and no element appears or disappears. *)
Theorem routing_leaves_the_panels_running
  (orientation : string) (w : World) :
  let w' := Router.handleOrientationChange orientation w in
  sched w' = sched w /\ vars w' = vars w /\ platform w' = platform w
  /\ (forall id,
         match id with
         | view _ => sameButHidden (dom w id) (dom w' id)
         | themeColorMeta => St.present id w' = St.present id w
         | _ => dom w' id = dom w id
         end)
  /\ alarmingFlag w' = alarmingFlag w
  /\ Timer.finishedFlag w' = Timer.finishedFlag w
  /\ Weather.loaded w' = Weather.loaded w.
Proof.
  cbv zeta.
  assert (H : exists key,
             Router.handleOrientationChange orientation w
             = Router.updateVisibleView key w).
  { unfold Router.handleOrientationChange.
    repeat match goal with
           | |- context [String.eqb orientation ?s] =>
               destruct (String.eqb orientation s)
           end; eexists; reflexivity. }
  destruct H as [key ->].
  destruct (updateVisibleView_frame key w) as (Hs & Hv & Hp & Hd).
  split; [exact Hs|]. split; [exact Hv|]. split; [exact Hp|].
  split; [exact Hd|].
  pose proof (Hd (view alarm)) as Ha. pose proof (Hd (view timer)) as Ht.
  pose proof (Hd (view weather)) as Hw. cbn in Ha, Ht, Hw.
  unfold alarmingFlag, Timer.finishedFlag, Weather.loaded, Dom.getAttribute,
    sameButHidden in *.
  split; [|split].
  - destruct (dom w (view alarm)),
      (dom (Router.updateVisibleView key w) (view alarm));
      try contradiction; [|reflexivity].
    destruct Ha as (_ & _ & _ & _ & _ & _ & _ & _ & Hc).
    apply Hc. discriminate.
  - destruct (dom w (view timer)),
      (dom (Router.updateVisibleView key w) (view timer));
      try contradiction; [|reflexivity].
    destruct Ht as (_ & _ & _ & _ & _ & _ & _ & _ & Hc).
    apply Hc. discriminate.
  - destruct (dom w (view weather)),
      (dom (Router.updateVisibleView key w) (view weather));
      try contradiction; [|reflexivity].
    destruct Hw as (Hattr & _). now rewrite Hattr.
Qed.

(** X5.  [updateVisibleView] with no key, or with the key of a panel that
    does not exist, hides every panel and leaves the theme-colour hint as it
    was. *)
Theorem updateVisibleView_without_target_hides_all
  (key : option ViewKey) (w : World)
  (Hmissing : match key with
              | Some k => St.present (view k) w = false
              | None => True
              end) :
  Router.visiblePanels (Router.updateVisibleView key w) = []
  /\ dom (Router.updateVisibleView key w) themeColorMeta
     = dom w themeColorMeta.
Proof.
  unfold Router.visiblePanels, Router.keys, Router.visible,
    Router.updateVisibleView, St.present in *.
  destruct w as [d s p v]. cbn [fold_left]. cbn in Hmissing.
  destruct (d (view alarm)) as [ea|] eqn:Ea;
    destruct (d (view timer)) as [et|] eqn:Et;
    destruct (d (view stopwatch)) as [es|] eqn:Es;
    destruct (d (view weather)) as [ew|] eqn:Ew;
    destruct key as [[]|]; cbn in *; rewrite ?Ea, ?Et, ?Es, ?Ew in *;
    try discriminate; cbn; rewrite ?Ea, ?Et, ?Es, ?Ew; cbn;
    rewrite ?contains_add; cbn; split; reflexivity.
Qed.

Lemma updateVisibleView_without_target_hides_all_witness :
  Router.visiblePanels
    (Router.updateVisibleView (Some weather)
       {| dom := fun id => match id with
                           | view weather => None
                           | _ => dom Sample.page id
                           end;
          sched := sched Sample.page; platform := platform Sample.page;
          vars := vars Sample.page |}) = [].
Proof.
  apply (updateVisibleView_without_target_hides_all (Some weather)).
  reflexivity.
Defined.

(** ** Alarm: validation, ringing, cancellation *)

Lemma timeToAlarm_unparseable (z : Js.Zone) (now alarmTime0 : Z)
      (timeValue : string) :
  fst (Alarm.parseTimeValue timeValue) = None
  \/ snd (Alarm.parseTimeValue timeValue) = None ->
  Alarm.timeToAlarm z now alarmTime0 timeValue = None.
Proof.
  unfold Alarm.timeToAlarm.
  destruct (Alarm.parseTimeValue timeValue) as [[h|] [m|]]; cbn;
    intros [E|E]; try discriminate; reflexivity.
Qed.

(** X6.  [setAlarm] validates nothing but emptiness.  With an empty input it
    only writes the validation message: nothing is scheduled and no variable
    or other element changes.  With a non-empty input whose hour or minute
    does not parse (no colon, letters) it arms the alarm all the same: the
    one-shot is scheduled with a [NaN] delay, the status line is built from
    an invalid date, and the controls go to their armed state. *)
Theorem setAlarm_validates_only_emptiness
  (now alarmTime0 : Z) (w : World) (input status : Dom.Element)
  (Hinput : dom w alarmTimeInput = Some input)
  (Hstatus : dom w alarmStatusEl = Some status) :
  let w' := Alarm.setAlarm now alarmTime0 w in
  (Dom.value input = "" ->
   sched w' = sched w /\ vars w' = vars w /\ platform w' = platform w
   /\ textOf alarmStatusEl w'
      = Some (Dom.Lit "Please select a valid time.")
   /\ forall id, id <> alarmStatusEl -> dom w' id = dom w id)
  /\ (Dom.value input <> "" ->
      (fst (Alarm.parseTimeValue (Dom.value input)) = None
       \/ snd (Alarm.parseTimeValue (Dom.value input)) = None) ->
      pendings (sched w')
      = (pendings (sched w) ++ [alarmEntry (nextHandle (sched w)) None])%list
      /\ alarmTimeoutId (vars w') = Some (nextHandle (sched w))
      /\ textOf alarmStatusEl w' = Some (Dom.AlarmSetFor None)
      /\ disabledOf setAlarmBtn w'
         = option_map (fun _ => true) (dom w setAlarmBtn)
      /\ disabledOf clearAlarmBtn w'
         = option_map (fun _ => false) (dom w clearAlarmBtn)
      /\ disabledOf alarmTimeInput w' = Some true).
Proof.
  cbv zeta. split.
  - intro Hv.
    rewrite (setAlarm_rejects_empty now alarmTime0 w input status
               Hinput Hstatus Hv).
    unfold textOf. split; [reflexivity|]. split; [reflexivity|].
    split; [reflexivity|]. split.
    { rewrite dom_update. cbn. now rewrite Hstatus. }
    intros id Hid. rewrite dom_update.
    destruct (ElemId_beq id alarmStatusEl) eqn:E; [|reflexivity].
    apply internal_ElemId_dec_bl in E. contradiction.
  - intros Hv Hnan.
    destruct (setAlarm_pending now alarmTime0 w input status
                Hinput Hstatus Hv) as [Hp Hid].
    pose proof (timeToAlarm_unparseable (zone (host (platform w)))
                  now alarmTime0 _ Hnan) as Ht.
    rewrite Ht in Hp.
    split; [exact Hp|]. split; [exact Hid|].
    unfold Alarm.setAlarm, textOf, disabledOf. rewrite Hinput, Hstatus.
    apply String.eqb_neq in Hv. rewrite Hv, Ht.
    destruct w as [d s p v]. cbn in *. rewrite Hinput, Hstatus. cbn.
    repeat split.
    + now destruct (d setAlarmBtn).
    + now destruct (d clearAlarmBtn).
Qed.

Lemma setAlarm_validates_only_emptiness_witness :
  pendings (sched (Alarm.setAlarm 0 0
                     (Sample.typed alarmTimeInput "7" Sample.page)))
  = [alarmEntry 1 None]
  /\ sched (Alarm.setAlarm 0 0 Sample.page) = sched Sample.page.
Proof.
  destruct (setAlarm_validates_only_emptiness 0 0
              (Sample.typed alarmTimeInput "7" Sample.page)
              (Dom.set_value "7" Sample.blank) Sample.blank
              eq_refl eq_refl) as [_ H].
  destruct (setAlarm_validates_only_emptiness 0 0 Sample.page
              Sample.blank Sample.blank eq_refl eq_refl) as [H0 _].
  split.
  - destruct H as [Hp _]; [discriminate|right; reflexivity|exact Hp].
  - destruct H0 as [Hs _]; [reflexivity|exact Hs].
Defined.

Lemma fire_not_pending (now h : Z) (w : World) :
  Timers.isPending h (sched w) = false -> Loop.fire now h w = w.
Proof.
  intro H. unfold Loop.fire. now rewrite (not_pending_find _ _ H).
Qed.

(** X7.  When the alarm's one-shot fires, the ringing state is shown whether
    or not the tone is allowed to play: the panel gets the "alarming" flag,
    the status reads "Wake up!", the clear control is relabelled
    "Stop Alarm" and the tone is set to loop; the tone plays exactly when
    the host allows it.  The one-shot leaves the table of pending callbacks,
    so it cannot fire a second time. *)
Theorem alarm_rings_once
  (now h : Z) (d : Js.Num) (w : World)
  (Hpending : Timers.find h (sched w) = Some (alarmEntry h d))
  (Hsound : St.present alarmSound w = true)
  (Hstatus : St.present alarmStatusEl w = true)
  (Hclear : St.present clearAlarmBtn w = true) :
  let w' := Loop.fire now h w in
  alarmingFlag w' = St.present (view alarm) w
  /\ textOf alarmStatusEl w' = Some (Dom.Lit "Wake up!")
  /\ textOf clearAlarmBtn w' = Some (Dom.Lit "Stop Alarm")
  /\ option_map Dom.loop (dom w' alarmSound) = Some true
  /\ option_map Dom.paused (dom w' alarmSound)
     = option_map (fun e => if autoplayAllowed (platform w) then false
                            else Dom.paused e) (dom w alarmSound)
  /\ vars w' = vars w
  /\ Timers.isPending h (sched w') = false
  /\ (forall now', Loop.fire now' h w' = w').
Proof.
  cbv zeta.
  assert (Hs : sched (Loop.fire now h w) = Timers.clear (Some h) (sched w)).
  { unfold Loop.fire. rewrite Hpending.
    cbn [repeating callback alarmEntry Loop.run]. unfold Alarm.triggerAlarm.
    cbn. now destruct (dom w alarmSound), (dom w alarmStatusEl),
           (dom w clearAlarmBtn). }
  assert (Hn : Timers.isPending h (sched (Loop.fire now h w)) = false)
    by (rewrite Hs; apply isPending_clear).
  unfold St.present in *.
  repeat split; try exact Hn; try (intro now'; now apply fire_not_pending);
    unfold Loop.fire, alarmingFlag, textOf; rewrite Hpending;
    cbn [repeating callback alarmEntry Loop.run]; unfold Alarm.triggerAlarm;
    destruct w as [dm s p v]; cbn in *;
    destruct (dm alarmSound) as [es|] eqn:Es; try discriminate;
    destruct (dm alarmStatusEl) as [et|] eqn:Et; try discriminate;
    destruct (dm clearAlarmBtn) as [ec|] eqn:Ec; try discriminate; cbn;
    rewrite ?Es, ?Et, ?Ec; cbn; try reflexivity.
  - destruct (dm (view alarm)); cbn; [apply contains_add|reflexivity].
  - now destruct (autoplayAllowed p).
  - now destruct (autoplayAllowed p).
Qed.

Lemma alarm_rings_once_witness :
  alarmingFlag (Loop.fire 27000000 1 Sample.armed) = true
  /\ forall now', Loop.fire now' 1 (Loop.fire 27000000 1 Sample.armed)
                  = Loop.fire 27000000 1 Sample.armed.
Proof.
  destruct (alarm_rings_once 27000000 1 (Some 1800000) Sample.armed)
    as (H1 & _ & _ & _ & _ & _ & _ & H8); try reflexivity.
  split; [exact H1|exact H8].
Defined.

Lemma Text_eqb_Lit (t : Dom.Text) (s : string) :
  Dom.Text_eqb t (Dom.Lit s) = true -> t = Dom.Lit s.
Proof.
  destruct t as [x| [x|] |k c]; cbn; try discriminate.
  intro H. apply String.eqb_eq in H. now subst.
Qed.

Lemma setAlarm_status (now alarmTime0 : Z) (w : World) :
  St.present alarmTimeInput w = true ->
  St.present alarmStatusEl w = true ->
  exists t,
    textOf alarmStatusEl (Alarm.setAlarm now alarmTime0 w) = Some t
    /\ Dom.Text_eqb t (Dom.Lit "Alarm cleared.") = false.
Proof.
  unfold St.present, textOf, Alarm.setAlarm. intros Hi Hs.
  destruct (dom w alarmTimeInput) as [ei|] eqn:Ei; [|discriminate].
  destruct (dom w alarmStatusEl) as [es|] eqn:Es; [|discriminate].
  destruct (String.eqb (Dom.value ei) ""); cbv zeta.
  - rewrite dom_update. cbn. rewrite Es. cbn. eexists. split; reflexivity.
  - destruct w as [d s p v]. cbn in *. rewrite Es. cbn.
    eexists. split; [reflexivity|].
    match goal with
    | |- context [Dom.AlarmSetFor ?x] => destruct x
    end; reflexivity.
Qed.

(** X8.  The confirmation "Alarm cleared." removes itself only while it is
    still what the status line shows: the expiry callback then empties the
    line and touches nothing else, and otherwise does nothing at all.  In
    particular a message written by a [setAlarm] that came after the clear
    (the validation message or "Alarm set for ...") is never wiped by the
    expiry of the earlier confirmation. *)
Theorem cleared_message_expires_unless_replaced (w : World) :
  (textOf alarmStatusEl w = Some (Dom.Lit "Alarm cleared.") ->
   textOf alarmStatusEl (Alarm.expireClearedMessage w) = Some (Dom.Lit "")
   /\ sched (Alarm.expireClearedMessage w) = sched w
   /\ vars (Alarm.expireClearedMessage w) = vars w
   /\ forall id, id <> alarmStatusEl ->
        dom (Alarm.expireClearedMessage w) id = dom w id)
  /\ (textOf alarmStatusEl w <> Some (Dom.Lit "Alarm cleared.") ->
      Alarm.expireClearedMessage w = w)
  /\ (Alarm.wired w = true ->
      forall now alarmTime0 typedValue,
        let w1 := Alarm.setAlarm now alarmTime0
                    (St.update alarmTimeInput (Dom.set_value typedValue)
                       (Alarm.clearAlarm w)) in
        Alarm.expireClearedMessage w1 = w1).
Proof.
  assert (Hkeep : forall w0,
             textOf alarmStatusEl w0 <> Some (Dom.Lit "Alarm cleared.") ->
             Alarm.expireClearedMessage w0 = w0).
  { intros w0 H. unfold Alarm.expireClearedMessage, textOf in *.
    destruct (dom w0 alarmStatusEl) as [e|]; [|reflexivity].
    destruct (Dom.Text_eqb _ _) eqn:E; [|reflexivity].
    apply Text_eqb_Lit in E. cbn in H. now rewrite E in H. }
  split; [|split; [apply Hkeep|]].
  - unfold textOf, Alarm.expireClearedMessage. intro H.
    destruct (dom w alarmStatusEl) as [e|] eqn:Ee; [|discriminate].
    cbn in H. assert (Ht : Dom.textContent e = Dom.Lit "Alarm cleared.")
      by congruence.
    assert (E : Dom.Text_eqb (Dom.textContent e) (Dom.Lit "Alarm cleared.")
                = true) by (rewrite Ht; reflexivity).
    rewrite E. repeat split.
    + rewrite dom_update. cbn. now rewrite Ee.
    + intros id Hid. rewrite dom_update.
      destruct (ElemId_beq id alarmStatusEl) eqn:E'; [|reflexivity].
      apply internal_ElemId_dec_bl in E'. contradiction.
  - intros Hw now alarmTime0 typedValue. cbv zeta. apply Hkeep.
    destruct (setAlarm_status now alarmTime0
                (St.update alarmTimeInput (Dom.set_value typedValue)
                   (Alarm.clearAlarm w))) as (t & Ht & Hne).
    + rewrite present_update, clearAlarm_present.
      unfold Alarm.wired in Hw. now destruct (St.present alarmTimeInput w);
        rewrite ?andb_false_r in Hw.
    + rewrite present_update, clearAlarm_present.
      unfold Alarm.wired in Hw. now destruct (St.present alarmStatusEl w);
        rewrite ?andb_false_r in Hw.
    + rewrite Ht. intro E.
      assert (Et : t = Dom.Lit "Alarm cleared.") by congruence.
      now rewrite Et in Hne.
Qed.

Lemma cleared_message_expires_unless_replaced_witness :
  let w1 := Alarm.setAlarm 0 0
              (St.update alarmTimeInput (Dom.set_value "07:30")
                 (Alarm.clearAlarm Sample.ringing)) in
  Alarm.expireClearedMessage w1 = w1
  /\ textOf alarmStatusEl
       (Alarm.expireClearedMessage (Alarm.clearAlarm Sample.ringing))
     = Some (Dom.Lit "").
Proof.
  destruct (cleared_message_expires_unless_replaced Sample.ringing)
    as (_ & _ & H3).
  destruct (cleared_message_expires_unless_replaced
              (Alarm.clearAlarm Sample.ringing)) as (H1 & _).
  split.
  - apply H3. reflexivity.
  - apply H1. reflexivity.
Defined.

Lemma find_register (h : Z) (cb : Callback) (d : Js.Num) (rep : bool)
      (s : Sched) :
  Timers.find h (snd (Timers.register cb d rep s)) =
  match Timers.find h s with
  | Some p => Some p
  | None =>
      if nextHandle s =? h
      then Some {| handle := nextHandle s; callback := cb; delay := d;
                   repeating := rep |}
      else None
  end.
Proof.
  unfold Timers.find, Timers.register. cbn [snd pendings].
  induction (pendings s) as [|p l IH]; cbn; [reflexivity|].
  destruct (handle p =? h); [reflexivity|exact IH].
Qed.

Lemma find_some_pending (h : Z) (s : Sched) (p : Pending) :
  Timers.find h s = Some p -> Timers.isPending h s = true.
Proof.
  unfold Timers.find, Timers.isPending.
  induction (pendings s) as [|q l IH]; cbn; [discriminate|].
  destruct (handle q =? h); [reflexivity|exact IH].
Qed.

Lemma find_none_not_pending (h : Z) (s : Sched) :
  Timers.find h s = None -> Timers.isPending h s = false.
Proof.
  unfold Timers.find, Timers.isPending.
  induction (pendings s) as [|q l IH]; cbn; [reflexivity|].
  destruct (handle q =? h); [discriminate|exact IH].
Qed.

Lemma setAlarm_sched (now alarmTime0 : Z) (w : World) (input : Dom.Element) :
  dom w alarmTimeInput = Some input ->
  St.present alarmStatusEl w = true ->
  Dom.value input <> "" ->
  sched (Alarm.setAlarm now alarmTime0 w)
  = snd (Timers.register cb_triggerAlarm
           (Alarm.timeToAlarm (zone (host (platform w))) now alarmTime0
              (Dom.value input)) false
           (sched w)).
Proof.
  unfold St.present, Alarm.setAlarm. intros Hi Hs Hv. rewrite Hi.
  destruct (dom w alarmStatusEl); [|discriminate].
  apply String.eqb_neq in Hv. now rewrite Hv.
Qed.

Lemma setAlarm_present (now alarmTime0 : Z) (id : ElemId) (w : World) :
  St.present id (Alarm.setAlarm now alarmTime0 w) = St.present id w.
Proof.
  unfold Alarm.setAlarm.
  destruct (dom w alarmTimeInput) as [ei|]; [|reflexivity].
  destruct (dom w alarmStatusEl); [|reflexivity].
  destruct (String.eqb (Dom.value ei) ""); cbv zeta; solve_present.
Qed.

Lemma clearAlarm_sched (w : World) :
  Alarm.wired w = true ->
  sched (Alarm.clearAlarm w)
  = snd (Timers.register cb_expireClearedMessage (Some 2000) false
           (if St.truthy (alarmTimeoutId (vars w))
            then Timers.clear (alarmTimeoutId (vars w)) (sched w)
            else sched w)).
Proof.
  unfold Alarm.wired, St.present, Alarm.clearAlarm. intro Hw.
  destruct (dom w setAlarmBtn), (dom w clearAlarmBtn),
    (dom w alarmTimeInput), (dom w alarmStatusEl), (dom w alarmSound);
    try discriminate.
  cbv zeta. now destruct (St.truthy (alarmTimeoutId (vars w))).
Qed.

(** X9.  Clearing an armed alarm really cancels it.  Starting with no alarm
    pending, after [setAlarm] on a non-empty input followed by [clearAlarm]
    no [triggerAlarm] is pending, the handle variable is empty again, and
    the alarm's handle fires nothing: the world is unchanged by it. *)
Theorem cleared_alarm_cannot_fire
  (now alarmTime0 : Z) (w : World) (input : Dom.Element)
  (Hwired : Alarm.wired w = true)
  (Hinput : dom w alarmTimeInput = Some input)
  (Hvalue : Dom.value input <> "")
  (Hfresh : freshHandles (sched w))
  (Hpositive : 0 < nextHandle (sched w))
  (Hnone : Timers.pendingOf cb_triggerAlarm (sched w) = []) :
  let h := nextHandle (sched w) in
  let w2 := Alarm.clearAlarm (Alarm.setAlarm now alarmTime0 w) in
  alarmTimeoutId (vars (Alarm.setAlarm now alarmTime0 w)) = Some h
  /\ Timers.isPending h (sched (Alarm.setAlarm now alarmTime0 w)) = true
  /\ alarmTimeoutId (vars w2) = None
  /\ Timers.pendingOf cb_triggerAlarm (sched w2) = []
  /\ (forall t, Loop.fire t h w2 = w2).
Proof.
  cbv zeta.
  assert (Hst : St.present alarmStatusEl w = true).
  { unfold Alarm.wired in Hwired. now destruct (St.present alarmStatusEl w);
      rewrite ?andb_false_r in Hwired. }
  pose proof (setAlarm_sched now alarmTime0 w input Hinput Hst Hvalue) as Hs1.
  set (w1 := Alarm.setAlarm now alarmTime0 w) in *.
  assert (Hid : alarmTimeoutId (vars w1) = Some (nextHandle (sched w))).
  { unfold St.present in Hst.
    destruct (dom w alarmStatusEl) as [es|] eqn:Es; [|discriminate].
    now destruct (setAlarm_pending now alarmTime0 w input es Hinput Es Hvalue). }
  assert (Hw1 : Alarm.wired w1 = true).
  { unfold Alarm.wired, w1. now rewrite !setAlarm_present. }
  assert (Htr : St.truthy (alarmTimeoutId (vars w1)) = true).
  { rewrite Hid. cbn. apply negb_true_iff. apply Z.eqb_neq. lia. }
  assert (Hf1 : Timers.find (nextHandle (sched w)) (sched w1)
                = Some (alarmEntry (nextHandle (sched w))
                          (Alarm.timeToAlarm (zone (host (platform w))) now alarmTime0
              (Dom.value input)))).
  { rewrite Hs1. now apply find_registered. }
  split; [exact Hid|]. split; [exact (find_some_pending _ _ _ Hf1)|].
  split; [rewrite (clearAlarm_handle w1 Hw1); now rewrite Htr|].
  split.
  - rewrite (clearAlarm_pending w1 Hw1), Htr.
    apply pendingOf_clear_tracked. rewrite Hid, Hs1.
    unfold Timers.pendingOf, Timers.register. cbn [snd pendings].
    rewrite filter_app. unfold Timers.pendingOf in Hnone. rewrite Hnone.
    cbn. now constructor.
  - intro t. apply fire_not_pending.
    rewrite (clearAlarm_sched w1 Hw1), Htr, Hid.
    apply find_none_not_pending.
    assert (Hfind : Timers.find (nextHandle (sched w))
                      (snd (Timers.register cb_expireClearedMessage
                              (Some 2000) false
                              (Timers.clear (Some (nextHandle (sched w)))
                                 (sched w1)))) = None).
    { rewrite find_register.
      rewrite (not_pending_find _ _ (isPending_clear _ _)).
      cbn [Timers.clear nextHandle]. rewrite Hs1. cbn.
      assert (E : (nextHandle (sched w) + 1 =? nextHandle (sched w)) = false)
        by (apply Z.eqb_neq; lia).
      now rewrite E. }
    exact Hfind.
Qed.

Lemma cleared_alarm_cannot_fire_witness :
  Loop.fire 27000000 1
    (Alarm.clearAlarm (Alarm.setAlarm 25200000 25200000 Sample.page0730))
  = Alarm.clearAlarm (Alarm.setAlarm 25200000 25200000 Sample.page0730).
Proof.
  apply (cleared_alarm_cannot_fire 25200000 25200000 Sample.page0730
           (Dom.set_value "07:30" Sample.blank)).
  - reflexivity.
  - reflexivity.
  - discriminate.
  - constructor.
  - reflexivity.
  - reflexivity.
Defined.

(** ** Countdown timer: reset, and what follows a finished countdown *)

(** X10.  [resetTimer] returns the timer to Idle from any state: nothing
    remains, the paused flag and the handle variable are cleared, the tick
    the variable referred to is no longer pending, the display reads
    "00:00", the tone is paused and rewound (its loop flag is left as it
    was), the "timer-finished" flag is removed, start and the two inputs are
    enabled, pause and reset are disabled, pause is labelled "Pause", and
    both inputs are emptied. *)
Theorem resetTimer_returns_to_idle (w : World) :
  let w' := Timer.resetTimer w in
  secondsRemaining (vars w') = 0
  /\ isPaused (vars w') = false
  /\ timerIntervalId (vars w') = None
  /\ (forall h, timerIntervalId (vars w) = Some h ->
        Timers.isPending h (sched w') = false)
  /\ textOf timerDisplay w'
     = option_map (fun _ => Dom.Lit "00:00") (dom w timerDisplay)
  /\ option_map (fun e => (Dom.paused e, Dom.currentTime e, Dom.loop e))
       (dom w' timerSound)
     = option_map (fun e => (true, 0, Dom.loop e)) (dom w timerSound)
  /\ Timer.finishedFlag w' = false
  /\ disabledOf startTimerBtn w'
     = option_map (fun _ => false) (dom w startTimerBtn)
  /\ option_map (fun e => (Dom.disabled e, Dom.textContent e))
       (dom w' pauseTimerBtn)
     = option_map (fun _ => (true, Dom.Lit "Pause")) (dom w pauseTimerBtn)
  /\ disabledOf resetTimerBtn w'
     = option_map (fun _ => true) (dom w resetTimerBtn)
  /\ option_map (fun e => (Dom.disabled e, Dom.value e)) (dom w' minutesInput)
     = option_map (fun _ => (false, "")) (dom w minutesInput)
  /\ option_map (fun e => (Dom.disabled e, Dom.value e)) (dom w' secondsInput)
     = option_map (fun _ => (false, "")) (dom w secondsInput).
Proof.
  cbv zeta.
  assert (Hs : sched (Timer.resetTimer w)
               = Timers.clear (timerIntervalId (vars w)) (sched w))
    by reflexivity.
  split; [reflexivity|]. split; [reflexivity|]. split; [reflexivity|].
  split; [intros h Hh; rewrite Hs, Hh; apply isPending_clear|].
  unfold textOf, disabledOf, Timer.finishedFlag, Timer.resetTimer,
    Timer.updateTimerDisplay.
  destruct w as [d s p v]. cbn.
  repeat split;
    match goal with
    | |- context [d ?k] => destruct (d k)
    end; cbn; rewrite ?contains_remove; reflexivity.
Qed.

(** X11.  After a reset the start control does nothing until a duration is
    typed in: the reset has emptied both inputs, so [startTimer] finds a
    total of 0 and returns without touching anything, and so does a click
    on the control. *)
Theorem start_after_reset_is_a_noop (now later : Z) (w : World) :
  Timer.startTimer (Timer.resetTimer w) = Timer.resetTimer w
  /\ Loop.click now later startTimerBtn (Timer.resetTimer w)
     = Timer.resetTimer w.
Proof.
  assert (H : Timer.startTimer (Timer.resetTimer w) = Timer.resetTimer w).
  { apply startTimer_noop.
    assert (Hm : Timer.valueOf minutesInput (Timer.resetTimer w) = "").
    { unfold Timer.valueOf, Timer.resetTimer, Timer.updateTimerDisplay.
      cbn. now destruct (dom w minutesInput). }
    assert (Hsec : Timer.valueOf secondsInput (Timer.resetTimer w) = "").
    { unfold Timer.valueOf, Timer.resetTimer, Timer.updateTimerDisplay.
      cbn. now destruct (dom w secondsInput). }
    rewrite Hm, Hsec. vm_compute. discriminate. }
  split; [exact H|].
  unfold Loop.click.
  destruct (negb (Loop.clickable startTimerBtn (Timer.resetTimer w)));
    [reflexivity|].
  destruct (Timer.wired (Timer.resetTimer w)); [exact H|reflexivity].
Qed.

Lemma tick_leaves_pause_control (w : World) :
  dom (Timer.tick w) pauseTimerBtn = dom w pauseTimerBtn.
Proof.
  unfold Timer.tick, Timer.updateTimerDisplay. cbv zeta.
  match goal with |- context [if ?c then _ else _] => destruct c end;
    reflexivity.
Qed.

(** X12.  Nothing guards the pause control once the countdown has ended:
    the tick never writes to the control, so it stays as [startTimer] left
    it, and on a timer with nothing remaining a pause followed by a resume
    starts a new periodic tick, whose first firing takes remaining to -1
    and the display to "-1:-1". *)
Theorem resume_after_the_end_counts_below_zero
  (now : Z) (w : World)
  (Hzero : secondsRemaining (vars w) = 0)
  (Hnotpaused : isPaused (vars w) = false)
  (Hfresh : freshHandles (sched w))
  (Hdisplay : St.present timerDisplay w = true) :
  let h := nextHandle (sched w) in
  let w2 := Timer.pauseTimer (Timer.pauseTimer w) in
  running h w2
  /\ secondsRemaining (vars (Loop.fire now h w2)) = -1
  /\ textOf timerDisplay (Loop.fire now h w2) = Some (Dom.Lit "-1:-1")
  /\ (forall w0, dom (Timer.tick w0) pauseTimerBtn = dom w0 pauseTimerBtn).
Proof.
  cbv zeta.
  assert (Hp1 : isPaused (vars (Timer.pauseTimer w)) = true)
    by (unfold Timer.pauseTimer; now rewrite Hnotpaused).
  assert (Hs1 : sched (Timer.pauseTimer w)
                = Timers.clear (timerIntervalId (vars w)) (sched w))
    by (unfold Timer.pauseTimer; now rewrite Hnotpaused).
  assert (Hf1 : freshHandles (sched (Timer.pauseTimer w)))
    by (rewrite Hs1; now apply clear_fresh).
  destruct (pauseTimer_resumes _ Hp1 Hf1) as [Hrun _].
  assert (Hn : nextHandle (sched (Timer.pauseTimer w)) = nextHandle (sched w))
    by (rewrite Hs1; now destruct (timerIntervalId (vars w))).
  rewrite Hn in Hrun.
  split; [exact Hrun|].
  destruct Hrun as (_ & _ & Hfind).
  assert (Hr2 : secondsRemaining (vars (Timer.pauseTimer (Timer.pauseTimer w)))
                = 0) by (now rewrite !pauseTimer_remaining).
  assert (Hd2 : St.present timerDisplay
                  (Timer.pauseTimer (Timer.pauseTimer w)) = true).
  { rewrite <- Hdisplay. unfold Timer.pauseTimer.
    rewrite Hnotpaused. cbn. solve_present. }
  unfold Loop.fire. rewrite Hfind.
  cbn [repeating callback tickEntry Loop.run].
  set (w2 := Timer.pauseTimer (Timer.pauseTimer w)) in *.
  split; [|split; [|exact tick_leaves_pause_control]].
  - unfold Timer.tick, Timer.updateTimerDisplay. cbn. rewrite Hr2. reflexivity.
  - unfold textOf, Timer.tick, Timer.updateTimerDisplay. cbn. rewrite Hr2.
    cbn. unfold St.present in Hd2.
    destruct (dom w2 timerDisplay); [reflexivity|discriminate].
Qed.

Lemma resume_after_the_end_counts_below_zero_witness :
  secondsRemaining
    (vars (Loop.fire 0 2
             (Timer.pauseTimer (Timer.pauseTimer Sample.timerFinished))))
  = -1.
Proof.
  destruct (resume_after_the_end_counts_below_zero 0 Sample.timerFinished)
    as (_ & H & _).
  - reflexivity.
  - reflexivity.
  - unfold freshHandles. vm_compute. constructor.
  - reflexivity.
  - exact H.
Defined.

(** ** Stopwatch: timing, laps, reset, refresh *)

Lemma lap_step (t : Z) (w : World) :
  isRunning (vars w) = true ->
  let w' := Stopwatch.handleSecondaryClick t w in
  isRunning (vars w') = true
  /\ startTime (vars w') = startTime (vars w)
  /\ elapsedTime (vars w') = elapsedTime (vars w)
  /\ stopwatchIntervalId (vars w') = stopwatchIntervalId (vars w)
  /\ lapCounter (vars w') = lapCounter (vars w) + 1
  /\ sched w' = sched w
  /\ St.present lapsList w' = St.present lapsList w
  /\ lapsOf w'
     = if St.present lapsList w
       then Stopwatch.lapHtml (lapCounter (vars w))
              (Stopwatch.formatTime
                 (elapsedTime (vars w) + (t - startTime (vars w))))
            :: lapsOf w
       else [].
Proof.
  intro Hr. cbv zeta. unfold Stopwatch.handleSecondaryClick. rewrite Hr.
  cbv zeta. unfold lapsOf, St.present. cbn. rewrite Hr.
  repeat split; now destruct (dom w lapsList).
Qed.

Lemma laps_steps (ts : list Z) (w : World) :
  isRunning (vars w) = true ->
  let w' := secondaryClicks ts w in
  isRunning (vars w') = true
  /\ startTime (vars w') = startTime (vars w)
  /\ elapsedTime (vars w') = elapsedTime (vars w)
  /\ stopwatchIntervalId (vars w') = stopwatchIntervalId (vars w)
  /\ lapCounter (vars w') = lapCounter (vars w) + Z.of_nat (List.length ts)
  /\ sched w' = sched w
  /\ St.present lapsList w' = St.present lapsList w
  /\ (St.present lapsList w = true ->
      List.length (lapsOf w')
      = (List.length ts + List.length (lapsOf w))%nat).
Proof.
  unfold secondaryClicks. revert w.
  induction ts as [|t ts IH]; intros w Hr; cbn [fold_left List.length].
  - repeat split; try reflexivity; [exact Hr|lia].
  - destruct (lap_step t w Hr) as (H1 & H2 & H3 & H4 & H5 & H6 & H7 & H8).
    destruct (IH _ H1) as (I1 & I2 & I3 & I4 & I5 & I6 & I7 & I8).
    repeat split; try congruence.
    + rewrite I5, H5. lia.
    + intro Hp. rewrite I8 by congruence. rewrite H8, Hp. cbn. lia.
Qed.

(** X13.  Starting a stopped stopwatch at [t1] and stopping it at [t2] adds
    exactly [t2 - t1] to the accumulated time, however many laps were taken
    in between: laps read the clock but never change the start instant or
    the accumulated time.  While it runs the refresh callback is pending
    every 10 ms; stopping cancels it.  Each lap adds one entry and one to
    the lap counter. *)
Theorem stopwatch_accumulates_across_laps
  (t1 t2 : Z) (laps : list Z) (w : World)
  (Hstopped : isRunning (vars w) = false)
  (Hfresh : freshHandles (sched w))
  (Hlist : St.present lapsList w = true) :
  let h := nextHandle (sched w) in
  let w1 := Stopwatch.handlePrimaryClick t1 w in
  let w2 := secondaryClicks laps w1 in
  let w3 := Stopwatch.handlePrimaryClick t2 w2 in
  isRunning (vars w1) = true
  /\ Timers.find h (sched w2) = Some (refreshEntry h)
  /\ isRunning (vars w3) = false
  /\ elapsedTime (vars w3) = elapsedTime (vars w) + (t2 - t1)
  /\ Timers.isPending h (sched w3) = false
  /\ lapCounter (vars w3) = lapCounter (vars w) + Z.of_nat (List.length laps)
  /\ List.length (lapsOf w3)
     = (List.length laps + List.length (lapsOf w))%nat.
Proof.
  cbv zeta.
  set (w1 := Stopwatch.handlePrimaryClick t1 w).
  assert (H1 : isRunning (vars w1) = true
               /\ startTime (vars w1) = t1
               /\ elapsedTime (vars w1) = elapsedTime (vars w)
               /\ stopwatchIntervalId (vars w1) = Some (nextHandle (sched w))
               /\ lapCounter (vars w1) = lapCounter (vars w)
               /\ sched w1
                  = snd (Timers.register cb_updateStopwatchDisplay (Some 10)
                           true (sched w))
               /\ St.present lapsList w1 = true
               /\ lapsOf w1 = lapsOf w).
  { unfold w1, Stopwatch.handlePrimaryClick. cbv zeta. cbn. rewrite Hstopped.
    cbn. unfold lapsOf, St.present in *. cbn.
    repeat split. exact Hlist. }
  destruct H1 as (R1 & S1 & E1 & I1 & L1 & Sc1 & P1 & Lp1).
  destruct (laps_steps laps w1 R1) as (R2 & S2 & E2 & I2 & L2 & Sc2 & P2 & Lp2).
  set (w2 := secondaryClicks laps w1) in *.
  assert (H3 : isRunning (vars (Stopwatch.handlePrimaryClick t2 w2)) = false
               /\ elapsedTime (vars (Stopwatch.handlePrimaryClick t2 w2))
                  = elapsedTime (vars w2) + (t2 - startTime (vars w2))
               /\ sched (Stopwatch.handlePrimaryClick t2 w2)
                  = Timers.clear (stopwatchIntervalId (vars w2)) (sched w2)
               /\ lapCounter (vars (Stopwatch.handlePrimaryClick t2 w2))
                  = lapCounter (vars w2)
               /\ lapsOf (Stopwatch.handlePrimaryClick t2 w2) = lapsOf w2).
  { unfold Stopwatch.handlePrimaryClick. cbv zeta. cbn. rewrite R2. cbn.
    unfold lapsOf. cbn. repeat split. }
  destruct H3 as (R3 & E3 & Sc3 & L3 & Lp3).
  split; [exact R1|]. split.
  { rewrite Sc2, Sc1. now apply find_registered. }
  split; [exact R3|]. split; [rewrite E3, E2, S2, E1, S1; reflexivity|].
  split; [rewrite Sc3, I2, I1; apply isPending_clear|].
  split; [rewrite L3, L2, L1; reflexivity|].
  rewrite Lp3, Lp2 by exact P1. now rewrite Lp1.
Qed.

Lemma stopwatch_accumulates_across_laps_witness :
  elapsedTime
    (vars (Stopwatch.handlePrimaryClick 4000
             (secondaryClicks [2000; 3000]
                (Stopwatch.handlePrimaryClick 1000 Sample.page))))
  = 3000.
Proof.
  destruct (stopwatch_accumulates_across_laps 1000 4000 [2000; 3000]
              Sample.page) as (_ & _ & _ & H & _).
  - reflexivity.
  - constructor.
  - reflexivity.
  - rewrite H. reflexivity.
Defined.

(** X14.  A click on the secondary control while the stopwatch is stopped
    resets it: the accumulated time and the start instant are zeroed, the
    lap counter is back at 1, the lap list is emptied, the display reads
    "00:00:00" and ".00", and the control disables itself, so that a second
    click on it does nothing; the next start enables it again, as the lap
    control. *)
Theorem stopwatch_reset_clears_and_disarms
  (now later : Z) (w : World)
  (Hstopped : isRunning (vars w) = false)
  (Hwired : Stopwatch.wired w = true) :
  let w' := Stopwatch.handleSecondaryClick now w in
  elapsedTime (vars w') = 0 /\ startTime (vars w') = 0
  /\ lapCounter (vars w') = 1 /\ isRunning (vars w') = false
  /\ lapsOf w' = []
  /\ textOf stopwatchDisplay w' = Some (Dom.Lit "00:00:00")
  /\ textOf stopwatchMillisecondsEl w'
     = option_map (fun _ => Dom.Lit ".00") (dom w stopwatchMillisecondsEl)
  /\ sched w' = sched w
  /\ Loop.click now later secondaryBtn w' = w'
  /\ (forall t,
        option_map (fun e => (Dom.disabled e, Dom.textContent e))
          (dom (Stopwatch.handlePrimaryClick t w') secondaryBtn)
        = Some (false, Dom.Lit "Lap")).
Proof.
  cbv zeta. unfold Stopwatch.wired, St.present in Hwired.
  destruct (dom w stopwatchDisplay) as [ed|] eqn:Ed; [|discriminate].
  destruct (dom w primaryBtn) as [ep|] eqn:Ep; [|discriminate].
  destruct (dom w secondaryBtn) as [es|] eqn:Es; [|discriminate].
  destruct (dom w lapsList) as [el|] eqn:El; [|discriminate].
  unfold Loop.click, Loop.clickable, textOf, lapsOf,
    Stopwatch.handlePrimaryClick, Stopwatch.handleSecondaryClick,
    Stopwatch.updateStopwatchDisplay.
  rewrite Hstopped. cbv zeta.
  destruct w as [d s p v]. cbn in *. rewrite ?Ed, ?Ep, ?Es, ?El. cbn.
  rewrite ?Hstopped. cbn. rewrite ?Es. cbn.
  repeat split. now destruct (d stopwatchMillisecondsEl).
Qed.

Lemma stopwatch_reset_clears_and_disarms_witness :
  let stopped :=
    Loop.runEvents [(1000, Click primaryBtn); (2000, Click secondaryBtn);
                    (4000, Click primaryBtn)] Sample.page in
  lapsOf stopped <> []
  /\ lapsOf (Stopwatch.handleSecondaryClick 5000 stopped) = []
  /\ elapsedTime (vars (Stopwatch.handleSecondaryClick 5000 stopped)) = 0.
Proof.
  intro stopped.
  destruct (stopwatch_reset_clears_and_disarms 5000 5000 stopped)
    as (H1 & _ & _ & _ & H5 & _); try reflexivity.
  split; [discriminate|]. split; [exact H5|exact H1].
Defined.

(** X15.  A display refresh writes only the display (its text and the
    centisecond span), computed from the variables and the clock reading of
    that very refresh: it changes no variable and no pending callback, and
    earlier refreshes leave no trace, so the display after a refresh is the
    same whether or not other refreshes came before it.  While the
    stopwatch is stopped the clock reading does not matter either. *)
Theorem refresh_recomputes_from_the_clock (t t' : Z) (w : World) :
  vars (Stopwatch.updateStopwatchDisplay t w) = vars w
  /\ sched (Stopwatch.updateStopwatchDisplay t w) = sched w
  /\ (forall id,
        id <> stopwatchDisplay -> id <> stopwatchMillisecondsEl ->
        dom (Stopwatch.updateStopwatchDisplay t w) id = dom w id)
  /\ (forall id,
        dom (Stopwatch.updateStopwatchDisplay t
               (Stopwatch.updateStopwatchDisplay t' w)) id
        = dom (Stopwatch.updateStopwatchDisplay t w) id)
  /\ (isRunning (vars w) = false ->
      forall id,
        dom (Stopwatch.updateStopwatchDisplay t w) id
        = dom (Stopwatch.updateStopwatchDisplay t' w) id)
  /\ textOf stopwatchDisplay (Stopwatch.updateStopwatchDisplay t w)
     = option_map
         (fun _ =>
            let f := Stopwatch.formatTime
                       (elapsedTime (vars w)
                        + (if isRunning (vars w)
                           then t - startTime (vars w) else 0)) in
            Dom.Lit (Stopwatch.hours f ++ ":" ++ Stopwatch.minutes f ++ ":"
                     ++ Stopwatch.seconds f))
         (dom w stopwatchDisplay).
Proof.
  split; [reflexivity|]. split; [reflexivity|].
  unfold Stopwatch.updateStopwatchDisplay, textOf. cbv zeta.
  destruct w as [d s p v]. cbn.
  split; [|split; [|split]].
  - intros id H1 H2.
    destruct (ElemId_beq id stopwatchMillisecondsEl) eqn:E1;
      [apply internal_ElemId_dec_bl in E1; contradiction|].
    destruct (ElemId_beq id stopwatchDisplay) eqn:E2;
      [apply internal_ElemId_dec_bl in E2; contradiction|reflexivity].
  - intro id.
    destruct (ElemId_beq id stopwatchMillisecondsEl);
      destruct (ElemId_beq id stopwatchDisplay);
      destruct (d id) as [[]|]; reflexivity.
  - intros Hr id. rewrite Hr. reflexivity.
  - now destruct (d stopwatchDisplay).
Qed.

(** ** Weather: what the panel shows, and how many requests it makes *)

(** When [updateWeatherUI] throws on a page that has the status line and
    the card, it has not come to hiding the one and showing the other: it
    has written into the fields of the card only. *)
Lemma updateWeatherUI_thrown (data : Weather.Body) (w w' : World)
      (fault : Fault) :
  St.present weatherStatusEl w = true ->
  St.present weatherCardEl w = true ->
  Weather.updateWeatherUI data w = Thrown fault w' ->
  platform w' = platform w
  /\ dom w' weatherStatusEl = dom w weatherStatusEl
  /\ dom w' weatherCardEl = dom w weatherCardEl
  /\ dom w' weatherView = dom w weatherView.
Proof.
  unfold St.present. intros Hs Hc.
  destruct (dom w weatherStatusEl) as [es|] eqn:Es; [|discriminate].
  destruct (dom w weatherCardEl) as [ec|] eqn:Ec; [|discriminate].
  unfold Weather.updateWeatherUI, Try.reading, Try.writing.
  destruct data as [data|[n t|n|]];
    cbn [Weather.nameOf Weather.tempOf Weather.firstWeatherOf]; cbn;
    rewrite ?Es, ?Ec; cbn.
  all: repeat match goal with
         | |- context [match dom ?x ?k with _ => _ end] =>
             destruct (dom x k) eqn:?; cbn
         end.
  all: intro H; try discriminate H.
  all: injection H as _ <-; cbn; rewrite ?Es, ?Ec; repeat split;
    try reflexivity.
  all: repeat match goal with
         | |- context [dom ?x ?k] => destruct (dom x k)
         end; reflexivity.
Qed.

(** What the [catch] clause shows. *)
Lemma catchClause_shows (message : string) (w : World) :
  St.present weatherStatusEl w = true ->
  shown weatherCardEl (Weather.catchClause message w)
  = shown weatherCardEl w
  /\ shown weatherStatusEl (Weather.catchClause message w)
     = shown weatherStatusEl w
  /\ Weather.loaded (Weather.catchClause message w) = Weather.loaded w
  /\ textOf weatherStatusEl (Weather.catchClause message w)
     = Some (Dom.Lit ("Error: " ++ message ++ ".")).
Proof.
  unfold St.present, shown, textOf, Weather.catchClause. intro Hs.
  split; [reflexivity|]. split; [|split].
  - cbn. now destruct (dom w weatherStatusEl).
  - destruct w as [d s p v]. keep_attributes.
  - cbn. destruct (dom w weatherStatusEl); [reflexivity|discriminate].
Qed.

(** What a completed [updateWeatherUI] shows. *)
Lemma updateWeatherUI_shows (data : Weather.Data) (w : World) :
  Weather.cardComplete w = true ->
  exists w',
    Weather.updateWeatherUI (Weather.Whole data) w = Completed w'
    /\ shown weatherCardEl w' = true /\ shown weatherStatusEl w' = false
    /\ dom w' weatherView = dom w weatherView
    /\ textOf weatherCityEl w' = Some (Dom.Lit (Weather.name data))
    /\ textOf weatherTempEl w'
       = Some (Dom.Lit (Js.toString (Js.round (Weather.temp data))
                        ++ Weather.degreesC))
    /\ textOf weatherDescEl w'
       = Some (Dom.Lit (Weather.description data)).
Proof.
  unfold Weather.cardComplete, St.present. intro H.
  unfold Weather.updateWeatherUI, Try.reading, Try.writing.
  cbn [Weather.nameOf Weather.tempOf Weather.firstWeatherOf]. cbn.
  destruct (dom w weatherCityEl) eqn:E1; [|discriminate].
  destruct (dom w weatherTempEl) eqn:E2; [|discriminate].
  destruct (dom w weatherDescEl) eqn:E3; [|discriminate].
  destruct (dom w weatherIconEl) eqn:E4; [|discriminate].
  destruct (dom w weatherStatusEl) eqn:E5; [|discriminate].
  destruct (dom w weatherCardEl) eqn:E6; [|discriminate].
  cbn. eexists. split; [reflexivity|].
  unfold shown, textOf. cbn. rewrite E1, E2, E3, E5, E6. cbn.
  rewrite contains_remove, contains_add.
  repeat split.
Qed.

(** What [fetchWeather] leaves when the status line and the card exist. *)
Lemma fetchWeather_shows (lat lon : Q) (w : World) :
  St.present weatherStatusEl w = true ->
  St.present weatherCardEl w = true ->
  let w1 := Weather.fetchWeather lat lon w in
  (shown weatherStatusEl w1 = true /\ shown weatherCardEl w1 = false
   /\ textOf weatherStatusEl w1 = Some (Dom.Lit "Loading weather...")
   /\ fetches (platform w1) = (fetches (platform w) ++ [(lat, lon)])%list)
  /\ St.present weatherStatusEl w1 = true
  /\ St.present weatherCardEl w1 = true
  /\ Weather.cardComplete w1 = Weather.cardComplete w
  /\ host (platform w1) = host (platform w)
  /\ Weather.loaded w1 = Weather.loaded w
  /\ St.present weatherView w1 = St.present weatherView w.
Proof.
  cbv zeta. unfold Weather.cardComplete, St.present. intros Hs Hc.
  destruct (dom w weatherStatusEl) as [es|] eqn:Es; [|discriminate].
  destruct (dom w weatherCardEl) as [ec|] eqn:Ec; [|discriminate].
  assert (E1 : Weather.fetchWeather lat lon w
               = Weather.fetch lat lon
                   (St.update weatherCardEl (Dom.classList_add "hidden")
                      (St.update weatherStatusEl
                         (Dom.classList_remove "hidden")
                         (St.update weatherStatusEl
                            (Dom.set_textContent
                               (Dom.Lit "Loading weather...")) w)))).
  { unfold Weather.fetchWeather, Try.writing. cbn. rewrite Es. cbn.
    rewrite Ec. reflexivity. }
  rewrite E1. clear E1.
  split; [|split; [|split; [|split; [|split; [|split]]]]].
  - unfold shown, textOf, Weather.fetch.
    destruct w as [d s p v]. cbn in *. rewrite Es, Ec. cbn.
    rewrite contains_remove, contains_add. repeat split.
  - cbn. now rewrite Es.
  - cbn. now rewrite Ec.
  - cbn. rewrite Es, Ec. reflexivity.
  - reflexivity.
  - unfold Weather.fetch. destruct w as [d s p v]. keep_attributes.
  - reflexivity.
Qed.

(** X16.  While the weather request is in flight the status line shows
    "Loading weather..." and the card is hidden.  When it settles, exactly
    one of the two is shown.  The card (with the city, the temperature
    rounded to an integer, and the description) is shown after an [ok]
    response of the documented shape on a page that has every element of
    the card.  After any failure the status line is shown with an
    "Error: ..." text, the card stays hidden and the loaded flag is as it
    was: a response that is not [ok], a rejection, and also a body that
    lacks a part or a missing element of the card, which make
    [updateWeatherUI] throw. *)
Theorem weather_shows_the_card_or_the_error
  (lat lon : Q) (r : Weather.Response) (w : World)
  (Hstatus : St.present weatherStatusEl w = true)
  (Hcard : St.present weatherCardEl w = true) :
  let w1 := Weather.fetchWeather lat lon w in
  let w2 := Weather.fetchWeatherSettled r w1 in
  let failure (message : string) :=
    shown weatherCardEl w2 = false /\ shown weatherStatusEl w2 = true
    /\ Weather.loaded w2 = Weather.loaded w
    /\ textOf weatherStatusEl w2
       = Some (Dom.Lit ("Error: " ++ message ++ ".")) in
  let thrown (data : Weather.Body) :=
    exists fault w',
      Weather.updateWeatherUI data w1 = Thrown fault w'
      /\ failure (typeErrorMessage (host (platform w)) fault) in
  (shown weatherStatusEl w1 = true /\ shown weatherCardEl w1 = false
   /\ textOf weatherStatusEl w1 = Some (Dom.Lit "Loading weather...")
   /\ fetches (platform w1) = (fetches (platform w) ++ [(lat, lon)])%list)
  /\ match r with
     | Weather.Ok data =>
         if Weather.cardComplete w then
           shown weatherCardEl w2 = true /\ shown weatherStatusEl w2 = false
           /\ Weather.loaded w2 = St.present weatherView w
           /\ textOf weatherCityEl w2 = Some (Dom.Lit (Weather.name data))
           /\ textOf weatherTempEl w2
              = Some (Dom.Lit (Js.toString (Js.round (Weather.temp data))
                               ++ Weather.degreesC))
           /\ textOf weatherDescEl w2
              = Some (Dom.Lit (Weather.description data))
         else thrown (Weather.Whole data)
     | Weather.OkLacking lacking => thrown (Weather.Lacks lacking)
     | Weather.NotOk status =>
         failure ("Weather data not available (HTTP "
                  ++ Js.toString status ++ ")")
     | Weather.Rejected message => failure message
     end.
Proof.
  cbv zeta.
  destruct (fetchWeather_shows lat lon w Hstatus Hcard)
    as (Hfirst & Hs1 & Hc1 & Hcomplete & Hhost & Hl1 & Hv1).
  cbv zeta in Hfirst. destruct Hfirst as (Hshown & Hhidden & Htext & Hf).
  remember (Weather.fetchWeather lat lon w) as w1 eqn:Ew1. clear Ew1.
  split; [now repeat split|].
  assert (Hcatch : forall message u,
             dom u weatherStatusEl = dom w1 weatherStatusEl ->
             dom u weatherCardEl = dom w1 weatherCardEl ->
             dom u weatherView = dom w1 weatherView ->
             shown weatherCardEl (Weather.catchClause message u) = false
             /\ shown weatherStatusEl (Weather.catchClause message u) = true
             /\ Weather.loaded (Weather.catchClause message u)
                = Weather.loaded w
             /\ textOf weatherStatusEl (Weather.catchClause message u)
                = Some (Dom.Lit ("Error: " ++ message ++ "."))).
  { intros message u Es Ec Ev.
    assert (Hsu : St.present weatherStatusEl u = true)
      by (unfold St.present in *; now rewrite Es).
    destruct (catchClause_shows message u Hsu) as (A & B & C & D).
    rewrite A, B, C, D. unfold shown in *. rewrite Es, Ec.
    repeat split; try assumption.
    rewrite <- Hl1. apply loaded_irrelevant. now rewrite Ev. }
  assert (Hthrown : forall data,
             match data with
             | Weather.Whole _ => Weather.cardComplete w = false
             | Weather.Lacks _ => True
             end ->
             exists fault w',
               Weather.updateWeatherUI data w1 = Thrown fault w'
               /\ shown weatherCardEl (Weather.render data w1) = false
               /\ shown weatherStatusEl (Weather.render data w1) = true
               /\ Weather.loaded (Weather.render data w1)
                  = Weather.loaded w
               /\ textOf weatherStatusEl (Weather.render data w1)
                  = Some (Dom.Lit ("Error: "
                                   ++ typeErrorMessage (host (platform w))
                                        fault ++ "."))).
  { intros data Hd.
    assert (Hd1 : match data with
                  | Weather.Whole _ => Weather.cardComplete w1 = false
                  | Weather.Lacks _ => True
                  end) by (destruct data; [now rewrite Hcomplete|exact I]).
    destruct (updateWeatherUI_throws data w1 Hd1) as (fault & w' & E).
    destruct (updateWeatherUI_thrown data w1 w' fault Hs1 Hc1 E)
      as (Hp & Es & Ec & Ev).
    exists fault, w'. split; [exact E|].
    unfold Weather.render. rewrite E, Hp, Hhost.
    now apply Hcatch. }
  destruct r as [data|lacking|status|message].
  - destruct (Weather.cardComplete w) eqn:Hc.
    + destruct (updateWeatherUI_shows data w1 Hcomplete)
        as (w' & E & A & B & Ev & C & D & F).
      unfold Weather.fetchWeatherSettled, Weather.render. rewrite E.
      unfold shown, textOf in *. cbn.
      split; [exact A|]. split; [exact B|].
      split; [|split; [exact C|split; [exact D|exact F]]].
      rewrite <- Hv1. unfold St.present.
      destruct (dom w1 weatherView) eqn:Ew.
      * apply marked_loaded. unfold St.present. now rewrite Ev.
      * unfold Weather.loaded. cbn. now rewrite Ev.
    + exact (Hthrown (Weather.Whole data) eq_refl).
  - exact (Hthrown (Weather.Lacks lacking) I).
  - now apply Hcatch.
  - now apply Hcatch.
Qed.

Lemma weather_shows_the_card_or_the_error_witness :
  let w2 := Weather.fetchWeatherSettled
              (Weather.Ok {| Weather.name := "Berlin";
                             Weather.temp := 37 # 2;
                             Weather.description := "clear sky";
                             Weather.icon := "01d" |})
              (Weather.fetchWeather (52 # 1) (13 # 1)
                 (Sample.without weatherCityEl Sample.page)) in
  shown weatherCardEl w2 = false /\ shown weatherStatusEl w2 = true
  /\ Weather.loaded w2 = false.
Proof.
  destruct (weather_shows_the_card_or_the_error (52 # 1) (13 # 1)
              (Weather.Ok {| Weather.name := "Berlin";
                             Weather.temp := 37 # 2;
                             Weather.description := "clear sky";
                             Weather.icon := "01d" |})
              (Sample.without weatherCityEl Sample.page) eq_refl eq_refl)
    as (_ & H).
  cbv zeta in H.
  change (Weather.cardComplete (Sample.without weatherCityEl Sample.page))
    with false in H.
  cbv iota in H. destruct H as (fault & w' & _ & H1 & H2 & H3 & _).
  split; [exact H1|]. split; [exact H2|exact H3].
Defined.

Lemma getWeather_platform (w : World) :
  platform (Try.worldOf (Weather.getWeather w)) = platform w
  \/ (geolocationSupported (platform w) = true
      /\ platform (Try.worldOf (Weather.getWeather w))
         = platform (Weather.getCurrentPosition w)).
Proof.
  unfold Weather.getWeather, Try.writing.
  destruct (negb (St.present weatherView w) || Weather.loaded w);
    [now left|].
  destruct (geolocationSupported (platform w)) eqn:E,
    (dom w weatherStatusEl); cbn [Try.worldOf]; try (now left).
  right. split; reflexivity.
Qed.

Lemma keepsAccount_same_platform (w w' : World) :
  platform w' = platform w -> keepsAccount w w'.
Proof.
  intro H. unfold keepsAccount, accounted. rewrite H.
  repeat split; auto; lia.
Qed.

Lemma keepsAccount_trans (w1 w2 w3 : World) :
  keepsAccount w1 w2 -> keepsAccount w2 w3 -> keepsAccount w1 w3.
Proof.
  unfold keepsAccount.
  intros (A1 & B1 & C1 & D1 & E1) (A2 & B2 & C2 & D2 & E2).
  split; [auto|]. split; [congruence|].
  split; [intro H; rewrite C2 by congruence; now apply C1|].
  split; lia.
Qed.

Lemma getWeather_keepsAccount (w : World) :
  keepsAccount w (Try.worldOf (Weather.getWeather w)).
Proof.
  destruct (getWeather_platform w) as [H|[Hs H]].
  - now apply keepsAccount_same_platform.
  - unfold keepsAccount, accounted. rewrite H. cbn.
    repeat split; try lia. congruence.
Qed.

Lemma observerCallback_keepsAccount (entries : list bool) (w : World) :
  keepsAccount w (Try.worldOf (Weather.observerCallback entries w)).
Proof.
  apply (observerCallback_keeps keepsAccount).
  - intro w0. now apply keepsAccount_same_platform.
  - apply keepsAccount_trans.
  - apply getWeather_keepsAccount.
Qed.

Lemma dispatch_keepsAccount (now later : Z) (e : Event) (w : World) :
  keepsAccount w (Loop.dispatch now later e w).
Proof.
  destruct e as [target|orientation|h|entries|lat lon|msg|r].
  - apply keepsAccount_same_platform.
    unfold Loop.dispatch, Loop.click.
    destruct (negb (Loop.clickable target w)); [reflexivity|].
    destruct target; try reflexivity.
    all: match goal with |- context [if ?c then _ else _] => destruct c end;
      try reflexivity.
    all: by_cases_on_handler.
  - apply keepsAccount_same_platform. by_cases_on_handler.
  - apply keepsAccount_same_platform. by_cases_on_handler.
  - unfold Loop.dispatch. destruct (St.present weatherView w);
      [apply observerCallback_keepsAccount
      |now apply keepsAccount_same_platform].
  - unfold Loop.dispatch.
    destruct (geoPending (platform w)) eqn:E;
      [now apply keepsAccount_same_platform|].
    unfold keepsAccount, accounted.
    by_cases_on_handler; cbn; rewrite ?E, ?length_app; cbn;
      repeat split; lia.
  - unfold Loop.dispatch.
    destruct (geoPending (platform w)) eqn:E;
      [now apply keepsAccount_same_platform|].
    unfold keepsAccount, accounted. cbn. rewrite E. cbn.
    repeat split; lia.
  - unfold Loop.dispatch.
    destruct (fetchPending (platform w)) eqn:E;
      [now apply keepsAccount_same_platform|].
    unfold keepsAccount, accounted.
    destruct r; by_cases_on_handler; cbn; rewrite ?E; cbn;
      repeat split; lia.
Qed.

(** X17.  Along any run of the page the weather requests stay accounted
    for: every weather request was issued on the answer to a position
    request, so there are never more weather requests than position
    requests, and the request counts only grow.  On a host without
    geolocation no position request is ever made. *)
Theorem weather_requests_stay_accounted
  (es : list (Z * Event)) (w : World)
  (Haccounted : accounted w) :
  let w' := Loop.runEvents es w in
  accounted w'
  /\ (List.length (fetches (platform w')) <= geoRequests (platform w'))%nat
  /\ (geoRequests (platform w) <= geoRequests (platform w'))%nat
  /\ (List.length (fetches (platform w))
      <= List.length (fetches (platform w')))%nat
  /\ (geolocationSupported (platform w) = false ->
      geoRequests (platform w') = geoRequests (platform w)).
Proof.
  cbv zeta.
  assert (Hk : keepsAccount w (Loop.runEvents es w)).
  { unfold Loop.runEvents. revert w Haccounted.
    induction es as [|[t e] es IH]; intros w Ha; cbn [fold_left fst snd].
    - now apply keepsAccount_same_platform.
    - pose proof (dispatch_keepsAccount t t e w) as Hd.
      eapply keepsAccount_trans; [exact Hd|].
      apply IH. now apply Hd. }
  destruct Hk as (A & B & C & D & E).
  pose proof (A Haccounted) as Ha'.
  split; [exact Ha'|]. split; [destruct Ha'; lia|].
  split; [exact D|]. split; [exact E|exact C].
Qed.

Lemma weather_requests_stay_accounted_witness :
  accounted Sample.page
  /\ (List.length
        (fetches
           (platform
              (Loop.runEvents [(0%Z, Intersection [true; true]);
                               (1%Z, Position (52 # 1) (13 # 1));
                               (2%Z, Intersection [true])]
                              Sample.page)))
      <= geoRequests
           (platform
              (Loop.runEvents [(0%Z, Intersection [true; true]);
                               (1%Z, Position (52 # 1) (13 # 1));
                               (2%Z, Intersection [true])]
                              Sample.page)))%nat.
Proof.
  assert (H : accounted Sample.page) by (unfold accounted; cbn; lia).
  split; [exact H|].
  apply (weather_requests_stay_accounted _ Sample.page H).
Defined.

(** ** At most one pending callback per panel *)

Lemma pendingOf_filter (cb : Callback) (s : Sched) :
  Timers.pendingOf cb s = filter (isCallback cb) (pendings s).
Proof. reflexivity. Qed.

Lemma pendings_clear (h : option Z) (s : Sched) :
  pendings (Timers.clear h s) = filter (keeps h) (pendings s).
Proof.
  destruct h as [id|]; cbn; [reflexivity|].
  induction (pendings s) as [|p l IH]; cbn; congruence.
Qed.

Lemma nextHandle_clear (h : option Z) (s : Sched) :
  nextHandle (Timers.clear h s) = nextHandle s.
Proof. now destruct h. Qed.

Lemma filter_comm {A : Type} (f g : A -> bool) (l : list A) :
  filter f (filter g l) = filter g (filter f l).
Proof.
  induction l as [|x l IH]; cbn; [reflexivity|].
  destruct (f x) eqn:Ef, (g x) eqn:Eg; cbn; rewrite ?Ef, ?Eg, IH; reflexivity.
Qed.

Lemma shrunk_refl (l : list Pending) : shrunk l l.
Proof. split; [auto|intros p H; now left]. Qed.

Lemma shrunk_filter (f : Pending -> bool) (l l' : list Pending) :
  shrunk l l' -> shrunk l (filter f l').
Proof.
  intros [H0 H1]. split.
  - intro E. now rewrite (H0 E).
  - intros p E. destruct (H1 p E) as [-> | ->]; cbn; [|now right].
    destruct (f p); [now left|now right].
Qed.

(** The pending callbacks of [cb] after a handler, once the handler's
    registrations of other callbacks are dropped and the filters of its
    cancellations are moved outside. *)
Ltac normalize_pending cb :=
  rewrite ?pendingOf_filter;
  cbn -[filter isCallback Timers.clear];
  rewrite ?pendings_clear, ?filter_app;
  cbn [filter isCallback callback negb];
  rewrite ?app_nil_r;
  rewrite ?(filter_comm (isCallback cb)).

Ltac solve_shrunk :=
  repeat first [ apply shrunk_refl | apply shrunk_filter ].

Ltac same_clickable :=
  unfold Loop.clickable; cbn;
  repeat match goal with
         | |- context [match ?d ?k with _ => _ end] =>
             lazymatch type of d with
             | ElemId -> option Dom.Element => destruct (d k)
             end
         | |- context [option_map _ (?d ?k)] => destruct (d k)
         end;
  reflexivity.

Lemma oneAlarm_frame (w w' : World) :
  shrunk (Timers.pendingOf cb_triggerAlarm (sched w))
         (Timers.pendingOf cb_triggerAlarm (sched w')) ->
  nextHandle (sched w) <= nextHandle (sched w') ->
  alarmTimeoutId (vars w') = alarmTimeoutId (vars w) ->
  Loop.clickable setAlarmBtn w' = Loop.clickable setAlarmBtn w ->
  oneAlarm w -> oneAlarm w'.
Proof.
  intros [S0 S1] Hn Hv Hc [Hpos H]. split; [lia|].
  destruct H as [H | (p & Hp & Hid & Hnz & Hdis)].
  - left. now apply S0.
  - destruct (S1 p Hp) as [E | E]; [right|now left].
    exists p. rewrite Hv, Hc. auto.
Qed.

Lemma getWeather_leaves (w : World) :
  weatherLeaves w (Try.worldOf (Weather.getWeather w)).
Proof.
  unfold weatherLeaves.
  by_cases_on_handler; cbn [Try.worldOf]; repeat split; reflexivity.
Qed.

Lemma observerCallback_leaves (entries : list bool) (w : World) :
  weatherLeaves w (Try.worldOf (Weather.observerCallback entries w)).
Proof.
  apply (observerCallback_keeps weatherLeaves).
  - intro w0. unfold weatherLeaves. auto.
  - unfold weatherLeaves.
    intros w1 w2 w3 (A1 & A2 & A3 & A4 & A5) (B1 & B2 & B3 & B4 & B5).
    repeat split; congruence.
  - apply getWeather_leaves.
Qed.

Lemma clickable_same (id : ElemId) (w w' : World) :
  dom w' id = dom w id -> Loop.clickable id w' = Loop.clickable id w.
Proof. unfold Loop.clickable. now intros ->. Qed.

Ltac frame_leaves :=
  try solve [normalize_pending cb_triggerAlarm; solve_shrunk];
  try solve [normalize_pending cb_tick; solve_shrunk];
  try solve [normalize_pending cb_updateStopwatchDisplay; solve_shrunk];
  try solve [cbn -[Timers.clear]; rewrite ?nextHandle_clear; lia];
  try solve [same_clickable];
  try solve [apply shrunk_refl];
  try lia.

Lemma oneAlarm_setAlarm (now later : Z) (w : World) :
  Loop.clickable setAlarmBtn w = true ->
  oneAlarm w -> oneAlarm (Alarm.setAlarm now later w).
Proof.
  intros Hc H. unfold Alarm.setAlarm.
  destruct (dom w alarmTimeInput) as [input|] eqn:Ei; [|exact H].
  destruct (dom w alarmStatusEl) as [st|] eqn:Es; [|exact H].
  cbv zeta. destruct (String.eqb (Dom.value input) "") eqn:Ev.
  - apply (oneAlarm_frame w); [| | | |exact H]; frame_leaves.
  - destruct H as [Hpos [H | (p & _ & _ & _ & Hdis)]]; [|congruence].
    split; [cbn; lia|]. right.
    exists (alarmEntry (nextHandle (sched w))
              (Alarm.timeToAlarm (zone (host (platform w))) now later
                 (Dom.value input))).
    split; [|split; [reflexivity|split; [cbn; lia|]]].
    + rewrite pendingOf_filter in *. cbn -[filter isCallback].
      rewrite filter_app, H. reflexivity.
    + unfold Loop.clickable in *. cbn.
      destruct (dom w setAlarmBtn); [reflexivity|discriminate].
Qed.

Lemma oneAlarm_clearAlarm (w : World) :
  oneAlarm w -> oneAlarm (Alarm.clearAlarm w).
Proof.
  intros [Hpos H]. unfold Alarm.clearAlarm.
  destruct (dom w alarmSound) eqn:E1; [|now split].
  destruct (dom w alarmStatusEl) eqn:E2; [|now split].
  destruct (dom w setAlarmBtn) eqn:E3; [|now split].
  destruct (dom w clearAlarmBtn) eqn:E4; [|now split].
  destruct (dom w alarmTimeInput) eqn:E5; [|now split].
  cbv zeta.
  destruct (St.truthy (alarmTimeoutId (vars w))) eqn:Et.
  - split; [cbn -[Timers.clear]; rewrite nextHandle_clear; lia|]. left.
    rewrite pendingOf_filter in *. cbn -[filter isCallback Timers.clear].
    rewrite pendings_clear, filter_app. cbn [filter isCallback callback].
    rewrite app_nil_r, filter_comm.
    destruct H as [-> | (p & -> & -> & _)]; [reflexivity|].
    cbn. now rewrite Z.eqb_refl.
  - split; [cbn; lia|]. left.
    rewrite pendingOf_filter in *. cbn -[filter isCallback].
    rewrite filter_app. cbn [filter isCallback callback].
    rewrite app_nil_r.
    destruct H as [H | (p & _ & Hid & Hnz & _)]; [exact H|].
    rewrite Hid in Et. cbn in Et.
    apply Z.eqb_neq in Hnz. rewrite Hnz in Et. discriminate.
Qed.

Lemma oneAlarm_dispatch (now later : Z) (e : Event) (w : World) :
  oneAlarm w -> oneAlarm (Loop.dispatch now later e w).
Proof.
  intro H.
  destruct e as [target|o|h|entries|lat lon|msg|r];
    [destruct target|..|destruct r].
  4: { cbn. unfold Loop.click.
       destruct (Loop.clickable setAlarmBtn w) eqn:Ec; cbn; [|exact H].
       destruct (Alarm.wired w); [|exact H].
       now apply oneAlarm_setAlarm. }
  4: { cbn. unfold Loop.click.
       destruct (negb (Loop.clickable clearAlarmBtn w)); [exact H|].
       destruct (Alarm.wired w); [|exact H].
       now apply oneAlarm_clearAlarm. }
  26: { cbn. destruct (St.present weatherView w); [|exact H].
        destruct (observerCallback_leaves entries w) as (A1 & A2 & A3 & _).
        apply (oneAlarm_frame w); [| | | |exact H];
          rewrite ?A1, ?A2; [apply shrunk_refl|lia|reflexivity|].
        now apply clickable_same. }
  all: apply (oneAlarm_frame w); [| | | |exact H].
  all: by_cases_on_handler.
  all: frame_leaves.
Qed.

Lemma runEvents_invariant (I : World -> Prop) :
  (forall now later e w, I w -> I (Loop.dispatch now later e w)) ->
  forall es w, I w -> I (Loop.runEvents es w).
Proof.
  intros Hstep es. unfold Loop.runEvents.
  induction es as [|[t e] es IH]; intros w H; cbn [fold_left]; [exact H|].
  apply IH, Hstep, H.
Qed.

(** X18.  Along any run of the page that starts where [oneAlarm] holds (a
    page that has just loaded: nothing pending, handles positive), at most
    one [triggerAlarm] callback is pending, and when one is, it is the one
    the handle variable names and the set control is disabled. *)
Theorem at_most_one_alarm_armed (es : list (Z * Event)) (w : World) :
  oneAlarm w ->
  oneAlarm (Loop.runEvents es w)
  /\ (List.length
        (Timers.pendingOf cb_triggerAlarm (sched (Loop.runEvents es w)))
      <= 1)%nat.
Proof.
  intro H.
  assert (H' : oneAlarm (Loop.runEvents es w))
    by (apply (runEvents_invariant oneAlarm); [|exact H];
        intros; now apply oneAlarm_dispatch).
  split; [exact H'|].
  destruct H' as [_ [-> | (p & -> & _)]]; cbn; lia.
Qed.

Lemma at_most_one_alarm_armed_witness :
  oneAlarm Sample.page0730
  /\ oneAlarm (Loop.runEvents [(25200000, Click setAlarmBtn);
                               (25200001, Click setAlarmBtn)]
                              Sample.page0730)
  /\ (List.length
        (Timers.pendingOf cb_triggerAlarm
           (sched (Loop.runEvents [(25200000%Z, Click setAlarmBtn);
                                   (25200001%Z, Click setAlarmBtn)]
                                  Sample.page0730)))
      <= 1)%nat.
Proof.
  assert (H : oneAlarm Sample.page0730)
    by (split; [reflexivity|left; reflexivity]).
  split; [exact H|].
  exact (at_most_one_alarm_armed _ _ H).
Defined.

Lemma oneTick_frame (w w' : World) :
  shrunk (Timers.pendingOf cb_tick (sched w))
         (Timers.pendingOf cb_tick (sched w')) ->
  timerIntervalId (vars w') = timerIntervalId (vars w) ->
  isPaused (vars w') = isPaused (vars w) ->
  Loop.clickable startTimerBtn w' = Loop.clickable startTimerBtn w ->
  Loop.clickable pauseTimerBtn w' = Loop.clickable pauseTimerBtn w ->
  oneTick w -> oneTick w'.
Proof.
  intros [S0 S1] Hv Hp Hs Hq [H J]. split.
  - destruct H as [H | (p & Hp' & Hid & Hnp & Hdis)].
    + left. now apply S0.
    + destruct (S1 p Hp') as [E | E]; [right|now left].
      exists p. rewrite Hv, Hp, Hs. auto.
  - rewrite Hp, Hs, Hq. exact J.
Qed.

Lemma filter_keeps_own (p : Pending) :
  filter (keeps (Some (handle p))) [p] = [].
Proof. cbn. now rewrite Z.eqb_refl. Qed.

Lemma oneTick_tick (w : World) : oneTick w -> oneTick (Timer.tick w).
Proof.
  intros [H J]. unfold Timer.tick. cbv zeta.
  match goal with |- context [if ?c then _ else _] => destruct c end.
  - split.
    + left. normalize_pending cb_tick.
      rewrite pendingOf_filter in H.
      destruct H as [-> | (p & -> & -> & _)];
        [reflexivity|apply filter_keeps_own].
    + replace (Loop.clickable startTimerBtn _)
        with (Loop.clickable startTimerBtn w) by same_clickable.
      replace (Loop.clickable pauseTimerBtn _)
        with (Loop.clickable pauseTimerBtn w) by same_clickable.
      exact J.
  - apply (oneTick_frame w); [| | | | |now split]; frame_leaves;
      reflexivity.
Qed.

Lemma oneTick_startTimer (w : World) :
  Loop.clickable startTimerBtn w = true ->
  oneTick w -> oneTick (Timer.startTimer w).
Proof.
  intros Hc [H J]. unfold Timer.startTimer, Timer.updateTimerDisplay.
  cbv zeta.
  match goal with |- context [if ?c then _ else _] => destruct c end;
    [now split|].
  match goal with
  | |- oneTick ?w' =>
      assert (Hdis : Loop.clickable startTimerBtn w' = false)
  end.
  { unfold Loop.clickable in *. cbn.
    destruct (dom w startTimerBtn); [reflexivity|discriminate]. }
  destruct H as [H | (p & _ & _ & _ & Hd)]; [|congruence].
  split.
  - right. exists (tickEntry (nextHandle (sched w))).
    split; [|split; [reflexivity|split; [reflexivity|exact Hdis]]].
    rewrite pendingOf_filter in *. cbn -[filter isCallback].
    rewrite filter_app, H. reflexivity.
  - intro Hs. congruence.
Qed.

Lemma oneTick_pauseTimer (w : World) :
  Loop.clickable pauseTimerBtn w = true ->
  oneTick w -> oneTick (Timer.pauseTimer w).
Proof.
  intros Hc [H J].
  assert (Hs : Loop.clickable startTimerBtn w = false).
  { destruct (Loop.clickable startTimerBtn w); [|reflexivity].
    destruct (J eq_refl). congruence. }
  assert (Hs' : forall w', dom w' startTimerBtn = dom w startTimerBtn ->
                           Loop.clickable startTimerBtn w' = false)
    by (intros w' E; now rewrite (clickable_same _ _ _ E)).
  unfold Timer.pauseTimer. destruct (isPaused (vars w)) eqn:Ep.
  - destruct H as [H | (p & _ & _ & Hnp & _)]; [|congruence].
    split.
    + right. exists (tickEntry (nextHandle (sched w))).
      split; [|split; [reflexivity|split; [reflexivity|]]].
      * rewrite pendingOf_filter in *. cbn -[filter isCallback].
        rewrite filter_app, H. reflexivity.
      * now apply Hs'.
    + intro C. rewrite Hs' in C by reflexivity. discriminate.
  - split.
    + left. normalize_pending cb_tick. rewrite pendingOf_filter in H.
      destruct H as [-> | (p & -> & -> & _)];
        [reflexivity|apply filter_keeps_own].
    + intro C. rewrite Hs' in C by reflexivity. discriminate.
Qed.

Lemma oneTick_resetTimer (w : World) :
  oneTick w -> oneTick (Timer.resetTimer w).
Proof.
  intros [H J]. unfold Timer.resetTimer, Timer.updateTimerDisplay.
  cbv zeta. split.
  - left. normalize_pending cb_tick. rewrite pendingOf_filter in H.
    destruct H as [-> | (p & -> & -> & _)];
      [reflexivity|apply filter_keeps_own].
  - intros _. split; [reflexivity|].
    unfold Loop.clickable. cbn. now destruct (dom w pauseTimerBtn).
Qed.

Lemma oneTick_clearTimer (h : option Z) (w : World) :
  oneTick w -> oneTick (St.clearTimer h w).
Proof.
  intro H. apply (oneTick_frame w); [| | | | |exact H]; frame_leaves;
    reflexivity.
Qed.

Lemma oneTick_dispatch (now later : Z) (e : Event) (w : World) :
  oneTick w -> oneTick (Loop.dispatch now later e w).
Proof.
  intro H.
  destruct e as [target|o|h|entries|lat lon|msg|r];
    [destruct target|..|destruct r].
  11: { cbn. unfold Loop.click.
        destruct (Loop.clickable startTimerBtn w) eqn:Ec; cbn; [|exact H].
        destruct (Timer.wired w); [|exact H].
        now apply oneTick_startTimer. }
  11: { cbn. unfold Loop.click.
        destruct (Loop.clickable pauseTimerBtn w) eqn:Ec; cbn; [|exact H].
        destruct (Timer.wired w); [|exact H].
        now apply oneTick_pauseTimer. }
  11: { cbn. unfold Loop.click.
        destruct (negb (Loop.clickable resetTimerBtn w)); [exact H|].
        destruct (Timer.wired w); [|exact H].
        now apply oneTick_resetTimer. }
  24: { unfold Loop.dispatch, Loop.fire.
        destruct (Timers.find h (sched w)) as [[h' cb d rep]|]; [|exact H].
        cbn [repeating callback].
        destruct cb.
        3: { unfold Loop.run. apply oneTick_tick.
             destruct rep; [exact H|now apply oneTick_clearTimer]. }
        all: apply (oneTick_frame w); [| | | | |exact H].
        all: by_cases_on_handler.
        all: frame_leaves. }
  24: { cbn. destruct (St.present weatherView w); [|exact H].
        destruct (observerCallback_leaves entries w)
          as (A1 & A2 & _ & A4 & A5).
        apply (oneTick_frame w); [| | | | |exact H];
          rewrite ?A1, ?A2; [apply shrunk_refl|reflexivity|reflexivity|..];
          now apply clickable_same. }
  all: apply (oneTick_frame w); [| | | | |exact H].
  all: by_cases_on_handler.
  all: frame_leaves.
Qed.

(** X19.  Along any run of the page that starts where [oneTick] holds (a
    page that has just loaded: no tick pending, pause disabled, not
    paused), at most one [tick] is pending, and when one is, it is the one
    the handle variable names, the timer is not paused and the start
    control is disabled. *)
Theorem at_most_one_countdown_ticking (es : list (Z * Event)) (w : World) :
  oneTick w ->
  oneTick (Loop.runEvents es w)
  /\ (List.length (Timers.pendingOf cb_tick (sched (Loop.runEvents es w)))
      <= 1)%nat.
Proof.
  intro H.
  assert (H' : oneTick (Loop.runEvents es w))
    by (apply (runEvents_invariant oneTick); [|exact H];
        intros; now apply oneTick_dispatch).
  split; [exact H'|].
  destruct H' as [[-> | (p & -> & _)] _]; cbn; lia.
Qed.

Lemma at_most_one_countdown_ticking_witness :
  oneTick Sample.page130
  /\ oneTick (Loop.runEvents [(0, Click startTimerBtn);
                             (400, Click pauseTimerBtn);
                             (900, Click startTimerBtn);
                             (1500, Click pauseTimerBtn)]
                            Sample.page130)
  /\ (List.length
        (Timers.pendingOf cb_tick
           (sched (Loop.runEvents [(0%Z, Click startTimerBtn);
                                   (400%Z, Click pauseTimerBtn);
                                   (900%Z, Click startTimerBtn);
                                   (1500%Z, Click pauseTimerBtn)]
                                  Sample.page130)))
      <= 1)%nat.
Proof.
  assert (H : oneTick Sample.page130).
  { split; [left; reflexivity|]. intros _. split; reflexivity. }
  split; [exact H|].
  exact (at_most_one_countdown_ticking _ _ H).
Defined.

Lemma oneRefresh_frame (w w' : World) :
  shrunk (Timers.pendingOf cb_updateStopwatchDisplay (sched w))
         (Timers.pendingOf cb_updateStopwatchDisplay (sched w')) ->
  stopwatchIntervalId (vars w') = stopwatchIntervalId (vars w) ->
  isRunning (vars w') = isRunning (vars w) ->
  oneRefresh w -> oneRefresh w'.
Proof.
  intros [S0 S1] Hv Hr [H | (p & Hp & Hid & Hrun)].
  - left. now apply S0.
  - destruct (S1 p Hp) as [E | E]; [right|now left].
    exists p. rewrite Hv, Hr. auto.
Qed.

Lemma oneRefresh_handlePrimaryClick (now : Z) (w : World) :
  oneRefresh w -> oneRefresh (Stopwatch.handlePrimaryClick now w).
Proof.
  intro H. unfold Stopwatch.handlePrimaryClick. cbv zeta. cbn [vars].
  unfold St.set_isRunning at 1 2. cbn [vars St.with_vars isRunning].
  destruct (isRunning (vars w)) eqn:Er; cbn [negb].
  - left. normalize_pending cb_updateStopwatchDisplay.
    unfold oneRefresh in H. rewrite pendingOf_filter in H.
    destruct H as [-> | (p & -> & -> & _)];
      [reflexivity|apply filter_keeps_own].
  - destruct H as [H | (p & _ & _ & Hrun)]; [|congruence].
    right. exists (refreshEntry (nextHandle (sched w))).
    split; [|split; reflexivity].
    rewrite pendingOf_filter in *. cbn -[filter isCallback].
    rewrite filter_app, H. reflexivity.
Qed.

Lemma oneRefresh_dispatch (now later : Z) (e : Event) (w : World) :
  oneRefresh w -> oneRefresh (Loop.dispatch now later e w).
Proof.
  intro H.
  destruct e as [target|o|h|entries|lat lon|msg|r];
    [destruct target|..|destruct r].
  17: { cbn. unfold Loop.click.
        destruct (negb (Loop.clickable primaryBtn w)); [exact H|].
        destruct (Stopwatch.wired w); [|exact H].
        now apply oneRefresh_handlePrimaryClick. }
  27: { cbn. destruct (St.present weatherView w); [|exact H].
        destruct (observerCallback_leaves entries w) as (A1 & A2 & _).
        apply (oneRefresh_frame w); [| | |exact H];
          rewrite ?A1, ?A2; [apply shrunk_refl|reflexivity..]. }
  all: apply (oneRefresh_frame w); [| | |exact H].
  all: by_cases_on_handler.
  all: frame_leaves.
  all: cbn; congruence.
Qed.

(** X20.  Along any run of the page that starts where [oneRefresh] holds
    (a page that has just loaded: no refresh pending), at most one display
    refresh is pending, and when one is, it is the one the handle variable
    names and the stopwatch is running. *)
Theorem at_most_one_refresh_pending (es : list (Z * Event)) (w : World) :
  oneRefresh w ->
  oneRefresh (Loop.runEvents es w)
  /\ (List.length
        (Timers.pendingOf cb_updateStopwatchDisplay
           (sched (Loop.runEvents es w)))
      <= 1)%nat.
Proof.
  intro H.
  assert (H' : oneRefresh (Loop.runEvents es w))
    by (apply (runEvents_invariant oneRefresh); [|exact H];
        intros; now apply oneRefresh_dispatch).
  split; [exact H'|].
  destruct H' as [-> | (p & -> & _)]; cbn; lia.
Qed.

Lemma at_most_one_refresh_pending_witness :
  oneRefresh Sample.page
  /\ oneRefresh (Loop.runEvents [(0, Click primaryBtn);
                                (250, Click secondaryBtn);
                                (700, Click primaryBtn);
                                (900, Click primaryBtn)]
                               Sample.page)
  /\ (List.length
        (Timers.pendingOf cb_updateStopwatchDisplay
           (sched (Loop.runEvents [(0%Z, Click primaryBtn);
                                   (250%Z, Click secondaryBtn);
                                   (700%Z, Click primaryBtn);
                                   (900%Z, Click primaryBtn)]
                                  Sample.page)))
      <= 1)%nat.
Proof.
  assert (H : oneRefresh Sample.page) by (left; reflexivity).
  split; [exact H|].
  exact (at_most_one_refresh_pending _ _ H).
Defined.

(** ** Theme toggle *)

Lemma applyTheme_dark (bgColor : list string -> string) (theme : string)
      (s : Theme.Shell) :
  Theme.dark (Theme.applyTheme bgColor theme s) = String.eqb theme "dark".
Proof.
  unfold Theme.dark, Theme.applyTheme. cbn.
  destruct (String.eqb theme "dark");
    [apply contains_add|apply contains_remove].
Qed.

(** X21.  [toggleTheme] flips the dark theme of the body, stores the name
    of the theme it switched to, leaves every other class of the body and
    the pending callbacks and variables of the page alone, and writes the
    body's background colour into the theme-colour meta element when there
    is one; toggling twice gives the first theme back. *)
Theorem toggleTheme_flips_and_persists (bgColor : list string -> string)
        (s : Theme.Shell) :
  let s' := Theme.toggleTheme bgColor s in
  Theme.dark s' = negb (Theme.dark s)
  /\ Theme.savedTheme s' = Some (if Theme.dark s' then "dark" else "light")
  /\ (forall c, c <> "dark-mode" ->
        Dom.contains c (Theme.bodyClassList s')
        = Dom.contains c (Theme.bodyClassList s))
  /\ Theme.metaContent s'
     = option_map
         (fun _ => Some (Dom.Lit (bgColor (Theme.bodyClassList s'))))
         (dom (Theme.page s) themeColorMeta)
  /\ sched (Theme.page s') = sched (Theme.page s)
  /\ vars (Theme.page s') = vars (Theme.page s)
  /\ Theme.dark (Theme.toggleTheme bgColor s') = Theme.dark s.
Proof.
  cbv zeta.
  assert (Hflip : forall t,
             Theme.dark (Theme.toggleTheme bgColor t)
             = negb (Theme.dark t)).
  { intro t. unfold Theme.toggleTheme. rewrite applyTheme_dark.
    fold (Theme.dark t). now destruct (Theme.dark t). }
  split; [apply Hflip|].
  split.
  { rewrite Hflip. unfold Theme.toggleTheme. cbn.
    fold (Theme.dark s). now destruct (Theme.dark s). }
  split.
  { intros c Hc. unfold Theme.toggleTheme, Theme.applyTheme. cbn.
    destruct (String.eqb _ "dark");
      [now apply contains_add_other|now apply contains_remove_other]. }
  split.
  { unfold Theme.metaContent, Theme.toggleTheme, Theme.applyTheme. cbn.
    destruct (dom (Theme.page s) themeColorMeta) as [e|]; [|reflexivity].
    cbn. unfold Dom.getAttribute. cbn.
    now rewrite setAssoc_getAssoc. }
  split; [reflexivity|]. split; [reflexivity|].
  rewrite !Hflip. apply negb_involutive.
Qed.

(** X22.  The choice made at start-up: a saved theme that is not the
    empty string decides, and only the string "dark" gives the dark theme;
    with no saved theme, or an empty one, the host's preference decides.
    The classes the markup put on the body do not matter. *)
Theorem startup_prefers_the_saved_theme (bgColor : list string -> string)
        (s : Theme.Shell) :
  Theme.dark (Theme.startup bgColor s)
  = match Theme.savedTheme s with
    | Some saved =>
        if String.eqb saved "" then Theme.prefersDark s
        else String.eqb saved "dark"
    | None => Theme.prefersDark s
    end.
Proof.
  unfold Theme.startup.
  destruct (Theme.savedTheme s) as [saved|].
  - destruct (String.eqb saved ""); cbn [negb].
    + destruct (Theme.prefersDark s); now rewrite applyTheme_dark.
    + apply applyTheme_dark.
  - destruct (Theme.prefersDark s); now rewrite applyTheme_dark.
Qed.

(** X23.  The theme chosen with the toggle survives a reload: whatever
    classes the markup puts on the body and whatever the host prefers,
    start-up gives the theme the last toggle switched to. *)
Theorem toggled_theme_survives_reload (bgColor : list string -> string)
        (s : Theme.Shell) (markup : list string) (preference : bool)
        (fresh : World) :
  let s' := Theme.toggleTheme bgColor s in
  Theme.dark
    (Theme.startup bgColor
       (Theme.reloaded markup (Theme.savedTheme s') preference fresh))
  = Theme.dark s'.
Proof.
  cbv zeta. unfold Theme.startup, Theme.toggleTheme.
  cbn [Theme.reloaded Theme.savedTheme Theme.applyTheme Theme.setItem].
  rewrite applyTheme_dark.
  fold (Theme.dark s).
  destruct (Theme.dark s); cbn; now rewrite applyTheme_dark.
Qed.

(** ** Panels cancel only their own callbacks *)

Lemma NoDup_map_filter {A B : Type} (f : A -> B) (g : A -> bool)
      (l : list A) :
  NoDup (map f l) -> NoDup (map f (filter g l)).
Proof.
  induction l as [|x l IH]; cbn; [auto|].
  intro H. inversion H as [|y l' Hn Hd]; subst.
  destruct (g x); cbn; [constructor|]; auto.
  intro Hin. apply Hn. apply in_map_iff in Hin as (z & Hz & Hin).
  apply filter_In in Hin as [Hin _]. apply in_map_iff. eauto.
Qed.

Lemma NoDup_map_inj {A B : Type} (f : A -> B) (l : list A) (x y : A) :
  NoDup (map f l) -> In x l -> In y l -> f x = f y -> x = y.
Proof.
  induction l as [|z l IH]; cbn; [tauto|].
  intros H Hx Hy E. inversion H as [|? ? Hn Hd]; subst.
  destruct Hx as [-> | Hx], Hy as [-> | Hy]; auto.
  - exfalso. apply Hn. rewrite E. now apply in_map.
  - exfalso. apply Hn. rewrite <- E. now apply in_map.
Qed.

Section Table.

Variables (s : Sched) (cb : Callback) (d : Js.Num) (rep : bool).

(** The table [Timers.register cb d rep s] leaves. *)
Local Abbreviation registered :=
  {| nextHandle := nextHandle s + 1;
     pendings := (pendings s ++
                  [{| handle := nextHandle s; callback := cb;
                      delay := d; repeating := rep |}])%list |}.

Lemma NoDup_clear (h : option Z) :
  NoDup (map handle (pendings s)) ->
  NoDup (map handle (pendings (Timers.clear h s))).
Proof. rewrite pendings_clear. apply NoDup_map_filter. Qed.

Lemma fresh_clear (h : option Z) :
  freshHandles s -> freshHandles (Timers.clear h s).
Proof.
  unfold freshHandles. rewrite pendings_clear, nextHandle_clear.
  rewrite !Forall_forall. intros H p Hin.
  apply filter_In in Hin as [Hin _]. now apply H.
Qed.

Lemma known_clear (v h : option Z) :
  known v s -> known v (Timers.clear h s).
Proof. destruct v; cbn; [|auto]. now rewrite nextHandle_clear. Qed.

Lemma own_clear (c : Callback) (v h : option Z) :
  ownHandle c v s -> ownHandle c v (Timers.clear h s).
Proof.
  unfold ownHandle. rewrite pendings_clear. intros H p Hin.
  apply filter_In in Hin as [Hin _]. now apply H.
Qed.

Lemma NoDup_register :
  freshHandles s -> NoDup (map handle (pendings s)) ->
  NoDup (map handle (pendings registered)).
Proof.
  unfold freshHandles. cbn. rewrite map_app. cbn. intros Hf Hn.
  apply NoDup_app; [exact Hn|repeat constructor; cbn; tauto|].
  intros h Hin [<- | []].
  apply in_map_iff in Hin as (p & E & Hin).
  rewrite Forall_forall in Hf. specialize (Hf p Hin). lia.
Qed.

Lemma fresh_register : freshHandles s -> freshHandles registered.
Proof.
  unfold freshHandles. cbn. rewrite !Forall_forall. intros H p Hin.
  apply in_app_iff in Hin as [Hin | [<- | []]];
    [specialize (H p Hin)|cbn]; lia.
Qed.

Lemma known_register (v : option Z) : known v s -> known v registered.
Proof. destruct v; cbn; [lia|auto]. Qed.

Lemma known_new : known (Some (nextHandle s)) registered.
Proof. cbn. lia. Qed.

Lemma own_register (c : Callback) (v : option Z) :
  known v s -> ownHandle c v s -> ownHandle c v registered.
Proof.
  unfold ownHandle. cbn. intros Hk H p Hin E.
  apply in_app_iff in Hin as [Hin | [<- | []]]; [now apply H|].
  subst v. cbn in Hk. lia.
Qed.

Lemma own_new : freshHandles s -> ownHandle cb (Some (nextHandle s)) registered.
Proof.
  unfold ownHandle, freshHandles. cbn. intros Hf p Hin E.
  apply in_app_iff in Hin as [Hin | [<- | []]]; [|reflexivity].
  rewrite Forall_forall in Hf. specialize (Hf p Hin).
  injection E as E. lia.
Qed.

Lemma known_none : known None s.
Proof. exact I. Qed.

Lemma own_none (c : Callback) : ownHandle c None s.
Proof. intros p _ E. discriminate. Qed.

End Table.

Create HintDb owned.
#[local] Hint Resolve NoDup_clear fresh_clear known_clear own_clear
  NoDup_register fresh_register known_register known_new own_register
  own_new known_none own_none : owned.

Ltac solve_owned :=
  match goal with
  | H : handlesOwned _ |- _ =>
      unfold handlesOwned in *;
      destruct H as (? & ? & ? & ? & ? & ? & ? & ?)
  end;
  cbn -[Timers.clear known ownHandle freshHandles];
  repeat split; eauto 8 with owned.

Lemma handlesOwned_dispatch (now later : Z) (e : Event) (w : World) :
  handlesOwned w -> handlesOwned (Loop.dispatch now later e w).
Proof.
  intro H.
  destruct e as [target|o|h|entries|lat lon|msg|r];
    [destruct target|..|destruct r].
  28: { cbn. destruct (St.present weatherView w); [|exact H].
        destruct (observerCallback_leaves entries w) as (A1 & A2 & _).
        unfold handlesOwned. now rewrite A1, A2. }
  all: by_cases_on_handler.
  all: try exact H.
  all: solve_owned.
Qed.

Lemma keeps_foreign (cb cb' : Callback) (h : option Z) (s : Sched) :
  ownHandle cb' h s -> cb <> cb' ->
  filter (keeps h) (filter (isCallback cb) (pendings s))
  = filter (isCallback cb) (pendings s).
Proof.
  unfold ownHandle. intros H Hne.
  induction (pendings s) as [|p l IH]; cbn; [reflexivity|].
  assert (IH' : filter (keeps h) (filter (isCallback cb) l)
                = filter (isCallback cb) l)
    by (apply IH; intros q Hq; apply H; now right).
  destruct (isCallback cb p) eqn:Ec; [|exact IH'].
  cbn. rewrite IH'.
  destruct h as [id|]; cbn; [|reflexivity].
  destruct (handle p =? id) eqn:E; [|reflexivity].
  exfalso. apply Z.eqb_eq in E. subst id.
  specialize (H p (or_introl eq_refl) eq_refl).
  unfold isCallback in Ec. rewrite H in Ec.
  destruct cb, cb'; congruence.
Qed.

Lemma find_own (h : Z) (s : Sched) (p : Pending) :
  NoDup (map handle (pendings s)) ->
  Timers.find h s = Some p ->
  ownHandle (callback p) (Some h) s.
Proof.
  unfold Timers.find, ownHandle. intros Hn Hf q Hq E.
  apply find_some in Hf as [Hp Hh]. apply Z.eqb_eq in Hh.
  injection E as E.
  now rewrite (NoDup_map_inj handle _ q p Hn Hq Hp) by lia.
Qed.

(** The cancellations of a handler that cannot reach a callback of [cb]
    are dropped from the list of its pending callbacks. *)
Ltac drop_foreign :=
  repeat match goal with
         | Ho : ownHandle ?c' ?h ?s
           |- context [filter (keeps ?h)
                         (filter (isCallback ?c) (pendings ?s))] =>
             rewrite (keeps_foreign c c' h s Ho) by discriminate
         end.

Ltac normalize_all :=
  normalize_pending cb_triggerAlarm;
  rewrite ?(filter_comm (isCallback cb_expireClearedMessage)),
    ?(filter_comm (isCallback cb_tick)),
    ?(filter_comm (isCallback cb_updateStopwatchDisplay)).

(** X24.  An event changes only the pending callbacks of its own panel:
    a click on a control leaves the callbacks of the other panels'
    functions pending as they were, and a callback that fires leaves
    those of every other function alone.  This holds as long as the
    handle variables name callbacks of their own panel, which every event
    preserves. *)
Theorem events_change_only_their_own_callbacks
        (now later : Z) (e : Event) (w : World) (cb : Callback) :
  handlesOwned w ->
  mayChange e w cb = false ->
  handlesOwned (Loop.dispatch now later e w)
  /\ Timers.pendingOf cb (sched (Loop.dispatch now later e w))
     = Timers.pendingOf cb (sched w).
Proof.
  intros H Hmay. split; [now apply handlesOwned_dispatch|].
  destruct H as (Hn & _ & _ & _ & _ & Ha & Ht & Hr).
  destruct e as [target|o|h|entries|lat lon|msg|r];
    [destruct target|..|destruct r].
  27: { unfold Loop.dispatch, Loop.fire.
        destruct (Timers.find h (sched w)) as [p|] eqn:Ef; [|reflexivity].
        pose proof (find_own _ _ _ Hn Ef) as Hown.
        unfold mayChange in Hmay. rewrite Ef in Hmay.
        destruct p as [h' c d rep]. cbn in Hown, Hmay |- *.
        destruct c, cb; try discriminate Hmay; destruct rep.
        all: by_cases_on_handler.
        all: normalize_all; drop_foreign; reflexivity. }
  27: { cbn. destruct (St.present weatherView w); [|reflexivity].
        destruct (observerCallback_leaves entries w) as (A1 & _).
        now rewrite A1. }
  all: destruct cb; try discriminate Hmay.
  all: by_cases_on_handler.
  all: normalize_all; drop_foreign; reflexivity.
Qed.

Lemma events_change_only_their_own_callbacks_witness :
  let w :=
    Loop.runEvents [(25200000, Click setAlarmBtn);
                    (25200000, Click startTimerBtn)]
                   (Sample.typed alarmTimeInput "07:30" Sample.page130) in
  handlesOwned w
  /\ mayChange (Click clearAlarmBtn) w cb_tick = false
  /\ Timers.pendingOf cb_tick (sched w) = [tickEntry 2]
  /\ handlesOwned (Loop.dispatch 25200500 25200500 (Click clearAlarmBtn) w)
  /\ Timers.pendingOf cb_tick
       (sched (Loop.dispatch 25200500 25200500 (Click clearAlarmBtn) w))
     = Timers.pendingOf cb_tick (sched w).
Proof.
  cbv zeta.
  match goal with
  | |- handlesOwned ?w /\ _ => assert (H : handlesOwned w)
  end.
  { unfold handlesOwned, freshHandles, known, ownHandle. vm_compute.
    repeat split.
    - repeat constructor; cbn; intuition discriminate.
    - repeat constructor.
    - intros p [<- | [<- | []]] E; [reflexivity|discriminate].
    - intros p [<- | [<- | []]] E; [discriminate|reflexivity].
    - intros p _ E. discriminate. }
  split; [exact H|]. split; [reflexivity|]. split; [reflexivity|].
  exact (events_change_only_their_own_callbacks
           25200500 25200500 (Click clearAlarmBtn) _ cb_tick H eq_refl).
Defined.
